(** * Book catalog service: a shallow embedding and its verified properties

    The development follows the layers of the repository:
    - [Js]: the JSON/JavaScript values that travel in request payloads and
      database rows (objects are finite maps from property names to values,
      a property that is [undefined] is simply absent from the map);
    - [Errors]: the error taxonomy of [packages/shared/utils/errors.js];
    - [Prisma]: the relational store behind the [prisma.book.*] calls, with the
      constraints of [migration.sql];
    - [BookService]: [catalog-service/src/services/bookService.js];
    - [Validation]: [packages/shared/utils/validate.js] and the rule sets of
      the book validator;
    - [Auth]: the [authenticateToken] and [requireRole] middleware;
    - [Http]: the book controller and the book router;
    - [Spec]: the vocabulary in which the properties are stated, among it
      the values that fit the column types of [migration.sql];
    - [Concurrent]: the calls of the service with other clients of the store
      running between their queries. *)

From Stdlib Require Import ZArith Lia Ascii String.
From stdpp Require Import gmap strings list sorting pretty.

Set Warnings "-register-all".

(* ===================================================================== *)
(** ** JavaScript values *)
(* ===================================================================== *)

Module Js.

(** A JSON number literal is kept exactly: an integer is [VNum n], a literal
    with a fractional part is [VDec unscaled scale], that is
    [unscaled * 10^(-scale)] (the shape of the DECIMAL columns too).
    [VDate arg] is the object built by [new Date(arg)]. *)
Inductive Value : Type :=
  | VNull
  | VBool (b : bool)
  | VNum (n : Z)
  | VDec (unscaled : Z) (scale : nat)
  | VStr (s : string)
  | VDate (arg : Value)
  | VArr (items : list Value)
  | VObj (fields : list (string * Value)).

(** A JavaScript object used as a record of named properties. *)
Abbreviation Obj := (gmap string Value).

(** A string is the UTF-8 encoding of the text. *)

(** [Number.prototype.toString] of the number [u * 10^(-scale)], for a
    number with at most 15 significant digits (which its shortest decimal
    form then has too): the digits without trailing zeros, placed by the
    position of the decimal point, or with an exponent from 1e21 and below
    1e-6. *)
Fixpoint significand (fuel : nat) (u z : Z) : Z * Z :=
  match fuel with
  | O => (u, z)
  | S f => if (u mod 10 =? 0)%Z then significand f (u / 10)%Z (z + 1)%Z else (u, z)
  end.

Definition zeros (n : nat) : string := string_of_list_ascii (replicate n "0"%char).

Definition positive_toString (u : Z) (scale : nat) : string :=
  let '(s, z) := significand (String.length (pretty u)) u 0 in
  let ds := pretty s in
  let k := Z.of_nat (String.length ds) in
  let n := (k + z - Z.of_nat scale)%Z in
  if (k <=? n)%Z && (n <=? 21)%Z then ds +:+ zeros (Z.to_nat (n - k))
  else if (0 <? n)%Z && (n <=? 21)%Z then
    String.substring 0 (Z.to_nat n) ds +:+ "." +:+
    String.substring (Z.to_nat n) (Z.to_nat (k - n)) ds
  else if (-6 <? n)%Z && (n <=? 0)%Z then "0." +:+ zeros (Z.to_nat (- n)) +:+ ds
  else
    let e := (n - 1)%Z in
    let exponent := (if (0 <=? e)%Z then "e+" else "e-") +:+ pretty (Z.abs e) in
    if (k =? 1)%Z then ds +:+ exponent
    else String.substring 0 1 ds +:+ "." +:+
         String.substring 1 (Z.to_nat (k - 1)) ds +:+ exponent.

Definition Number_toString (u : Z) (scale : nat) : string :=
  if (u =? 0)%Z then "0"
  else if (u <? 0)%Z then "-" +:+ positive_toString (- u) scale
  else positive_toString u scale.

(** [String(v)], which is also how [Array.prototype.join] renders an
    element, except that it renders [null] and [undefined] as nothing. An
    object is rendered by [Object.prototype.toString]. A payload parsed from
    JSON holds no Date; the text of one is not modelled and left empty. *)
Fixpoint js_String (v : Value) : string :=
  match v with
  | VNull => "null"
  | VBool b => if b then "true" else "false"
  | VNum n => Number_toString n 0
  | VDec u scale => Number_toString u scale
  | VStr s => s
  | VDate _ => ""
  | VArr items =>
      String.concat ","
        (map (λ x, match x with VNull => "" | _ => js_String x end) items)
  | VObj _ => "[object Object]"
  end.

(** The values that [js_String] and [Number_toString] render as JavaScript
    does: numbers of at most 15 significant digits and a moderate exponent
    (a JSON literal is read as a double), no Date, and no object that
    replaces [toString] by a property of its own. *)
Fixpoint plain (v : Value) : bool :=
  match v with
  | VNull | VBool _ | VStr _ => true
  | VNum n => (Z.abs n <? 10 ^ 15)%Z
  | VDec u scale => (Z.abs u <? 10 ^ 15)%Z && (scale <=? 300)%nat
  | VDate _ => false
  | VArr items => forallb plain items
  | VObj fields => negb (existsb (λ kv, String.eqb kv.1 "toString") fields)
  end.

(** *** White space and numeric strings *)

(** The white space of the language (WhiteSpace and LineTerminator) in a
    UTF-8 text: the number of bytes of the white space character that
    starts at [a], [b], [c], or 0. *)
Definition space_width (a : ascii) (b c : option ascii) : nat :=
  let x := nat_of_ascii a in
  let y := default 0 (nat_of_ascii <$> b) in
  let z := default 0 (nat_of_ascii <$> c) in
  if bool_decide (x ∈ [9; 10; 11; 12; 13; 32]) then 1
  else if (x =? 194) && (y =? 160) then 2
  else if (x =? 225) && (y =? 154) && (z =? 128) then 3
  else if (x =? 226) && (y =? 128)
          && (((128 <=? z) && (z <=? 138)) || bool_decide (z ∈ [168; 169; 175])) then 3
  else if (x =? 226) && (y =? 129) && (z =? 159) then 3
  else if (x =? 227) && (y =? 128) && (z =? 128) then 3
  else if (x =? 239) && (y =? 187) && (z =? 191) then 3
  else 0.

Fixpoint skip_spaces (s : string) : string :=
  match s with
  | String a rest1 =>
      match rest1 with
      | String b rest2 =>
          match rest2 with
          | String c rest3 =>
              match space_width a (Some b) (Some c) with
              | 1 => skip_spaces rest1
              | 2 => skip_spaces rest2
              | 3 => skip_spaces rest3
              | _ => s
              end
          | EmptyString =>
              match space_width a (Some b) None with
              | 1 => skip_spaces rest1
              | 2 => EmptyString
              | _ => s
              end
          end
      | EmptyString =>
          match space_width a None None with
          | 1 => EmptyString
          | _ => s
          end
      end
  | EmptyString => EmptyString
  end.

(** White space at the end is white space at the start of the reversed
    bytes, with the bytes of each character reversed too. *)
Definition reverse_bytes (s : string) : list ascii := rev (list_ascii_of_string s).

Fixpoint skip_spaces_back (fuel : nat) (r : list ascii) : list ascii :=
  match fuel with
  | O => r
  | S f =>
      match r with
      | c :: b :: a :: rest =>
          if (space_width c None None =? 1) then skip_spaces_back f (b :: a :: rest)
          else if (space_width b (Some c) None =? 2) then skip_spaces_back f (a :: rest)
          else if (space_width a (Some b) (Some c) =? 3) then skip_spaces_back f rest
          else r
      | [c; b] =>
          if (space_width c None None =? 1) then skip_spaces_back f [b]
          else if (space_width b (Some c) None =? 2) then []
          else r
      | [c] => if (space_width c None None =? 1) then [] else r
      | [] => []
      end
  end.

(** [s.trim()] as StringToNumber applies it. *)
Definition trim (s : string) : string :=
  let r := reverse_bytes (skip_spaces s) in
  string_of_list_ascii (rev (skip_spaces_back (length r) r)).

Definition digit (c : ascii) : bool := (Ascii.leb "0" c && Ascii.leb c "9")%char.

Definition digit_of (c : ascii) : Z := Z.of_nat (nat_of_ascii c - 48).

Definition number_of (ds : list ascii) : Z :=
  fold_left (λ acc c, acc * 10 + digit_of c)%Z ds 0%Z.

(** The digits at the start of a list of characters, and the rest. *)
Fixpoint span_digits (cs : list ascii) : list ascii * list ascii :=
  match cs with
  | c :: rest =>
      if digit c then let (ds, tl) := span_digits rest in (c :: ds, tl)
      else ([], cs)
  | [] => ([], [])
  end.

(** The exponent part of a decimal literal: nothing, or [e]/[E], an optional
    sign and digits up to the end. *)
Definition exponent_of (cs : list ascii) : option Z :=
  match cs with
  | [] => Some 0%Z
  | e :: rest =>
      if Ascii.eqb e "e" || Ascii.eqb e "E" then
        let '(negative, ds) :=
          match rest with
          | sign :: tl =>
              if Ascii.eqb sign "-" then (true, tl)
              else if Ascii.eqb sign "+" then (false, tl)
              else (false, rest)
          | [] => (false, [])
          end in
        if forallb digit ds && negb (bool_decide (ds = []))
        then Some (if negative then - number_of ds else number_of ds)%Z
        else None
      else None
  end.

(** An unsigned decimal literal [digits.digits e exponent] as
    [mantissa * 10^exponent]; [None] when the characters are no such
    literal. *)
Definition decimal_literal (cs : list ascii) : option (Z * Z) :=
  let (whole, rest) := span_digits cs in
  let '(fraction, rest') :=
    match rest with
    | dot :: tl => if Ascii.eqb dot "." then span_digits tl else ([], rest)
    | [] => ([], [])
    end in
  if bool_decide (whole = []) && bool_decide (fraction = []) then None
  else
    e ← exponent_of rest';
    Some (number_of (whole ++ fraction), (e - Z.of_nat (length fraction))%Z).

(** A literal with a radix prefix: [0x], [0o], [0b] in either case. *)
Definition radix_digit (radix : ascii) (c : ascii) : bool :=
  let n := nat_of_ascii c in
  if Ascii.eqb radix "x" || Ascii.eqb radix "X" then
    digit c || ((65 <=? n) && (n <=? 70)) || ((97 <=? n) && (n <=? 102))
  else if Ascii.eqb radix "o" || Ascii.eqb radix "O" then (48 <=? n) && (n <=? 55)
  else if Ascii.eqb radix "b" || Ascii.eqb radix "B" then (48 <=? n) && (n <=? 49)
  else false.

(** The number a string converts to is greater than zero (StringToNumber,
    then [> 0]); NaN is not. A decimal below 2^-1075 rounds to zero. *)
Definition string_gt_zero (s : string) : bool :=
  let t := list_ascii_of_string (trim s) in
  match t with
  | zero :: radix :: (d :: _) as ds =>
      if Ascii.eqb zero "0" && forallb (radix_digit radix) ds
      then existsb (λ c, negb (Ascii.eqb c "0")) ds
      else
        match decimal_literal (if Ascii.eqb zero "+" then radix :: ds else t) with
        | Some (m, e) =>
            (0 <? m)%Z &&
            ((0 <=? e)%Z || (10 ^ (- e) <? m * 2 ^ 1075)%Z)
        | None =>
            bool_decide (trim s = "Infinity") || bool_decide (trim s = "+Infinity")
        end
  | _ =>
      match decimal_literal (match t with
                             | sign :: tl => if Ascii.eqb sign "+" then tl else t
                             | [] => t
                             end) with
      | Some (m, e) => (0 <? m)%Z && ((0 <=? e)%Z || (10 ^ (- e) <? m * 2 ^ 1075)%Z)
      | None => false
      end
  end.

(** ToBoolean: what [if (x)], [x ? a : b], [x || y] and [!x] test.
    [None] is [undefined]. *)
Definition truthy (v : option Value) : bool :=
  match v with
  | None => false
  | Some VNull => false
  | Some (VBool b) => b
  | Some (VNum n) => negb (n =? 0)%Z
  | Some (VDec u _) => negb (u =? 0)%Z
  | Some (VStr s) => negb (String.eqb s "")
  | Some (VDate _) => true
  | Some (VArr _) => true
  | Some (VObj _) => true
  end.

(** [const { k = d } = o]: the default is taken only when the property is
    [undefined]; [null] and the other falsy values are kept. *)
Definition prop_default (o : Obj) (k : string) (d : Value) : Value :=
  match o !! k with
  | Some v => v
  | None => d
  end.

(** [{ ..., k: v }] handed to the query interface, which ignores a property
    whose value is [undefined]. *)
Definition put (k : string) (v : option Value) (o : Obj) : Obj :=
  match v with
  | Some x => <[k := x]> o
  | None => o
  end.

(** [xs.map((x, index) => f x index)] *)
Fixpoint mapi_from {A B : Type} (f : A → nat → B) (i : nat) (xs : list A) : list B :=
  match xs with
  | [] => []
  | x :: rest => f x i :: mapi_from f (S i) rest
  end.

Definition mapi {A B : Type} (f : A → nat → B) (xs : list A) : list B :=
  mapi_from f 0 xs.

End Js.

Export Js.

(* ===================================================================== *)
(** ** Error taxonomy *)
(* ===================================================================== *)

Module Errors.

(** One entry of a ValidationError's detail list. [fe_field] is optional
    because [err.path || err.param] may be [undefined]; [fe_value] is the
    offending value ([None] when the field was [undefined]). *)
Record FieldError : Type := mkFieldError {
  fe_field : option string;
  fe_message : string;
  fe_value : option Value
}.

(** Faults raised by the query interface itself. They are not [AppError]s. *)
Inductive StoreFault : Type :=
  | UnknownArgument (column : string)
  | MissingOrNullArgument (column : string)
  | InvalidArgumentType (column : string)
  | UniqueConstraint (column : string)
  | ForeignKeyConstraint (table : string)
  | RecordNotFound.

Inductive Error : Type :=
  | ValidationError (message : string) (errors : list FieldError)
  | NotFoundError (message : string)
  | ConflictError (message : string)
  | UnauthorizedError (message : string)
  | ForbiddenError (message : string)
  | TypeError (message : string)
  | StoreError (fault : StoreFault).

(** [statusCode] and [code] of each class, 500/INTERNAL_ERROR for what is
    not an [AppError] (the defaults of [errorHandler]). *)
Definition statusCode (e : Error) : Z :=
  match e with
  | ValidationError _ _ => 400
  | NotFoundError _ => 404
  | ConflictError _ => 409
  | UnauthorizedError _ => 401
  | ForbiddenError _ => 403
  | TypeError _ => 500
  | StoreError _ => 500
  end.

(** [new NotFoundError(resource, identifier)] *)
Definition mkNotFound (resource identifier : string) : Error :=
  NotFoundError
    (if String.eqb identifier ""
     then resource +:+ " not found"
     else resource +:+ " with identifier '" +:+ identifier +:+ "' not found").

End Errors.

Export Errors.

(* ===================================================================== *)
(** ** The entity store behind [prisma.book.*] *)
(* ===================================================================== *)

Module Prisma.

(** A model of the query interface, against the schema of [migration.sql]:
    its tables, NOT NULL columns, defaults, unique indexes, foreign keys and
    cascades. A row holds the values it was given: the conversions and the
    checks of the column types (DECIMAL scale, VARCHAR length, INTEGER range,
    the enum, dates given as text) are not part of the model, nor are nested
    writes and atomic operations in the data of an update. The properties
    that depend on them are stated for payloads within [Spec.fits]. *)

(** *** Tables of [migration.sql] *)

Record BookAuthor : Type := mkBookAuthor {
  ba_bookId : string;
  ba_authorId : string;
  authorOrder : Z
}.

Record BookCategory : Type := mkBookCategory {
  bc_bookId : string;
  bc_categoryId : string;
  isPrimary : bool
}.

(** Rows of Book, Author and Category are objects keyed by column name;
    a NULL column holds [VNull]. Lists keep insertion order. *)
Record Tables : Type := mkTables {
  Book : list Obj;
  Author : list Obj;
  Category : list Obj;
  BookAuthors : list BookAuthor;
  BookCategories : list BookCategory
}.

Definition bookColumns : list string :=
  ["id"; "isbn"; "isbn13"; "title"; "subtitle"; "description"; "publisher";
   "publicationDate"; "edition"; "language"; "pageCount"; "format"; "price";
   "discountPrice"; "stockQuantity"; "coverImageUrl"; "previewUrl";
   "averageRating"; "ratingsCount"; "additionalInfo"; "isFeatured";
   "isActive"; "createdAt"; "updatedAt"].

(** Columns declared NOT NULL. *)
Definition notNullColumns : list string :=
  ["id"; "title"; "description"; "language"; "format"; "price";
   "stockQuantity"; "coverImageUrl"; "averageRating"; "ratingsCount";
   "additionalInfo"; "isFeatured"; "isActive"; "createdAt"; "updatedAt"].

(** Columns with a UNIQUE index (the primary key included). *)
Definition uniqueColumns : list string := ["id"; "isbn"; "isbn13"].

(** What a create call cannot know and the store supplies: the generated
    primary key and the clock (milliseconds). *)
Record Env : Type := mkEnv {
  newId : string;
  now : Z
}.

(** Column defaults of a fresh Book row: the DEFAULT clauses, NULL for the
    nullable columns, the generated id, and both timestamps. The required
    columns without a default are left out. *)
Definition book_defaults (env : Env) : Obj :=
  list_to_map
    [("id", VStr (newId env)); ("isbn", VNull); ("isbn13", VNull);
     ("subtitle", VNull); ("publisher", VNull); ("publicationDate", VNull);
     ("edition", VNull); ("language", VStr "en"); ("pageCount", VNull);
     ("discountPrice", VNull); ("stockQuantity", VNum 0);
     ("previewUrl", VNull); ("averageRating", VNum 0);
     ("ratingsCount", VNum 0); ("additionalInfo", VObj []);
     ("isFeatured", VBool false); ("isActive", VBool true);
     ("createdAt", VDate (VNum (now env)));
     ("updatedAt", VDate (VNum (now env)))].

(** *** Outcomes *)

(** A call returns or throws. *)
Inductive Result (A : Type) : Type :=
  | Ok (a : A)
  | Throw (e : Error).

Arguments Ok {A} a.
Arguments Throw {A} e.

(** *** Row predicates *)

Definition col_str (r : Obj) (k : string) : option string :=
  match r !! k with
  | Some (VStr s) => Some s
  | _ => None
  end.

Definition has_id (id : string) (r : Obj) : bool :=
  bool_decide (col_str r "id" = Some id).

(** Equality of two scalar column values; the store is modelled untyped, a
    filter value that is not a scalar matches no row. *)
Definition scalar_eqb (a b : Value) : bool :=
  match a, b with
  | VStr x, VStr y => String.eqb x y
  | VNum x, VNum y => (x =? y)%Z
  | VBool x, VBool y => Bool.eqb x y
  | VDec x i, VDec y j => (x =? y)%Z && (i =? j)%nat
  | _, _ => false
  end.

(** [{ col: v }] *)
Definition col_equals (col : string) (v : Value) (r : Obj) : bool :=
  match r !! col with
  | Some w => scalar_eqb w v
  | None => false
  end.

Definition is_null (v : option Value) : bool :=
  match v with
  | None | Some VNull => true
  | Some _ => false
  end.

Definition lower_ascii (c : ascii) : ascii :=
  let n := nat_of_ascii c in
  if (65 <=? n)%nat && (n <=? 90)%nat then ascii_of_nat (n + 32) else c.

Fixpoint lower (s : string) : string :=
  match s with
  | EmptyString => EmptyString
  | String c rest => String (lower_ascii c) (lower rest)
  end.

Fixpoint contains (needle hay : string) : bool :=
  String.prefix needle hay ||
  match hay with
  | EmptyString => false
  | String _ rest => contains needle rest
  end.

(** [{ contains: s, mode: "insensitive" }]: the search for a substring
    whatever the case of the ASCII letters. The store runs it as a pattern
    match, in which [%], [_] and backslash in [s] are pattern characters
    and letters outside ASCII fold as the collation says; both agree on
    the texts of [Spec.plain_search]. *)
Definition contains_insensitive (needle : string) (v : option Value) : bool :=
  match v with
  | Some (VStr hay) => contains (lower needle) (lower hay)
  | _ => false
  end.

(** The [where] object that [getBooks] builds: a conjunction of the
    conditions that are set. *)
Record Where : Type := mkWhere {
  w_title : option string;
  w_format : option string;
  w_isActive : option bool;
  w_isFeatured : option bool
}.

Definition opt_test {A : Type} (c : option A) (p : A → bool) : bool :=
  match c with
  | Some x => p x
  | None => true
  end.

Definition where_matches (w : Where) (r : Obj) : bool :=
  opt_test (w_title w) (λ s, contains_insensitive s (r !! "title")) &&
  opt_test (w_format w) (λ f, col_equals "format" (VStr f) r) &&
  opt_test (w_isActive w) (λ b, col_equals "isActive" (VBool b) r) &&
  opt_test (w_isFeatured w) (λ b, col_equals "isFeatured" (VBool b) r).

(** *** Orderings *)

(** Sort key of a timestamp column: the store writes [VDate (VNum ms)]. *)
Definition time_key (r : Obj) (k : string) : Z :=
  match r !! k with
  | Some (VDate (VNum ms)) => ms
  | _ => 0
  end.

(** [orderBy: { createdAt: "desc" }] *)
Definition createdAt_desc (a b : Obj) : Prop :=
  (time_key b "createdAt" ≤ time_key a "createdAt")%Z.

(** [orderBy: { authorOrder: "asc" }] *)
Definition authorOrder_asc (a b : BookAuthor * Obj) : Prop :=
  (authorOrder a.1 ≤ authorOrder b.1)%Z.

(** [orderBy: { isPrimary: "desc" }]: true before false. *)
Definition isPrimary_desc (a b : BookCategory * Obj) : Prop :=
  isPrimary b.1 = true → isPrimary a.1 = true.

#[export] Instance createdAt_desc_dec a b : Decision (createdAt_desc a b).
Proof. unfold createdAt_desc. apply _. Defined.

#[export] Instance authorOrder_asc_dec a b : Decision (authorOrder_asc a b).
Proof. unfold authorOrder_asc. apply _. Defined.

#[export] Instance isPrimary_desc_dec a b : Decision (isPrimary_desc a b).
Proof. unfold isPrimary_desc. apply _. Defined.

(** *** Reads *)

(** The record a query returns under
    [include: { authors: {...}, categories: {...} }]; a relation that was
    not requested is [None]. *)
Record BookRecord : Type := mkBookRecord {
  br_row : Obj;
  br_authors : option (list (BookAuthor * Obj));
  br_categories : option (list (BookCategory * Obj))
}.

Definition join_author (t : Tables) (ba : BookAuthor) : option (BookAuthor * Obj) :=
  a ← List.find (has_id (ba_authorId ba)) (Author t); Some (ba, a).

Definition join_category (t : Tables) (bc : BookCategory) : option (BookCategory * Obj) :=
  c ← List.find (has_id (bc_categoryId bc)) (Category t); Some (bc, c).

Definition authors_of (t : Tables) (id : string) : list (BookAuthor * Obj) :=
  merge_sort authorOrder_asc
    (omap (join_author t)
       (List.filter (λ ba, String.eqb (ba_bookId ba) id) (BookAuthors t))).

Definition categories_of (t : Tables) (id : string) : list (BookCategory * Obj) :=
  merge_sort isPrimary_desc
    (omap (join_category t)
       (List.filter (λ bc, String.eqb (bc_bookId bc) id) (BookCategories t))).

Definition row_id (r : Obj) : string :=
  match col_str r "id" with
  | Some s => s
  | None => ""
  end.

Definition with_relations (t : Tables) (r : Obj) : BookRecord :=
  {| br_row := r;
     br_authors := Some (authors_of t (row_id r));
     br_categories := Some (categories_of t (row_id r)) |}.

(** [findFirst({ where: { OR: conds } })] *)
Definition book_findFirst (conds : list (string * Value)) (t : Tables) : option Obj :=
  List.find (λ r, existsb (λ c, col_equals c.1 c.2 r) conds) (Book t).

(** [findUnique({ where: { id } })] *)
Definition book_findUnique (id : string) (t : Tables) : option Obj :=
  List.find (has_id id) (Book t).

(** The values of the enum [BookFormat]. *)
Definition bookFormats : list string := ["HARDCOVER"; "PAPERBACK"; "EBOOK"; "AUDIOBOOK"].

(** The query interface validates its arguments before it asks the store:
    a format filter must name a value of the enum. *)
Definition where_fault (w : Where) : option StoreFault :=
  match w_format w with
  | Some f =>
      if bool_decide (f ∈ bookFormats) then None
      else Some (InvalidArgumentType "format")
  | None => None
  end.

(** [skip] and [take] travel as 64-bit integers. *)
Definition int64 (n : Z) : bool := (- 2 ^ 63 <=? n)%Z && (n <? 2 ^ 63)%Z.

(** [count({ where })] *)
Definition book_count (w : Where) (t : Tables) : Result Z :=
  match where_fault w with
  | Some f => Throw (StoreError f)
  | None => Ok (Z.of_nat (length (List.filter (where_matches w) (Book t))))
  end.

(** [findMany({ where, skip, take, orderBy: { createdAt: "desc" } })].
    A negative [skip] is refused; a negative [take] reads from the end of
    the ordered rows. Rows with the same [createdAt] come in insertion order
    here; the store leaves their order open. *)
Definition book_findMany (w : Where) (skip take : Z) (t : Tables) : Result (list Obj) :=
  match where_fault w with
  | Some f => Throw (StoreError f)
  | None =>
      if negb (int64 skip) || (skip <? 0)%Z then
        Throw (StoreError (InvalidArgumentType "skip"))
      else if negb (int64 take) then
        Throw (StoreError (InvalidArgumentType "take"))
      else
        let ordered :=
          merge_sort createdAt_desc (List.filter (where_matches w) (Book t)) in
        Ok (if (0 <=? take)%Z
            then firstn (Z.to_nat take) (skipn (Z.to_nat skip) ordered)
            else rev (firstn (Z.to_nat (- take))
                        (skipn (Z.to_nat skip) (rev ordered))))
  end.

(** *** Writes *)

(** First column of [cols] for which [bad] holds. *)
Definition first_bad (bad : string → bool) (cols : list string) : option string :=
  List.find bad cols.

Definition unknown_column (data : Obj) : option string :=
  first_bad (λ k, bool_decide (k ∉ bookColumns)) (elements (dom data)).

Definition null_column (r : Obj) : option string :=
  first_bad (λ k, is_null (r !! k)) notNullColumns.

(** A UNIQUE index admits any number of NULLs. *)
Definition collides (col : string) (r : Obj) (others : list Obj) : bool :=
  match r !! col with
  | None | Some VNull => false
  | Some v => existsb (col_equals col v) others
  end.

Definition duplicate_column (r : Obj) (others : list Obj) : option string :=
  first_bad (λ k, collides k r others) uniqueColumns.

(** The identifiers of nested [create] rows must be strings. *)
Fixpoint join_keys {A : Type} (rows : list (Value * A)) : option (list (string * A)) :=
  match rows with
  | [] => Some []
  | (VStr s, x) :: rest => tl ← join_keys rest; Some ((s, x) :: tl)
  | _ :: _ => None
  end.

Definition known (ids : list string) (table : list Obj) : bool :=
  forallb (λ i, existsb (has_id i) table) ids.

(** [create({ data: { ...columns, authors: { create }, categories: { create } } })]:
    one atomic nested write. It yields the inserted row and the new tables,
    or a fault and no change. *)
Definition book_create (env : Env) (data : Obj)
    (authors : option (list (Value * Z)))
    (categories : option (list (Value * bool)))
    (t : Tables) : Result (Obj * Tables) :=
  match unknown_column data with
  | Some c => Throw (StoreError (UnknownArgument c))
  | None =>
    match join_keys (default [] authors), join_keys (default [] categories) with
    | None, _ => Throw (StoreError (InvalidArgumentType "authorId"))
    | _, None => Throw (StoreError (InvalidArgumentType "categoryId"))
    | Some arows, Some crows =>
      let row := data ∪ book_defaults env in
      match null_column row with
      | Some c => Throw (StoreError (MissingOrNullArgument c))
      | None =>
        match col_str row "id" with
        | None => Throw (StoreError (InvalidArgumentType "id"))
        | Some id =>
          match duplicate_column row (Book t) with
          | Some c => Throw (StoreError (UniqueConstraint c))
          | None =>
            if negb (known arows.*1 (Author t)) then
              Throw (StoreError (ForeignKeyConstraint "BookAuthor"))
            else if negb (known crows.*1 (Category t)) then
              Throw (StoreError (ForeignKeyConstraint "BookCategory"))
            else if negb (bool_decide (NoDup arows.*1)) then
              Throw (StoreError (UniqueConstraint "BookAuthor_pkey"))
            else if negb (bool_decide (NoDup crows.*1)) then
              Throw (StoreError (UniqueConstraint "BookCategory_pkey"))
            else
              Ok (row,
                  {| Book := Book t ++ [row];
                     Author := Author t;
                     Category := Category t;
                     BookAuthors :=
                       BookAuthors t ++
                       map (λ a, mkBookAuthor id a.1 a.2) arows;
                     BookCategories :=
                       BookCategories t ++
                       map (λ c, mkBookCategory id c.1 c.2) crows |})
          end
        end
      end
    end
  end.

(** ON UPDATE CASCADE of the two foreign keys to Book. *)
Definition rekey_author (old new : string) (ba : BookAuthor) : BookAuthor :=
  if String.eqb (ba_bookId ba) old
  then mkBookAuthor new (ba_authorId ba) (authorOrder ba)
  else ba.

Definition rekey_category (old new : string) (bc : BookCategory) : BookCategory :=
  if String.eqb (bc_bookId bc) old
  then mkBookCategory new (bc_categoryId bc) (isPrimary bc)
  else bc.

(** [update({ where: { id }, data })], for [data] that names columns with
    plain values: every column named in [data] is overwritten, and
    [updatedAt] is set to the clock unless [data] names it. With nothing in
    [data] there is nothing to write: the row is read and returned as it
    is. *)
Definition book_update (env : Env) (id : string) (data : Obj) (t : Tables)
    : Result (Obj * Tables) :=
  match book_findUnique id t with
  | None => Throw (StoreError RecordNotFound)
  | Some old =>
    if bool_decide (dom data = ∅) then Ok (old, t) else
    match unknown_column data with
    | Some c => Throw (StoreError (UnknownArgument c))
    | None =>
      let row := data ∪ <["updatedAt" := VDate (VNum (now env))]> old in
      match null_column row with
      | Some c => Throw (StoreError (MissingOrNullArgument c))
      | None =>
        match col_str row "id" with
        | None => Throw (StoreError (InvalidArgumentType "id"))
        | Some id' =>
          match duplicate_column row (List.filter (λ r, negb (has_id id r)) (Book t)) with
          | Some c => Throw (StoreError (UniqueConstraint c))
          | None =>
            Ok (row,
                {| Book := map (λ r, if has_id id r then row else r) (Book t);
                   Author := Author t;
                   Category := Category t;
                   BookAuthors := map (rekey_author id id') (BookAuthors t);
                   BookCategories := map (rekey_category id id') (BookCategories t) |})
          end
        end
      end
    end
  end.

(** [delete({ where: { id } })], with ON DELETE CASCADE on both joins. *)
Definition book_delete (id : string) (t : Tables) : Result Tables :=
  match book_findUnique id t with
  | None => Throw (StoreError RecordNotFound)
  | Some _ =>
    Ok {| Book := List.filter (λ r, negb (has_id id r)) (Book t);
          Author := Author t;
          Category := Category t;
          BookAuthors :=
            List.filter (λ ba, negb (String.eqb (ba_bookId ba) id)) (BookAuthors t);
          BookCategories :=
            List.filter (λ bc, negb (String.eqb (bc_bookId bc) id)) (BookCategories t) |}
  end.

(** *** The client: tables plus the log of the calls made on them *)

Inductive Call : Type :=
  | CallFindFirst (conds : list (string * Value))
  | CallCreate (data : Obj)
      (authors : option (list (Value * Z)))
      (categories : option (list (Value * bool)))
  | CallFindMany (w : Where) (skip take : Z)
  | CallCount (w : Where)
  | CallFindUnique (id : string)
  | CallUpdate (id : string) (data : Obj)
  | CallDelete (id : string).

Record Db : Type := mkDb {
  tables : Tables;
  calls : list Call
}.

(** An operation on the client: a result or a thrown error, and the client
    afterwards. *)
Definition M (A : Type) : Type := Db → Result A * Db.

#[export] Instance M_ret : MRet M := λ A a db, (Ok a, db).

#[export] Instance M_bind : MBind M := λ A B f m db,
  match m db with
  | (Ok a, db') => f a db'
  | (Throw e, db') => (Throw e, db')
  end.

Definition throw {A : Type} (e : Error) : M A := λ db, (Throw e, db).

Definition logged (c : Call) (db : Db) : Db :=
  {| tables := tables db; calls := calls db ++ [c] |}.

Definition prisma_findFirst (conds : list (string * Value)) : M (option Obj) := λ db,
  (Ok (book_findFirst conds (tables db)), logged (CallFindFirst conds) db).

Definition prisma_findUnique (id : string) : M (option Obj) := λ db,
  (Ok (book_findUnique id (tables db)), logged (CallFindUnique id) db).

Definition prisma_findUniqueInclude (id : string) : M (option BookRecord) := λ db,
  (Ok (with_relations (tables db) <$> book_findUnique id (tables db)),
   logged (CallFindUnique id) db).

Definition prisma_count (w : Where) : M Z := λ db,
  (book_count w (tables db), logged (CallCount w) db).

Definition prisma_findManyInclude (w : Where) (skip take : Z) : M (list BookRecord) := λ db,
  (match book_findMany w skip take (tables db) with
   | Ok rows => Ok (with_relations (tables db) <$> rows)
   | Throw e => Throw e
   end,
   logged (CallFindMany w skip take) db).

(** [Promise.all([a, b])]: both calls are made; the result is both values,
    or the error of one that throws. Both queries see the same tables: no
    other client writes between them. *)
Definition Promise_all {A B : Type} (a : M A) (b : M B) : M (A * B) := λ db,
  let (ra, db1) := a db in
  let (rb, db2) := b db1 in
  (match ra, rb with
   | Ok x, Ok y => Ok (x, y)
   | Throw e, _ => Throw e
   | Ok _, Throw e => Throw e
   end, db2).

Definition prisma_createInclude (env : Env) (data : Obj)
    (authors : option (list (Value * Z)))
    (categories : option (list (Value * bool))) : M BookRecord := λ db,
  let db' := logged (CallCreate data authors categories) db in
  match book_create env data authors categories (tables db) with
  | Ok (row, t') =>
      (Ok (with_relations t' row), {| tables := t'; calls := calls db' |})
  | Throw e => (Throw e, db')
  end.

Definition prisma_updateInclude (env : Env) (id : string) (data : Obj) : M BookRecord := λ db,
  let db' := logged (CallUpdate id data) db in
  match book_update env id data (tables db) with
  | Ok (row, t') =>
      (Ok (with_relations t' row), {| tables := t'; calls := calls db' |})
  | Throw e => (Throw e, db')
  end.

Definition prisma_delete (id : string) : M unit := λ db,
  let db' := logged (CallDelete id) db in
  match book_delete id (tables db) with
  | Ok t' => (Ok tt, {| tables := t'; calls := calls db' |})
  | Throw e => (Throw e, db')
  end.

End Prisma.

Export Prisma.

(* ===================================================================== *)
(** ** [bookService.js] *)
(* ===================================================================== *)

Module BookService.

(** The object literal [{ k1: v1, k2: v2, ... }] with [undefined] values
    dropped (the query interface and JSON both ignore them). *)
Definition object_of (props : list (string * option Value)) : Obj :=
  foldr (λ kv o, put kv.1 kv.2 o) ∅ props.

(** *** Response shaping *)

Record AuthorRef : Type := mkAuthorRef {
  ar_id : option Value;
  ar_name : option Value;
  ar_order : Z
}.

Record CategoryRef : Type := mkCategoryRef {
  cr_id : option Value;
  cr_name : option Value;
  cr_slug : option Value;
  cr_isPrimary : bool
}.

Record ShapedBook : Type := mkShapedBook {
  sb_fields : Obj;
  sb_authors : option (list AuthorRef);
  sb_categories : option (list CategoryRef)
}.

(** The scalar properties it copies are the columns of Book, in the order
    of [bookColumns]. *)
Definition formatBookResponse (book : BookRecord) : ShapedBook :=
  {| sb_fields := object_of (map (λ k, (k, br_row book !! k)) bookColumns);
     sb_authors :=
       map (λ ba : BookAuthor * Obj,
              mkAuthorRef (ba.2 !! "id") (ba.2 !! "name") (authorOrder ba.1))
         <$> br_authors book;
     sb_categories :=
       map (λ bc : BookCategory * Obj,
              mkCategoryRef (bc.2 !! "id") (bc.2 !! "name") (bc.2 !! "slug")
                (isPrimary bc.1))
         <$> br_categories book |}.

(** *** createBook *)

(** [v ? { col: v } : undefined], as an element of the array that
    [.filter(Boolean)] cleans. *)
Definition cond_if_truthy (col : string) (v : option Value) : list (string * Value) :=
  match v with
  | Some x => if truthy v then [(col, x)] else []
  | None => []
  end.

(** [x > 0]: the operand is converted to a number; an array and an object
    are first converted to a string. (An object or an array element that
    replaces [toString] or [valueOf] by a property of its own is not
    covered.) *)
Definition gt_zero (v : Value) : bool :=
  match v with
  | VNull => false
  | VBool b => b
  | VNum n => (0 <? n)%Z
  | VDec u _ => (0 <? u)%Z
  | VStr s => string_gt_zero s
  | VDate (VNum ms) => (0 <? ms)%Z
  | VDate _ => false
  | VArr _ => string_gt_zero (js_String v)
  | VObj _ => false
  end.

Fixpoint assoc (k : string) (fields : list (string * Value)) : option Value :=
  match fields with
  | [] => None
  | (k', v) :: rest => if String.eqb k k' then Some v else assoc k rest
  end.

(** [ids = []] as destructuring default, then the two uses
    [ids.length > 0] and [ids.map(...)]: the identifiers to link, or the
    TypeError that evaluating them raises on a value that is no array. *)
Definition js_ids (name : string) (v : option Value) : Result (list Value) :=
  match v with
  | None => Ok []
  | Some (VArr items) => Ok items
  | Some VNull =>
      Throw (TypeError "Cannot read properties of null (reading 'length')")
  | Some (VStr s) =>
      if String.eqb s "" then Ok []
      else Throw (TypeError (name +:+ ".map is not a function"))
  | Some (VObj fields) =>
      match assoc "length" fields with
      | Some len =>
          if gt_zero len then Throw (TypeError (name +:+ ".map is not a function"))
          else Ok []
      | None => Ok []
      end
  | Some _ => Ok []
  end.

Definition lift {A : Type} (r : Result A) : M A := λ db, (r, db).

(** [ids.length > 0 ? { create: ids.map((id, index) => row id index) } : undefined] *)
Definition nested_create {A : Type} (row : Value → nat → Value * A) (ids : list Value)
    : option (list (Value * A)) :=
  if (0 <? length ids)%nat then Some (mapi row ids) else None.

(** The [data] object of the create call, relations apart. *)
Definition create_data (bookData : Obj) : Obj :=
  let publicationDate := bookData !! "publicationDate" in
  let language := prop_default bookData "language" (VStr "en") in
  let stockQuantity := prop_default bookData "stockQuantity" (VNum 0) in
  let additionalInfo := prop_default bookData "additionalInfo" (VObj []) in
  let isFeatured := prop_default bookData "isFeatured" (VBool false) in
  let isActive := prop_default bookData "isActive" (VBool true) in
  object_of
    [("isbn", bookData !! "isbn");
     ("isbn13", bookData !! "isbn13");
     ("title", bookData !! "title");
     ("subtitle", bookData !! "subtitle");
     ("description", bookData !! "description");
     ("publisher", bookData !! "publisher");
     ("publicationDate",
        Some (match publicationDate with
              | Some d => if truthy publicationDate then VDate d else VNull
              | None => VNull
              end));
     ("edition", bookData !! "edition");
     ("language", Some language);
     ("pageCount", bookData !! "pageCount");
     ("format", bookData !! "format");
     ("price", bookData !! "price");
     ("discountPrice", bookData !! "discountPrice");
     ("stockQuantity", Some stockQuantity);
     ("coverImageUrl", bookData !! "coverImageUrl");
     ("previewUrl", bookData !! "previewUrl");
     ("additionalInfo", Some additionalInfo);
     ("isFeatured", Some isFeatured);
     ("isActive", Some isActive)].

(** [authors: ids.length > 0 ? { create: ids.map(...) } : undefined] *)
Definition create_authors (authorIds : list Value) : option (list (Value * Z)) :=
  nested_create (λ authorId index, (authorId, Z.of_nat index + 1)%Z) authorIds.

Definition create_categories (categoryIds : list Value) : option (list (Value * bool)) :=
  nested_create (λ categoryId index, (categoryId, (index =? 0)%nat)) categoryIds.

Definition createBook (env : Env) (bookData : Obj) : M ShapedBook :=
  let isbn := bookData !! "isbn" in
  let isbn13 := bookData !! "isbn13" in
  (* Check for duplicate ISBN *)
  _ ← (if truthy isbn || truthy isbn13 then
         existing ← prisma_findFirst
                      (cond_if_truthy "isbn" isbn ++ cond_if_truthy "isbn13" isbn13);
         match existing with
         | Some _ => throw (ConflictError "A book with this ISBN already exists")
         | None => mret tt
         end
       else mret tt);
  (* Create book with relations *)
  authorIds ← lift (js_ids "authorIds" (bookData !! "authorIds"));
  categoryIds ← lift (js_ids "categoryIds" (bookData !! "categoryIds"));
  book ← prisma_createInclude env (create_data bookData)
           (create_authors authorIds) (create_categories categoryIds);
  mret (formatBookResponse book).

(** *** getBooks *)

Record Options : Type := mkOptions {
  page : option Z;
  limit : option Z;
  search : option string;
  format : option string;
  isActive : option bool;
  isFeatured : option bool
}.

Record Pagination : Type := mkPagination {
  pg_page : Z;
  pg_limit : Z;
  pg_total : Z;
  totalPages : Z;
  hasNext : bool;
  hasPrev : bool
}.

Record BookList : Type := mkBookList {
  books : list ShapedBook;
  pagination : Pagination
}.

(** [Math.ceil(a / b)] on integers, [b] not zero: [Z.div] rounds down, so
    the ceiling is the negated floor of the negated quotient. *)
Definition Math_ceil_div (a b : Z) : Z := (- ((- a) / b))%Z.

(** [if (s) where.k = ...] for a string [s]: set for a non-empty string. *)
Definition if_nonempty (s : option string) : option string :=
  match s with
  | Some x => if String.eqb x "" then None else Some x
  | None => None
  end.

(** The [where] clause; [typeof b === "boolean"] holds of [Some b] only. *)
Definition build_where (o : Options) : Where :=
  {| w_title := if_nonempty (search o);
     w_format := if_nonempty (format o);
     w_isActive := isActive o;
     w_isFeatured := isFeatured o |}.

Definition getBooks (options : Options) : M BookList :=
  let page := default 1%Z (page options) in
  let limit := default 20%Z (limit options) in
  let skip := ((page - 1) * limit)%Z in
  let where_ := build_where options in
  '(found, total) ← Promise_all (prisma_findManyInclude where_ skip limit)
                                (prisma_count where_);
  mret {| books := map formatBookResponse found;
          pagination :=
            {| pg_page := page;
               pg_limit := limit;
               pg_total := total;
               totalPages := Math_ceil_div total limit;
               hasNext := (page * limit <? total)%Z;
               hasPrev := (1 <? page)%Z |} |}.

(** *** getBookById, updateBook, deleteBook *)

Definition getBookById (id : string) : M ShapedBook :=
  book ← prisma_findUniqueInclude id;
  match book with
  | None => throw (mkNotFound "Book" id)
  | Some b => mret (formatBookResponse b)
  end.

(** [const { authorIds, categoryIds, publicationDate, ...data } = updateData]
    followed by the date conversion. *)
Definition update_data (updateData : Obj) : Obj :=
  let publicationDate := updateData !! "publicationDate" in
  let data :=
    delete "authorIds" (delete "categoryIds" (delete "publicationDate" updateData)) in
  match publicationDate with
  | Some d => if truthy publicationDate then <["publicationDate" := VDate d]> data else data
  | None => data
  end.

Definition updateBook (env : Env) (id : string) (updateData : Obj) : M ShapedBook :=
  existing ← prisma_findUnique id;
  match existing with
  | None => throw (mkNotFound "Book" id)
  | Some _ =>
      book ← prisma_updateInclude env id (update_data updateData);
      mret (formatBookResponse book)
  end.

Definition deleteBook (id : string) : M unit :=
  existing ← prisma_findUnique id;
  match existing with
  | None => throw (mkNotFound "Book" id)
  | Some _ => prisma_delete id
  end.

End BookService.

Export BookService.

(* ===================================================================== *)
(** ** Requests and middleware *)
(* ===================================================================== *)

Module Express.

(** An error recorded by a validation chain on the request
    ([validationResult(req).array()] lists them in recording order). *)
Record RawError : Type := mkRawError {
  path : option string;
  param : option string;
  msg : string;
  value : option Value
}.

(** The parts of a request the code reads. A route or query parameter is a
    string; a query parameter that is repeated or written with brackets,
    which the query parser hands over as an array or an object, is not
    represented. *)
Record Request : Type := mkRequest {
  authorization : option string;
  params : gmap string string;
  query : gmap string string;
  body : Obj;
  user : option Obj;
  contexts : list RawError
}.

(** A middleware either calls [next()], handing the request on, or
    [next(err)]. It may use the store. *)
Definition Middleware : Type := Request → M Request.

(** What became of a request: the names of the middleware and handler that
    ran, in order, the response or the error handed to the error handler,
    and the client afterwards. *)
Record Exchange (R : Type) : Type := mkExchange {
  ran : list string;
  outcome : Result R;
  after : Db
}.

Arguments mkExchange {R} ran outcome after.
Arguments ran {R} e.
Arguments outcome {R} e.
Arguments after {R} e.

(** Middleware mounted in order, then the route handler: the first
    [next(err)] skips everything that follows. *)
Fixpoint dispatch {R : Type} (stack : list (string * Middleware))
    (handler : string * (Request → M R)) (req : Request) (db : Db) : Exchange R :=
  match stack with
  | [] =>
      let (r, db') := handler.2 req db in
      mkExchange [handler.1] r db'
  | (name, m) :: rest =>
      match m req db with
      | (Ok req', db') =>
          let e := dispatch rest handler req' db' in
          mkExchange (name :: ran e) (outcome e) (after e)
      | (Throw err, db') => mkExchange [name] (Throw err) db'
      end
  end.

End Express.

Export Express.

(* ===================================================================== *)
(** ** [validate.js] and the book rule sets *)
(* ===================================================================== *)

Module Validation.

(** [validate.js] builds its chains with express-validator, which is not
    part of the repository. The chains are modelled as that library (version
    7) runs them: every validator of a chain is run, none stops the next; a
    validator of the string library is applied to the string form of the
    value, and element by element to an array; [isString], [isArray],
    [isObject] and custom validators are applied to the value itself. *)

Inductive Location : Type := InBody | InParam | InQuery.

(** The regular expressions the rules use. *)
Inductive Regex : Type :=
  | ReIsbn      (* /^(?:\d{10}|\d{13}|[\d-]{13,17})$/ *)
  | ReIsbn13    (* /^(?:\d{13}|[\d-]{17})$/ *)
  | ReUuidV4.   (* /^[0-9a-f]{8}-[0-9a-f]{4}-4[0-9a-f]{3}-[89ab][0-9a-f]{3}-[0-9a-f]{12}$/i *)

(** Predicates of the validator library that are taken as given. *)
Inductive Standard : Type :=
  | isUUID (version : Z)
  | isURL
  | isISO8601
  | isBoolean
  | isEmail
  | isInt (min max : option Z)
  | isFloat (min : Value).

Inductive Validator : Type :=
  | notEmpty
  | isString
  | isLength (max : nat)
  | isIn (values : list string)
  | matches (re : Regex)
  | isObject
  | isArray
  | std (p : Standard)
  | uuidArrayCustom (field : string).

(** One link of a chain: the validator and the [.withMessage] that follows
    it, if any. *)
Record Check : Type := mkCheck {
  validator : Validator;
  withMessage : option string
}.

(** [body(field)], [param(field)] or [query(field)], [.optional()] or not,
    and the validators chained on it in order. *)
Record Chain : Type := mkChain {
  location : Location;
  field : string;
  optional : bool;
  checks : list Check
}.

(** *** String and character tests *)

Definition is_digit (c : ascii) : bool :=
  (Ascii.leb "0" c && Ascii.leb c "9")%char.

Definition is_digit_or_hyphen (c : ascii) : bool :=
  is_digit c || Ascii.eqb c "-".

Definition is_hex (c : ascii) : bool :=
  is_digit c
  || (Ascii.leb "a" c && Ascii.leb c "f")%char
  || (Ascii.leb "A" c && Ascii.leb c "F")%char.

Definition is_89ab (c : ascii) : bool :=
  existsb (Ascii.eqb c) ["8"; "9"; "a"; "b"; "A"; "B"]%char.

Definition all_chars (p : ascii → bool) (s : string) : bool :=
  forallb p (list_ascii_of_string s).

(** A string matched position by position against character classes. *)
Fixpoint match_classes (classes : list (ascii → bool)) (s : string) : bool :=
  match classes, s with
  | [], EmptyString => true
  | p :: ps, String c rest => p c && match_classes ps rest
  | _, _ => false
  end.

Definition uuid_v4_classes : list (ascii → bool) :=
  replicate 8 is_hex ++ [Ascii.eqb "-"%char] ++
  replicate 4 is_hex ++ [Ascii.eqb "-"%char] ++
  [Ascii.eqb "4"%char] ++ replicate 3 is_hex ++ [Ascii.eqb "-"%char] ++
  [is_89ab] ++ replicate 3 is_hex ++ [Ascii.eqb "-"%char] ++
  replicate 12 is_hex.

Definition regex_test (re : Regex) (s : string) : bool :=
  let n := String.length s in
  match re with
  | ReIsbn =>
      (all_chars is_digit s && ((n =? 10) || (n =? 13))%nat)
      || (all_chars is_digit_or_hyphen s && (13 <=? n)%nat && (n <=? 17)%nat)
  | ReIsbn13 =>
      (all_chars is_digit s && (n =? 13)%nat)
      || (all_chars is_digit_or_hyphen s && (n =? 17)%nat)
  | ReUuidV4 => match_classes uuid_v4_classes s
  end.

(** The length that [isLength] compares: the characters of the text, a
    variation selector (U+FE0E, U+FE0F) not counted. *)
Definition continuation (c : ascii) : bool :=
  (128 <=? nat_of_ascii c)%nat && (nat_of_ascii c <? 192)%nat.

Fixpoint code_points (s : string) : nat :=
  match s with
  | EmptyString => 0
  | String c rest => (if continuation c then 0 else 1) + code_points rest
  end.

Fixpoint selectors (s : string) : nat :=
  match s with
  | String a ((String b (String c _)) as rest) =>
      (if (nat_of_ascii a =? 239)%nat && (nat_of_ascii b =? 184)%nat
          && ((nat_of_ascii c =? 142)%nat || (nat_of_ascii c =? 143)%nat)
       then 1 else 0) + selectors rest
  | String _ rest => selectors rest
  | EmptyString => 0
  end.

Definition text_length (s : string) : nat := code_points s - selectors s.

(** The first character of a text. *)
Fixpoint continuation_prefix (s : string) : string :=
  match s with
  | String c rest => if continuation c then String c (continuation_prefix rest) else ""
  | EmptyString => ""
  end.

Definition first_character (s : string) : option string :=
  match s with
  | String c rest => Some (String c (continuation_prefix rest))
  | EmptyString => None
  end.

(** The string a library validator sees for a value: nothing for [null]
    and [undefined], [value.toString()] for an object or an array, and
    [String(value)] otherwise. *)
Definition toString (v : option Value) : string :=
  match v with
  | None | Some VNull => ""
  | Some x => js_String x
  end.

(** *** Running the rules *)

(** The request with more validation errors recorded on it. *)
Definition record_errors (req : Request) (errors : list RawError) : Request :=
  {| authorization := authorization req;
     params := params req;
     query := query req;
     body := body req;
     user := user req;
     contexts := contexts req ++ errors |}.

Section Rules.

(** The validator library's own predicates, on the string form. *)
Variable standard : Standard → string → bool.

(** The custom validator of [rules.uuidArray] iterates its value: the
    elements of an array, the characters of a string. This is the first
    one that is no UUID, as the template literal renders it. *)
Definition first_invalid_uuid (v : option Value) : option string :=
  match v with
  | Some (VArr items) =>
      List.find (λ s, negb (regex_test ReUuidV4 s)) (map js_String items)
  | Some (VStr s) => first_character s
  | _ => None
  end.

(** The validators of the library that test the string form of a value
    ([notEmpty] is the negated [isEmpty]); [isString], [isArray], [isObject]
    and a custom validator test the value itself. *)
Definition is_standard (vd : Validator) : bool :=
  match vd with
  | notEmpty | isLength _ | isIn _ | matches _ | std _ => true
  | isString | isObject | isArray | uuidArrayCustom _ => false
  end.

(** One test of a validator. *)
Definition holds (vd : Validator) (v : option Value) : bool :=
  match vd with
  | notEmpty => negb (String.eqb (toString v) "")
  | isString => match v with Some (VStr _) => true | _ => false end
  | isLength max => (text_length (toString v) <=? max)%nat
  | isIn values => bool_decide (toString v ∈ values)
  | matches re => regex_test re (toString v)
  | isObject => match v with Some (VObj _) | Some (VDate _) => true | _ => false end
  | isArray => match v with Some (VArr _) => true | _ => false end
  | std p => standard p (toString v)
  | uuidArrayCustom _ =>
      negb (truthy v) ||
      match v with
      | Some (VArr _) | Some (VStr _) =>
          match first_invalid_uuid v with
          | Some _ => false
          | None => true
          end
      | _ => false
      end
  end.

(** What a validator is run on: a string validator tests each element of
    an array on its own (none for an empty array), every other validator
    and every other value is tested once. *)
Definition judged (vd : Validator) (v : option Value) : list (option Value) :=
  match v with
  | Some (VArr items) => if is_standard vd then Some <$> items else [v]
  | _ => [v]
  end.

(** The message of a failed check: the [.withMessage] text, else what the
    custom validator threw, else the library's default. *)
Definition message_of (c : Check) (v : option Value) : string :=
  match withMessage c with
  | Some m => m
  | None =>
      match validator c with
      | uuidArrayCustom f =>
          match first_invalid_uuid v with
          | Some id => "Invalid UUID in " +:+ f +:+ ": " +:+ id
          | None => "value is not iterable"
          end
      | _ => "Invalid value"
      end
  end.

Definition field_value (req : Request) (c : Chain) : option Value :=
  match location c with
  | InBody => body req !! field c
  | InParam => VStr <$> params req !! field c
  | InQuery => VStr <$> query req !! field c
  end.

(** A chain is skipped when it is optional and its field is [undefined]. *)
Definition applies (req : Request) (c : Chain) : bool :=
  if optional c then bool_decide (is_Some (field_value req c)) else true.

(** The error a check records for a tested value [x] of its field. *)
Definition raw_error (req : Request) (c : Chain) (k : Check) (x : option Value)
    : RawError :=
  {| path := Some (field c);
     param := None;
     msg := message_of k (field_value req c);
     value := x |}.

(** The errors of one check: one for each tested value it rejects. *)
Definition check_errors (req : Request) (c : Chain) (k : Check) : list RawError :=
  omap (λ x, if holds (validator k) x then None else Some (raw_error req c k x))
    (judged (validator k) (field_value req c)).

(** The run of a chain: when it applies, its checks one after the other,
    none stopping the next. *)
Definition chain_errors (req : Request) (c : Chain) : list RawError :=
  if applies req c then flat_map (check_errors req c) (checks c) else [].

(** A chain mounted as middleware: it records and always calls [next()]. *)
Definition run_chain (c : Chain) : Middleware := λ req,
  mret (record_errors req (chain_errors req c)).

End Rules.

(** *** validate *)

(** [err.path || err.param] *)
Definition error_field (err : RawError) : option string :=
  match path err with
  | Some p => if String.eqb p "" then param err else Some p
  | None => param err
  end.

Definition format_error (err : RawError) : FieldError :=
  {| fe_field := error_field err;
     fe_message := msg err;
     fe_value := value err |}.

Definition validate : Middleware := λ req,
  match contexts req with
  | [] => mret req
  | errors => throw (ValidationError "Validation failed" (map format_error errors))
  end.

(** *** The [rules] factory *)

Module rules.

Definition uuid (field : string) (location : string) : Chain :=
  mkChain (if String.eqb location "param" then InParam else InBody) field false
    [mkCheck (std (isUUID 4)) (Some (field +:+ " must be a valid UUID"))].

Definition isbn (field : string) : Chain :=
  mkChain InBody field true
    [mkCheck (matches ReIsbn) (Some "Invalid ISBN format")].

Definition price (field : string) : Chain :=
  mkChain InBody field false
    [mkCheck notEmpty (Some "Price is required");
     mkCheck (std (isFloat (VDec 1 2))) (Some "Price must be a positive number")].

Definition optionalPrice (field : string) : Chain :=
  mkChain InBody field true
    [mkCheck (std (isFloat (VNum 0))) (Some (field +:+ " must be a positive number"))].

Definition requiredString (field : string) (maxLength : nat) : Chain :=
  mkChain InBody field false
    [mkCheck notEmpty (Some (field +:+ " is required"));
     mkCheck isString (Some (field +:+ " must be a string"));
     mkCheck (isLength maxLength)
       (Some (field +:+ " must not exceed " +:+ pretty maxLength +:+ " characters"))].

Definition optionalString (field : string) (maxLength : nat) : Chain :=
  mkChain InBody field true
    [mkCheck isString (Some (field +:+ " must be a string"));
     mkCheck (isLength maxLength)
       (Some (field +:+ " must not exceed " +:+ pretty maxLength +:+ " characters"))].

Definition url (field : string) (required : bool) : Chain :=
  if negb required
  then mkChain InBody field true
         [mkCheck (std isURL) (Some (field +:+ " must be a valid URL"))]
  else mkChain InBody field false
         [mkCheck notEmpty (Some (field +:+ " is required"));
          mkCheck (std isURL) (Some (field +:+ " must be a valid URL"))].

Definition join (sep : string) (xs : list string) : string :=
  String.concat sep xs.

Definition enum (field : string) (values : list string) (required : bool) : Chain :=
  if negb required
  then mkChain InBody field true
         [mkCheck (isIn values)
            (Some (field +:+ " must be one of: " +:+ join ", " values))]
  else mkChain InBody field false
         [mkCheck notEmpty (Some (field +:+ " is required"));
          mkCheck (isIn values)
            (Some (field +:+ " must be one of: " +:+ join ", " values))].

Definition integer (field : string) (min max : option Z) (required : bool) : Chain :=
  let message :=
    field +:+ " must be an integer" +:+
    (match min with Some m => " >= " +:+ pretty m | None => "" end) +:+
    (match max with Some m => " <= " +:+ pretty m | None => "" end) in
  mkChain InBody field (negb required)
    ((if required then [mkCheck notEmpty (Some (field +:+ " is required"))] else [])
     ++ [mkCheck (std (isInt min max)) (Some message)]).

Definition boolean (field : string) (required : bool) : Chain :=
  mkChain InBody field (negb required)
    [mkCheck (std isBoolean) (Some (field +:+ " must be a boolean"))].

Definition uuidArray (field : string) (required : bool) : Chain :=
  mkChain InBody field (negb required)
    [mkCheck isArray (Some (field +:+ " must be an array"));
     mkCheck (uuidArrayCustom field) None].

Definition date (field : string) (required : bool) : Chain :=
  mkChain InBody field (negb required)
    ((if required then [mkCheck notEmpty (Some (field +:+ " is required"))] else [])
     ++ [mkCheck (std isISO8601) (Some (field +:+ " must be a valid date"))]).

(** [.normalizeEmail()] is a sanitizer: it records nothing. *)
Definition email (field : string) (required : bool) : Chain :=
  mkChain InBody field (negb required)
    ((if required then [mkCheck notEmpty (Some (field +:+ " is required"))] else [])
     ++ [mkCheck (std isEmail) (Some (field +:+ " must be a valid email"))]).

(** [.toInt()] is a sanitizer: it records nothing. The number it leaves in
    [req.query] is not followed: the list controller reads the parameter
    with [parseInt], which reads the same integer from either. *)
Definition pagination : list Chain :=
  [mkChain InQuery "page" true
     [mkCheck (std (isInt (Some 1%Z) None)) (Some "page must be a positive integer")];
   mkChain InQuery "limit" true
     [mkCheck (std (isInt (Some 1%Z) (Some 100%Z)))
        (Some "limit must be between 1 and 100")]].

End rules.

(** *** The book rule sets (each is followed by [validate]) *)

Definition BOOK_FORMATS : list string :=
  ["HARDCOVER"; "PAPERBACK"; "EBOOK"; "AUDIOBOOK"].

Definition isbn13_chain : Chain :=
  mkChain InBody "isbn13" true
    [mkCheck (matches ReIsbn13) (Some "Invalid ISBN-13 format")].

Definition createBookValidation : list Chain :=
  [rules.requiredString "title" 500;
   mkChain InBody "description" false
     [mkCheck notEmpty (Some "Description is required");
      mkCheck isString (Some "Description must be a string")];
   rules.enum "format" BOOK_FORMATS true;
   rules.price "price";
   rules.url "coverImageUrl" true;
   rules.isbn "isbn";
   isbn13_chain;
   rules.optionalString "subtitle" 500;
   rules.optionalString "publisher" 255;
   rules.optionalString "edition" 100;
   rules.optionalString "language" 10;
   rules.date "publicationDate" false;
   rules.integer "pageCount" (Some 1%Z) None false;
   rules.optionalPrice "discountPrice";
   rules.integer "stockQuantity" (Some 0%Z) None false;
   rules.url "previewUrl" false;
   rules.boolean "isFeatured" false;
   rules.boolean "isActive" false;
   mkChain InBody "additionalInfo" true
     [mkCheck isObject (Some "additionalInfo must be an object")];
   rules.uuidArray "authorIds" false;
   rules.uuidArray "categoryIds" false].

Definition updateBookValidation : list Chain :=
  [rules.uuid "id" "param";
   rules.optionalString "title" 500;
   mkChain InBody "description" true
     [mkCheck isString (Some "Description must be a string")];
   rules.enum "format" BOOK_FORMATS false;
   mkChain InBody "price" true
     [mkCheck (std (isFloat (VDec 1 2))) (Some "Price must be a positive number")];
   rules.url "coverImageUrl" false;
   rules.isbn "isbn";
   isbn13_chain;
   rules.optionalString "subtitle" 500;
   rules.optionalString "publisher" 255;
   rules.optionalString "edition" 100;
   rules.optionalString "language" 10;
   rules.date "publicationDate" false;
   rules.integer "pageCount" (Some 1%Z) None false;
   rules.optionalPrice "discountPrice";
   rules.integer "stockQuantity" (Some 0%Z) None false;
   rules.url "previewUrl" false;
   rules.boolean "isFeatured" false;
   rules.boolean "isActive" false].

Definition getBookValidation : list Chain :=
  [rules.uuid "id" "param"].

Definition listBooksValidation : list Chain :=
  rules.pagination ++
  [mkChain InQuery "search" true
     [mkCheck isString (Some "search must be a string");
      mkCheck (isLength 100) (Some "search must not exceed 100 characters")];
   mkChain InQuery "format" true
     [mkCheck (isIn BOOK_FORMATS)
        (Some ("format must be one of: " +:+ rules.join ", " BOOK_FORMATS))];
   mkChain InQuery "isActive" true
     [mkCheck (isIn ["true"; "false"]) (Some "isActive must be true or false")];
   mkChain InQuery "isFeatured" true
     [mkCheck (isIn ["true"; "false"]) (Some "isFeatured must be true or false")]].

(** A rule set as it is mounted: the chains in order, then [validate]. *)
Definition mounted (standard : Standard → string → bool) (ruleset : list Chain)
    : list (string * Middleware) :=
  map (λ c, (field c, run_chain standard c)) ruleset ++ [("validate", validate)].

End Validation.

Export Validation.

(* ===================================================================== *)
(** ** Authentication and authorization middleware *)
(* ===================================================================== *)

Module Auth.

(** What [jwt.verify(token, secret, { algorithms })] does: it returns the
    decoded claims or throws an error with one of these names. *)
Inductive Verification : Type :=
  | Decoded (claims : Obj)
  | TokenExpiredError
  | JsonWebTokenError
  | OtherVerifyError.

(** [s.split(sep)] for a one-character separator. *)
Fixpoint split (sep : ascii) (s : string) : list string :=
  match s with
  | EmptyString => [EmptyString]
  | String c rest =>
      if Ascii.eqb c sep then EmptyString :: split sep rest
      else match split sep rest with
           | w :: ws => String c w :: ws
           | [] => [String c EmptyString]
           end
  end.

(** [a || b] *)
Definition or_else (a b : option Value) : option Value :=
  if truthy a then a else b.

(** [{ id: decoded.sub || decoded.id, email: decoded.email,
       role: decoded.role, ...decoded }] *)
Definition user_of (decoded : Obj) : Obj :=
  decoded ∪
  object_of [("id", or_else (decoded !! "sub") (decoded !! "id"));
             ("email", decoded !! "email");
             ("role", decoded !! "role")].

Definition with_user (req : Request) (u : Obj) : Request :=
  {| authorization := authorization req;
     params := params req;
     query := query req;
     body := body req;
     user := Some u;
     contexts := contexts req |}.

Section Verifier.

(** [jwt.verify] with the configured secret and algorithms. *)
Variable jwt_verify : string → Verification.

Definition authenticateToken : Middleware := λ req,
  match authorization req with
  | None => throw (UnauthorizedError "No authorization token provided")
  | Some authHeader =>
      if String.eqb authHeader "" then
        throw (UnauthorizedError "No authorization token provided")
      else
        match split " " authHeader with
        | [scheme; token] =>
            if negb (String.eqb scheme "Bearer") then
              throw (UnauthorizedError
                       "Invalid authorization header format. Use: Bearer <token>")
            else
              match jwt_verify token with
              | Decoded decoded => mret (with_user req (user_of decoded))
              | TokenExpiredError => throw (UnauthorizedError "Token has expired")
              | JsonWebTokenError => throw (UnauthorizedError "Invalid token")
              | OtherVerifyError => throw (UnauthorizedError "Authentication failed")
              end
        | _ =>
            throw (UnauthorizedError
                     "Invalid authorization header format. Use: Bearer <token>")
        end
  end.

End Verifier.

(** The argument of [requireRole]: one role or an array of roles. *)
Inductive AllowedRoles : Type :=
  | OneRole (role : string)
  | Roles (roles : list string).

(** [roles.includes(userRole)] *)
Definition includes (roles : list string) (v : option Value) : bool :=
  match v with
  | Some (VStr r) => bool_decide (r ∈ roles)
  | _ => false
  end.

Definition requireRole (allowedRoles : AllowedRoles) : Middleware :=
  let roles := match allowedRoles with OneRole r => [r] | Roles rs => rs end in
  λ req,
    match user req with
    | None => throw (UnauthorizedError "Authentication required")
    | Some u =>
        let userRole := u !! "role" in
        if negb (truthy userRole) || negb (includes roles userRole) then
          throw (ForbiddenError
                   ("Access denied. Required role: " +:+ String.concat " or " roles))
        else mret req
    end.

Definition requireAdmin : Middleware := requireRole (OneRole "admin").

End Auth.

Export Auth.

(* ===================================================================== *)
(** ** Book controller and book router *)
(* ===================================================================== *)

Module Http.

Inductive Data : Type :=
  | DataBook (book : ShapedBook)
  | DataList (list_ : BookList)
  | DataNull.

Record Response : Type := mkResponse {
  status : Z;
  data : Data;
  message : string
}.

(** Modelled from the spec: [ResponseHandler.success(res, data, message,
    status)], whose file is not in the repository sources; the success
    envelope is [{ success: true, data, message }] with status 200 unless
    given. *)
Definition success (d : Data) (m : string) (code : Z) : Response :=
  {| status := code; data := d; message := m |}.

(** *** parseInt(s, 10) *)

Definition digit_value (c : ascii) : Z := Z.of_nat (nat_of_ascii c - 48).

(** The value of the longest prefix of digits, [None] when there is none. *)
Fixpoint digits (acc : option Z) (s : string) : option Z :=
  match s with
  | String c rest =>
      if is_digit c
      then digits (Some (default 0 acc * 10 + digit_value c)%Z) rest
      else acc
  | EmptyString => acc
  end.

(** [parseInt(v, 10)]; [None] is NaN. An absent parameter is the string
    "undefined", which has no digits. The integer is the one the digits
    spell; JavaScript keeps it exactly up to 2^53 and rounds it to a double
    beyond. *)
Definition parseInt (v : option string) : option Z :=
  match v with
  | None => None
  | Some s =>
      match skip_spaces s with
      | String c rest =>
          if Ascii.eqb c "-" then Z.opp <$> digits None rest
          else if Ascii.eqb c "+" then digits None rest
          else digits None (String c rest)
      | EmptyString => None
      end
  end.

(** [n || d] for a number: NaN and 0 are falsy. *)
Definition number_or (n : option Z) (d : Z) : Z :=
  match n with
  | Some k => if (k =? 0)%Z then d else k
  | None => d
  end.

(** [x === "true" ? true : x === "false" ? false : undefined] *)
Definition flag (x : option string) : option bool :=
  match x with
  | Some s =>
      if String.eqb s "true" then Some true
      else if String.eqb s "false" then Some false
      else None
  | None => None
  end.

(** *** BookController *)

Module BookController.

Definition create (env : Env) (req : Request) : M Response :=
  book ← createBook env (body req);
  mret (success (DataBook book) "Book created successfully" 201).

Definition list_options (req : Request) : Options :=
  {| page := Some (number_or (parseInt (query req !! "page")) 1);
     limit := Some (number_or (parseInt (query req !! "limit")) 20);
     search := query req !! "search";
     format := query req !! "format";
     isActive := flag (query req !! "isActive");
     isFeatured := flag (query req !! "isFeatured") |}.

Definition list (req : Request) : M Response :=
  result ← getBooks (list_options req);
  mret (success (DataList result) "Books retrieved successfully" 200).

(** [req.params.id]; every book route with an id has the parameter. *)
Definition id_param (req : Request) : string :=
  default "" (params req !! "id").

Definition getById (req : Request) : M Response :=
  book ← getBookById (id_param req);
  mret (success (DataBook book) "Book retrieved successfully" 200).

Definition update (env : Env) (req : Request) : M Response :=
  book ← updateBook env (id_param req) (body req);
  mret (success (DataBook book) "Book updated successfully" 200).

Definition delete (req : Request) : M Response :=
  _ ← deleteBook (id_param req);
  mret (success DataNull "Book deleted successfully" 200).

End BookController.

(** *** bookRoutes *)

Inductive Route : Type :=
  | GET_root      (* GET /      *)
  | POST_root     (* POST /     *)
  | GET_id        (* GET /:id   *)
  | PUT_id        (* PUT /:id   *)
  | DELETE_id.    (* DELETE /:id *)

Section Router.

Variable jwt_verify : string → Verification.
Variable env : Env.

(** [router.use(authenticateToken()); router.use(requireAdmin);] *)
Definition router_use : list (string * Middleware) :=
  [("authenticateToken", authenticateToken jwt_verify);
   ("requireAdmin", requireAdmin)].

(** The handler each route mounts, wrapped in [asyncHandler], which hands a
    rejected promise to [next]. The router imports its controller from
    [admin-service/src/controllers/bookController.js], which is not among
    the sources: the controller of the catalog service, with the same five
    methods, stands in for it. *)
Definition handler (r : Route) : string * (Request → M Response) :=
  match r with
  | GET_root => ("bookController.list", BookController.list)
  | POST_root => ("bookController.create", BookController.create env)
  | GET_id => ("bookController.getById", BookController.getById)
  | PUT_id => ("bookController.update", BookController.update env)
  | DELETE_id => ("bookController.delete", BookController.delete)
  end.

Definition bookRoutes (r : Route) (req : Request) (db : Db) : Exchange Response :=
  dispatch router_use (handler r) req db.

End Router.

End Http.

Export Http.

(* ===================================================================== *)
(** ** Statement vocabulary and sample data *)
(* ===================================================================== *)

Module Spec.

(** The OR conditions of the duplicate lookup for a payload. *)
Definition isbn_conditions (bookData : Obj) : list (string * Value) :=
  cond_if_truthy "isbn" (bookData !! "isbn") ++
  cond_if_truthy "isbn13" (bookData !! "isbn13").


(** What createBook does once the duplicate check has passed. *)
Definition create_from (env : Env) (bookData : Obj) : M ShapedBook :=
  authorIds ← lift (js_ids "authorIds" (bookData !! "authorIds"));
  categoryIds ← lift (js_ids "categoryIds" (bookData !! "categoryIds"));
  book ← prisma_createInclude env (create_data bookData)
           (create_authors authorIds) (create_categories categoryIds);
  mret (formatBookResponse book).

(** The constraints a rule set declares, in declaration order: every check
    of every chain, paired with its chain. *)
Definition constraints (ruleset : list Chain) : list (Chain * Check) :=
  flat_map (λ c, map (λ k, (c, k)) (checks c)) ruleset.

(** The values of its field that a constraint rejects on a request: none
    when its chain is skipped. *)
Definition rejected (standard : Standard → string → bool) (req : Request)
    (ck : Chain * Check) : list (option Value) :=
  if applies req ck.1
  then List.filter (λ x, negb (holds standard (validator ck.2) x))
         (judged (validator ck.2) (field_value req ck.1))
  else [].

(** A constraint fails on a request when it rejects a value. *)
Definition fails (standard : Standard → string → bool) (req : Request)
    (ck : Chain * Check) : bool :=
  match rejected standard req ck with
  | [] => false
  | _ :: _ => true
  end.

(** The entry that a constraint contributes to the ValidationError for a
    value it rejects. *)
Definition entry_of (req : Request) (ck : Chain * Check) (x : option Value)
    : FieldError :=
  {| fe_field := Some (field ck.1);
     fe_message := message_of ck.2 (field_value req ck.1);
     fe_value := x |}.

(** The entries of a ValidationError: for every constraint in declaration
    order, one for each value it rejects. *)
Definition expected_entries (standard : Standard → string → bool)
    (ruleset : list Chain) (req : Request) : list FieldError :=
  flat_map (λ ck, map (entry_of req ck) (rejected standard req ck))
    (constraints ruleset).

(** The payload names these identifiers under [name]: as an array of
    strings, or none at all with the property absent. *)
Definition supplies (bookData : Obj) (name : string) (ids : list string) : Prop :=
  bookData !! name = Some (VArr (VStr <$> ids))
  ∨ (bookData !! name = None ∧ ids = []).

(** *** Values that a column of Book stores as they are

    The types of [migration.sql]. A value outside is refused by the store
    or converted (rounded, truncated, parsed), which the store model does not
    follow; [null] is left to the NOT NULL check. *)

Definition no_nul (s : string) : bool :=
  forallb (λ c, negb (nat_of_ascii c =? 0)) (list_ascii_of_string s).

(** TEXT *)
Definition text (v : Value) : bool :=
  match v with
  | VStr s => no_nul s
  | _ => false
  end.




(** A calendar day written YYYY-MM-DD, from the year 1000, that every month
    has. *)
Definition day (s : string) : bool :=
  match list_ascii_of_string s with
  | [y1; y2; y3; y4; h1; m1; m2; h2; d1; d2] =>
      forallb digit [y1; y2; y3; y4; m1; m2; d1; d2]
      && Ascii.eqb h1 "-" && Ascii.eqb h2 "-" && negb (Ascii.eqb y1 "0")
      && (1 <=? number_of [m1; m2])%Z && (number_of [m1; m2] <=? 12)%Z
      && (1 <=? number_of [d1; d2])%Z && (number_of [d1; d2] <=? 28)%Z
  | _ => false
  end.

(** DATE: [new Date(d)] of such a day, or of the milliseconds of a midnight
    (UTC) up to the year 9999. *)
Definition date (v : Value) : bool :=
  match v with
  | VDate (VStr s) => day s
  | VDate (VNum ms) =>
      (0 <=? ms)%Z && (ms <=? 253402214400000)%Z && (ms mod 86400000 =? 0)%Z
  | _ => false
  end.



Definition boolean (v : Value) : bool :=
  match v with
  | VBool _ => true
  | _ => false
  end.






(** *** The listing a caller asks for *)

(** The filter predicate of a listing: the search text, when there is one,
    occurs in the title whatever the case of the letters; the format and
    the flags, when given, are those of the row. An empty search text or
    format is none. *)
Definition selected (o : Options) (row : Obj) : bool :=
  match search o with
  | Some s => String.eqb s "" || contains_insensitive s (row !! "title")
  | None => true
  end
  && match format o with
     | Some f => String.eqb f "" || col_equals "format" (VStr f) row
     | None => true
     end
  && match isActive o with
     | Some b => col_equals "isActive" (VBool b) row
     | None => true
     end
  && match isFeatured o with
     | Some b => col_equals "isFeatured" (VBool b) row
     | None => true
     end.






(** Every tested value of the body is one the validators see as
    JavaScript renders it. *)
Definition plain_body (req : Request) : bool :=
  forallb (λ kv, plain kv.2) (map_to_list (body req)).

(** The properties of an update payload that updateBook takes out before
    it hands the rest to the store. *)
Definition destructured : list string := ["authorIds"; "categoryIds"; "publicationDate"].



Fixpoint no_space (s : string) : bool :=
  match s with
  | EmptyString => true
  | String c rest => negb (Ascii.eqb c " ") && no_space rest
  end.

(** The request carries "Bearer <token>", the token has no space in it, and
    the verifier accepts the token with these claims. *)
Definition verified (jwt_verify : string → Verification) (req : Request)
    (claims : Obj) : Prop :=
  ∃ token : string,
    authorization req = Some ("Bearer " +:+ token)
    ∧ no_space token = true
    ∧ jwt_verify token = Decoded claims.

(** A string that is an integer literal: an optional sign and then digits
    only, at least one. *)
Definition numeric (s : string) : bool :=
  match s with
  | String c rest =>
      if Ascii.eqb c "-" || Ascii.eqb c "+"
      then negb (String.eqb rest "") && all_chars is_digit rest
      else all_chars is_digit s
  | EmptyString => false
  end.

(** A string that, after leading blanks and an optional sign, starts with a
    digit: the strings in which parseInt finds a number. *)
Definition starts_with_integer (s : string) : bool :=
  match skip_spaces s with
  | String c rest =>
      if Ascii.eqb c "-" || Ascii.eqb c "+"
      then match rest with
           | String d _ => is_digit d
           | EmptyString => false
           end
      else is_digit c
  | EmptyString => false
  end.

(** The request without one of its query parameters. *)
Definition without_query (name : string) (req : Request) : Request :=
  {| authorization := authorization req; params := params req;
     query := delete name (query req); body := body req;
     user := user req; contexts := contexts req |}.

(** The books of a response. *)
Definition listed_books (response : Response) : list ShapedBook :=
  match data response with
  | DataList result => books result
  | _ => []
  end.

(** The text of a boolean flag in the query string. *)
Definition flag_text (b : bool) : string := if b then "true" else "false".

(** An exchange with the names of earlier middleware put in front. *)
Definition after_running {R : Type} (names : list string) (e : Exchange R) : Exchange R :=
  mkExchange (names ++ ran e) (outcome e) (after e).

Definition is_findFirst (c : Call) : bool :=
  match c with
  | CallFindFirst _ => true
  | _ => false
  end.

Definition is_create (c : Call) : bool :=
  match c with
  | CallCreate _ _ _ => true
  | _ => false
  end.

End Spec.

Export Spec.

Module Samples.

Definition env1 : Env := mkEnv "b1" 1000.
Definition env2 : Env := mkEnv "b2" 2000.

Definition author (id name : string) : Obj :=
  list_to_map [("id", VStr id); ("name", VStr name)].

Definition category (id name slug : string) : Obj :=
  list_to_map [("id", VStr id); ("name", VStr name); ("slug", VStr slug)].

(** Two authors and two categories, no book yet. *)
Definition seeded : Tables :=
  {| Book := [];
     Author := [author "A1" "Ann"; author "A2" "Bob"];
     Category := [category "C1" "Fiction" "fiction"; category "C3" "Poetry" "poetry"];
     BookAuthors := [];
     BookCategories := [] |}.

Definition db0 : Db := mkDb seeded [].

(** The required creation fields and nothing else. *)
Definition minimal : Obj :=
  list_to_map
    [("title", VStr "Dune"); ("description", VStr "A desert planet");
     ("format", VStr "PAPERBACK"); ("price", VDec 999 2);
     ("coverImageUrl", VStr "https://img.example.com/dune.png")].

Definition with_relations_payload : Obj :=
  <["authorIds" := VArr [VStr "A2"; VStr "A1"]]>
    (<["categoryIds" := VArr [VStr "C3"; VStr "C1"]]> minimal).

Definition with_isbn (isbn : string) : Obj := <["isbn" := VStr isbn]> minimal.

Definition with_isbn13 (isbn13 : string) : Obj := <["isbn13" := VStr isbn13]> minimal.

(** The client after a call, with the log cleared. *)
Definition settle {A : Type} (r : Result A * Db) : Db := mkDb (tables r.2) [].

Definition db_dune : Db := settle (createBook env1 with_relations_payload db0).

Definition db_isbn : Db := settle (createBook env1 (with_isbn "0306406152") db0).




(** The value stored in a column of the Book with the given id. *)
Definition stored (db : Db) (id column : string) : option (option Value) :=
  (λ r : Obj, r !! column) <$> book_findUnique id (tables db).


(** A verifier that knows three tokens. *)
Definition verify (token : string) : Verification :=
  if String.eqb token "admin-token" then
    Decoded (list_to_map [("sub", VStr "u1"); ("email", VStr "admin@bookzilla.com");
                          ("role", VStr "admin")])
  else if String.eqb token "user-token" then
    Decoded (list_to_map [("sub", VStr "u2"); ("email", VStr "reader@example.com");
                          ("role", VStr "user")])
  else if String.eqb token "old-token" then TokenExpiredError
  else JsonWebTokenError.

Definition request (auth : option string) (payload : Obj) : Request :=
  {| authorization := auth; params := ∅; query := ∅; body := payload;
     user := None; contexts := [] |}.

Definition as_admin (payload : Obj) : Request :=
  request (Some "Bearer admin-token") payload.



Definition new_id : Obj := {[ "id" := VStr "b9" ]}.

Definition null_title : Obj := {[ "title" := VNull ]}.

Definition restock : Obj := {[ "stockQuantity" := VNum 5 ]}.

Definition with_query (q : list (string * string)) : Request :=
  {| authorization := Some "Bearer admin-token"; params := ∅;
     query := list_to_map q; body := ∅; user := None; contexts := [] |}.

(** A creation payload with nothing but a malformed isbn13. *)
Definition only_bad_isbn13 : Obj := {[ "isbn13" := VStr "123" ]}.

(** A valid creation payload but for an isbn that is an array of two
    malformed numbers. *)
Definition two_bad_isbns : Obj := <["isbn" := VArr [VStr "12"; VStr "34"]]> minimal.

(** A valid creation payload but for a title that is an empty array. *)
Definition no_titles : Obj := <["title" := VArr []]> minimal.


(** Ratings supplied by a client. *)
Definition ratings : Obj :=
  list_to_map [("averageRating", VNum 5); ("ratingsCount", VNum 1000)].

(** Library predicates that accept every string. *)
Definition lenient : Standard → string → bool := λ _ _, true.

End Samples.

(* ===================================================================== *)
(** ** Vocabulary of the further properties *)
(* ===================================================================== *)

Module Further.

(** The properties of its payload that createBook destructures. *)
Definition read_by_create : list string :=
  ["isbn"; "isbn13"; "title"; "subtitle"; "description"; "publisher";
   "publicationDate"; "edition"; "language"; "pageCount"; "format"; "price";
   "discountPrice"; "stockQuantity"; "coverImageUrl"; "previewUrl";
   "additionalInfo"; "isFeatured"; "isActive"; "authorIds"; "categoryIds"].

(** Those it hands to the store as they are. *)
Definition copied_by_create : list string :=
  ["isbn"; "isbn13"; "title"; "subtitle"; "description"; "publisher"; "edition";
   "pageCount"; "format"; "price"; "discountPrice"; "coverImageUrl"; "previewUrl"].


(** [true] is not after [false]. *)
Definition primary_first (a b : bool) : Prop := b = true → a = true.

(** A thrown result. *)
Definition threw {A : Type} (r : Result A) : bool :=
  match r with
  | Ok _ => false
  | Throw _ => true
  end.

(** A value that is [null] or [undefined], or else truthy: what a payload
    that holds no empty string, zero or [false] in that place carries. *)
Definition null_or_truthy (v : option Value) : bool := is_null v || truthy v.

(** A client holding two books, the first with two authors and two
    categories. *)
Definition two_books : Db :=
  Samples.settle (createBook Samples.env2 Samples.minimal Samples.db_dune).

(** A client holding two books, the first with an isbn. *)
Definition one_with_isbn : Db :=
  Samples.settle (createBook Samples.env2 Samples.minimal Samples.db_isbn).

End Further.

Export Further.

Module Paging.






End Paging.

Export Paging.

Module OptionalAuth.

Section Verifier.

(** [jwt.verify] with the configured secret and algorithms. *)
Variable jwt_verify : string → Verification.

(** [optionalAuth(options)]: the user is attached when the header carries
    a token that verifies, and the request goes on in every case. *)
Definition optionalAuth : Middleware := λ req,
  match authorization req with
  | None => mret req
  | Some authHeader =>
      if String.eqb authHeader "" then mret req
      else
        match split " " authHeader with
        | [scheme; token] =>
            if negb (String.eqb scheme "Bearer") then mret req
            else
              match jwt_verify token with
              | Decoded decoded => mret (with_user req (user_of decoded))
              | _ => mret req
              end
        | _ => mret req
        end
  end.

(** Two middleware mounted one after the other. *)
Definition then_ (first second : Middleware) : Middleware := λ req,
  req' ← first req; second req'.

End Verifier.

End OptionalAuth.

Export OptionalAuth.

(* ===================================================================== *)
(** ** [errorHandler.js], the error classes, and the login service *)
(* ===================================================================== *)

Module ErrorHandler.

(** The properties of a thrown object that the error middleware read.
    [th_isAppError] is [err instanceof AppError]. *)
Record Thrown : Type := mkThrown {
  th_statusCode : option Z;
  th_status : option Z;
  th_message : string;
  th_code : option string;
  th_errors : option (list FieldError);
  th_isOperational : bool;
  th_isAppError : bool;
  th_stack : option string
}.

(** [new AppError(message, statusCode, code)]; no class of [errors.js] sets
    a [status] property. *)
Definition AppError (message : string) (statusCode : Z) (code : string)
    (stack : string) : Thrown :=
  {| th_statusCode := Some statusCode;
     th_status := None;
     th_message := message;
     th_code := Some code;
     th_errors := None;
     th_isOperational := true;
     th_isAppError := true;
     th_stack := Some stack |}.

(** [this.errors = errors] of the ValidationError constructor. *)
Definition with_errors (t : Thrown) (errors : list FieldError) : Thrown :=
  {| th_statusCode := th_statusCode t;
     th_status := th_status t;
     th_message := th_message t;
     th_code := th_code t;
     th_errors := Some errors;
     th_isOperational := th_isOperational t;
     th_isAppError := th_isAppError t;
     th_stack := th_stack t |}.

Section Objects.

(** What the runtime and the query library put on the objects they throw:
    the captured stack, and the message and code of a store fault. *)
Variable stack_of : Error → string.
Variable fault_message : StoreFault → string.
Variable fault_code : StoreFault → option string.

(** The object behind each error of the model: the constructors of
    [errors.js] for the five classes, a bare object for the others. *)
Definition thrown (e : Error) : Thrown :=
  match e with
  | ValidationError m errors =>
      with_errors (AppError m 400 "VALIDATION_ERROR" (stack_of e)) errors
  | NotFoundError m => AppError m 404 "NOT_FOUND" (stack_of e)
  | ConflictError m => AppError m 409 "CONFLICT" (stack_of e)
  | UnauthorizedError m => AppError m 401 "UNAUTHORIZED" (stack_of e)
  | ForbiddenError m => AppError m 403 "FORBIDDEN" (stack_of e)
  | TypeError m =>
      {| th_statusCode := None; th_status := None; th_message := m;
         th_code := None; th_errors := None; th_isOperational := false;
         th_isAppError := false; th_stack := Some (stack_of e) |}
  | StoreError f =>
      {| th_statusCode := None; th_status := None; th_message := fault_message f;
         th_code := fault_code f; th_errors := None; th_isOperational := false;
         th_isAppError := false; th_stack := Some (stack_of e) |}
  end.

End Objects.

(** [n || d] for a number that may be [undefined]. *)
Definition number_or_default (n : option Z) (d : Z) : Z :=
  match n with
  | Some x => if (x =? 0)%Z then d else x
  | None => d
  end.

(** [s || d] for a string that may be [undefined]. *)
Definition string_or_default (s : option string) (d : string) : string :=
  match s with
  | Some x => if String.eqb x "" then d else x
  | None => d
  end.

(** [response.error] *)
Record ErrorBody : Type := mkErrorBody {
  eb_code : string;
  eb_message : string;
  eb_errors : option (list FieldError);
  eb_stack : option string;
  eb_requestId : option string
}.

(** [res.status(statusCode).json({ success: false, error })] *)
Record ErrorResponse : Type := mkErrorResponse {
  er_status : Z;
  er_success : bool;
  er_error : ErrorBody
}.

(** The line handed to the logger (its context object is left out). *)
Inductive LogLine : Type :=
  | Warn (text : string)
  | LogError (text : string) (stack : option string).

(** [errorHandler(err, req, res, next)], under [process.env.NODE_ENV] and
    with [req.requestId]. *)
Definition errorHandler (node_env : option string) (requestId : option string)
    (err : Thrown) : LogLine * ErrorResponse :=
  let statusCode := number_or_default (th_statusCode err) 500 in
  let message := string_or_default (Some (th_message err)) "Internal Server Error" in
  let code := string_or_default (th_code err) "INTERNAL_ERROR" in
  let errors := th_errors err in
  let operational := th_isOperational err || th_isAppError err in
  let masked := negb operational && bool_decide (node_env = Some "production") in
  let line :=
    if operational then Warn ("[" +:+ code +:+ "] " +:+ message)
    else LogError ("Unhandled error: " +:+ message) (th_stack err) in
  (line,
   {| er_status := statusCode;
      er_success := false;
      er_error :=
        {| eb_code := if masked then "INTERNAL_ERROR" else code;
           eb_message := if masked then "An unexpected error occurred" else message;
           eb_errors := errors;
           eb_stack :=
             if bool_decide (node_env = Some "development") then th_stack err else None;
           eb_requestId :=
             match requestId with
             | Some r => if String.eqb r "" then None else Some r
             | None => None
             end |} |}).

(** The inline error middleware of the catalog application:
    [res.status(err.status || 500).json({ error: { message, status } })]. *)
Record InlineResponse : Type := mkInlineResponse {
  ir_status : Z;
  ir_message : string;
  ir_error_status : Z
}.

Definition inline_error_middleware (err : Thrown) : InlineResponse :=
  {| ir_status := number_or_default (th_status err) 500;
     ir_message := string_or_default (Some (th_message err)) "Internal Server Error";
     ir_error_status := number_or_default (th_status err) 500 |}.

(** [requestId(options)]: [req.get(headerName) || uuidv4()], attached to the
    request and echoed in the response header. *)
Definition requestId (header : option string) (uuidv4 : string) : string :=
  string_or_default header uuidv4.

(** The [code] each class of [errors.js] passes to AppError. *)
Definition code_of (e : Error) : string :=
  match e with
  | ValidationError _ _ => "VALIDATION_ERROR"
  | NotFoundError _ => "NOT_FOUND"
  | ConflictError _ => "CONFLICT"
  | UnauthorizedError _ => "UNAUTHORIZED"
  | ForbiddenError _ => "FORBIDDEN"
  | TypeError _ | StoreError _ => "INTERNAL_ERROR"
  end.

(** The message an error of the five classes was built with. *)
Definition message_of_error (e : Error) : option string :=
  match e with
  | ValidationError m _ | NotFoundError m | ConflictError m
  | UnauthorizedError m | ForbiddenError m => Some m
  | TypeError _ | StoreError _ => None
  end.

Definition is_app_error (e : Error) : bool :=
  match e with
  | TypeError _ | StoreError _ => false
  | _ => true
  end.

End ErrorHandler.

Export ErrorHandler.

Module AuthService.

(** [email == "admin@bookzilla.com"] under loose equality. A string is
    compared as it is; a number or boolean is compared as a number with the
    literal, which is not numeric; null and undefined equal no string; an
    array is compared through [join(",")], which gives the literal only for
    a single element that itself converts to it; an object or a date
    converts to a text with a space in it. *)
Fixpoint loosely_admin (email : Value) : bool :=
  match email with
  | VStr s => String.eqb s "admin@bookzilla.com"
  | VArr [x] => loosely_admin x
  | _ => false
  end.

(** What an asynchronous call came to. *)
Inductive Attempt (A : Type) : Type :=
  | Returned (a : A)
  | Raised (e : Error)
  | SignFailed.

Arguments Returned {A} a.
Arguments Raised {A} e.
Arguments SignFailed {A}.

(** [{ token, email }] *)
Record Session : Type := mkSession {
  se_token : string;
  se_email : option Value
}.

(** [ResponseHandler.success(res, result.token, message, 200)] *)
Record LoginResponse : Type := mkLoginResponse {
  lr_status : Z;
  lr_data : string;
  lr_message : string
}.

Section Signer.

(** [generateJwtToken(payload)], that is [jwt.sign(payload, JWT_SECRET, {})]:
    the token, or [None] when the library refuses the payload. *)
Variable jwt_sign : Obj → option string.

(** [authService.login(payload, requestId)] *)
Definition login (payload : Obj) : Attempt Session :=
  let email := payload !! "email" in
  if negb (from_option loosely_admin false email) then
    Raised (UnauthorizedError "Invalid credentials")
  else
    match jwt_sign payload with
    | Some token => Returned {| se_token := token; se_email := email |}
    | None => SignFailed
    end.

(** [authController.login]; [result.message] is never set, so the message
    is the default. *)
Definition AuthController_login (req : Request) : Attempt LoginResponse :=
  match login (body req) with
  | Returned result =>
      Returned {| lr_status := 200;
                  lr_data := se_token result;
                  lr_message := "Logged in successfully" |}
  | Raised e => Raised e
  | SignFailed => SignFailed
  end.

End Signer.

(** A signer for the sample verifier: it issues the token whose claims
    carry the role of the payload. *)
Definition sample_sign (payload : Obj) : option string :=
  match payload !! "role" with
  | Some (VStr role) =>
      if String.eqb role "admin" then Some "admin-token"
      else if String.eqb role "user" then Some "user-token"
      else None
  | _ => None
  end.

Definition credentials : Obj :=
  list_to_map [("email", VStr "admin@bookzilla.com"); ("password", VStr "wrong")].

Definition credentials_with_role : Obj := <["role" := VStr "admin"]> credentials.

End AuthService.

Export AuthService.

Module Rulesets.

(** The creation fields whose chain starts with [notEmpty], and the
    message it carries. *)
Definition required_by_create : list (string * string) :=
  [("title", "title is required");
   ("description", "Description is required");
   ("format", "format is required");
   ("price", "Price is required");
   ("coverImageUrl", "coverImageUrl is required")].

(** A property that is [undefined], [null] or the empty string. *)
Definition missing (v : option Value) : bool :=
  match v with
  | None | Some VNull => true
  | Some (VStr s) => String.eqb s ""
  | Some _ => false
  end.

(** The entries a mounted rule set hands to the ValidationError. *)
Definition entries (standard : Standard → string → bool) (ruleset : list Chain)
    (req : Request) : list FieldError :=
  map format_error (flat_map (chain_errors standard req) ruleset).

(** No property of the body that a rule set names is present. *)
Definition sends_none_of (ruleset : list Chain) (req : Request) : bool :=
  forallb (λ c, match location c with
                | InBody => bool_decide (body req !! field c = None)
                | _ => true
                end) ruleset.

End Rulesets.

Export Rulesets.

Module Relations.

(** The stored author with the given identifier. *)
Definition author_named (t : Tables) (a : string) : Obj :=
  default ∅ (List.find (has_id a) (Author t)).

(** The authors of a response for the identifiers [authorIds], in that
    order. *)
Definition listed_authors (t : Tables) (authorIds : list string) : list AuthorRef :=
  mapi (λ a i, mkAuthorRef (Some (VStr a)) (author_named t a !! "name")
                 (Z.of_nat i + 1)%Z)
    authorIds.

(** No link row of the store names the book [id]. *)
Definition unlinked (t : Tables) (id : string) : bool :=
  forallb (λ ba, negb (String.eqb (ba_bookId ba) id)) (BookAuthors t).

End Relations.

Export Relations.

Module Concurrent.

(** The service awaits each query; between two of them other clients of
    the store may have changed the tables. *)

Section Others.

(** What the other clients do while a call waits. *)
Variable others : Tables → Tables.

Definition meanwhile : M unit := λ db, (Ok tt, mkDb (others (tables db)) (calls db)).

(** createBook, with the others running between its lookup and its
    insert. *)
Definition createBook_among (env : Env) (bookData : Obj) : M ShapedBook :=
  let isbn := bookData !! "isbn" in
  let isbn13 := bookData !! "isbn13" in
  _ ← (if truthy isbn || truthy isbn13 then
         existing ← prisma_findFirst
                      (cond_if_truthy "isbn" isbn ++ cond_if_truthy "isbn13" isbn13);
         _ ← meanwhile;
         match existing with
         | Some _ => throw (ConflictError "A book with this ISBN already exists")
         | None => mret tt
         end
       else mret tt);
  authorIds ← lift (js_ids "authorIds" (bookData !! "authorIds"));
  categoryIds ← lift (js_ids "categoryIds" (bookData !! "categoryIds"));
  book ← prisma_createInclude env (create_data bookData)
           (create_authors authorIds) (create_categories categoryIds);
  mret (formatBookResponse book).



End Others.


(** Another client creates a book from the payload in the meantime. *)
Definition inserts (env : Env) (bookData : Obj) (t : Tables) : Tables :=
  tables (createBook env bookData (mkDb t [])).2.

End Concurrent.

Export Concurrent.

(* ===================================================================== *)
(** ** Properties *)
(* ===================================================================== *)

(** Unfolds one layer of the client monad. *)
Ltac run :=
  unfold mbind, M_bind, mret, M_ret, throw, lift,
    prisma_findFirst, prisma_findUnique, prisma_findUniqueInclude,
    prisma_count, prisma_findManyInclude, prisma_createInclude,
    prisma_updateInclude, prisma_delete, logged in *;
  simpl in *.

(** *** Lists *)

(** The first element of a list that is not empty is one of its elements. *)
Lemma head_default_elem {A : Type} (l : list A) (d : A) :
  (0 <? length l)%nat = true → default d (head l) ∈ l.
Proof. destruct l; simpl; [done|]. intros _. apply list_elem_of_here. Qed.

(** A call that returned, written as its value and the client it left. *)
Lemma ok_result {A : Type} (r : Result A * Db) (d : A) :
  match r.1 with Ok _ => true | Throw _ => false end = true →
  r = (Ok (match r.1 with Ok b => b | Throw _ => d end), r.2).
Proof. destruct r as [[b|e] db']; simpl; [done|discriminate]. Qed.

(** *** The store *)



(** *** Absent books *)







(** *** Duplicate check of createBook *)

Lemma createBook_unfold (env : Env) (bookData : Obj) (db : Db) :
  createBook env bookData db =
    if truthy (bookData !! "isbn") || truthy (bookData !! "isbn13") then
      match book_findFirst (isbn_conditions bookData) (tables db) with
      | Some _ =>
          (Throw (ConflictError "A book with this ISBN already exists"),
           mkDb (tables db) (calls db ++ [CallFindFirst (isbn_conditions bookData)]))
      | None =>
          create_from env bookData
            (mkDb (tables db) (calls db ++ [CallFindFirst (isbn_conditions bookData)]))
      end
    else create_from env bookData db.
Proof.
  unfold createBook, create_from, isbn_conditions.
  unfold mbind at 1, M_bind at 1.
  destruct (truthy (bookData !! "isbn") || truthy (bookData !! "isbn13")).
  - unfold mbind at 1, M_bind at 1, prisma_findFirst, logged.
    destruct (book_findFirst _ (tables db)); reflexivity.
  - reflexivity.
Qed.







(** *** Join rows of createBook *)

Lemma mapi_from_length {A B : Type} (f : A → nat → B) (n : nat) (xs : list A) :
  length (mapi_from f n xs) = length xs.
Proof. revert n. induction xs as [|x xs IH]; intros n; simpl; [done|]. by rewrite IH. Qed.

Lemma mapi_from_lookup {A B : Type} (f : A → nat → B) (n i : nat) (xs : list A) :
  mapi_from f n xs !! i = (λ x, f x (n + i)) <$> xs !! i.
Proof.
  revert n i. induction xs as [|x xs IH]; intros n i; [done|].
  destruct i as [|i]; simpl.
  - by rewrite Nat.add_0_r.
  - rewrite IH. by replace (S n + i) with (n + S i) by lia.
Qed.

Lemma default_nested_create {A : Type} (row : Value → nat → Value * A) (ids : list Value) :
  default [] (nested_create row ids) = mapi row ids.
Proof. unfold nested_create. by destruct ids. Qed.

(** The keys of nested rows are accepted exactly when every identifier is
    a string; the rows then keep their order and payload. *)
Lemma join_keys_mapi_from {A : Type} (g : nat → A) (n : nat) (vs : list Value)
    (rows : list (string * A)) :
  join_keys (mapi_from (λ v i, (v, g i)) n vs) = Some rows →
  ∃ ids : list string,
    vs = VStr <$> ids ∧ rows = mapi_from (λ s i, (s, g i)) n ids.
Proof.
  revert n rows. induction vs as [|v vs IH]; intros n rows; simpl.
  - intros [= <-]. by exists [].
  - destruct v; try done.
    destruct (join_keys _) as [tl|] eqn:E; simpl; [|done].
    intros [= <-]. destruct (IH _ _ E) as (ids & -> & ->).
    by exists (s :: ids).
Qed.

Lemma object_of_lookup_None (props : list (string * option Value)) (k : string) :
  k ∉ props.*1 → object_of props !! k = None.
Proof.
  induction props as [|[k' v] props IH]; simpl; [done|].
  intros H. apply not_elem_of_cons in H as [Hne H].
  unfold put. destruct v; [rewrite lookup_insert_ne by done|]; by apply IH.
Qed.

Lemma object_of_lookup_in (props : list (string * option Value)) (k : string)
    (v : option Value) :
  NoDup props.*1 → (k, v) ∈ props → object_of props !! k = v.
Proof.
  induction props as [|[k' v'] props IH]; simpl; intros Hnd Hin.
  - by apply elem_of_nil in Hin.
  - apply NoDup_cons in Hnd as [Hk' Hnd].
    apply elem_of_cons in Hin as [[= <- <-]|Hin].
    + unfold put. destruct v as [x|]; [apply lookup_insert_eq|].
      by apply object_of_lookup_None.
    + assert (k ≠ k') as Hne.
      { intros ->. apply Hk'. apply list_elem_of_fmap. by exists (k', v). }
      unfold put. destruct v'; [rewrite lookup_insert_ne by done|]; by apply IH.
Qed.

(** Solves [(k, v) ∈ [...]] for an element that is literally in the list. *)
Ltac in_list :=
  solve [repeat first [apply list_elem_of_here | apply list_elem_of_further]].

(** Solves a decidable closed goal over names by evaluation. *)
Ltac by_names := apply (bool_decide_unpack _); vm_compute; exact I.

Lemma fst_map_pair {A B : Type} (f : A → B) (l : list A) :
  (map (λ k, (k, f k)) l).*1 = l.
Proof. induction l as [|x l IH]; [done|]. cbn. f_equal. exact IH. Qed.

Lemma formatBookResponse_field (book : BookRecord) (k : string) :
  k ∈ bookColumns → sb_fields (formatBookResponse book) !! k = br_row book !! k.
Proof.
  intros Hk. unfold formatBookResponse. cbn [sb_fields].
  apply object_of_lookup_in.
  - rewrite (fst_map_pair (λ k0, br_row book !! k0)).
    apply (bool_decide_unpack _). by vm_compute.
  - apply list_elem_of_In, in_map_iff. exists k. split; [done|by apply list_elem_of_In].
Qed.

Lemma formatBookResponse_other (book : BookRecord) (k : string) :
  k ∉ bookColumns → sb_fields (formatBookResponse book) !! k = None.
Proof.
  intros Hk. unfold formatBookResponse. cbn [sb_fields].
  apply object_of_lookup_None.
  by rewrite (fst_map_pair (λ k0, br_row book !! k0)).
Qed.

Lemma create_data_no_id (bookData : Obj) : create_data bookData !! "id" = None.
Proof.
  apply object_of_lookup_None. apply (bool_decide_unpack _). by vm_compute.
Qed.

Lemma book_defaults_id (env : Env) :
  book_defaults env !! "id" = Some (VStr (newId env)).
Proof. vm_compute. reflexivity. Qed.

(** What a successful [book_create] did. *)
Lemma book_create_ok (env : Env) (data : Obj)
    (authors : option (list (Value * Z))) (categories : option (list (Value * bool)))
    (t t' : Tables) (row : Obj) :
  book_create env data authors categories t = Ok (row, t') →
  ∃ arows crows id,
    join_keys (default [] authors) = Some arows ∧
    join_keys (default [] categories) = Some crows ∧
    row = data ∪ book_defaults env ∧
    col_str row "id" = Some id ∧
    t' = {| Book := Book t ++ [row];
            Author := Author t;
            Category := Category t;
            BookAuthors := BookAuthors t ++ map (λ a, mkBookAuthor id a.1 a.2) arows;
            BookCategories :=
              BookCategories t ++ map (λ c, mkBookCategory id c.1 c.2) crows |}.
Proof.
  unfold book_create.
  destruct (unknown_column data); [done|].
  destruct (join_keys (default [] authors)) as [arows|]; [|done].
  destruct (join_keys (default [] categories)) as [crows|]; [|done].
  destruct (null_column _); [done|].
  destruct (col_str _ "id") as [id|] eqn:Eid; [|done].
  destruct (duplicate_column _ _); [done|].
  repeat (match goal with |- context [if ?b then _ else _] => destruct b end; [done|]).
  intros [= <- <-]. by exists arows, crows, id.
Qed.

(** What a successful createBook did. *)
Lemma createBook_ok (env : Env) (bookData : Obj) (db db' : Db) (shaped : ShapedBook) :
  createBook env bookData db = (Ok shaped, db') →
  ∃ aids cids row,
    js_ids "authorIds" (bookData !! "authorIds") = Ok aids ∧
    js_ids "categoryIds" (bookData !! "categoryIds") = Ok cids ∧
    book_create env (create_data bookData) (create_authors aids)
      (create_categories cids) (tables db) = Ok (row, tables db') ∧
    shaped = formatBookResponse (with_relations (tables db') row).
Proof.
  rewrite createBook_unfold.
  match goal with
  | |- _ → ?G =>
      assert (∀ db1, tables db1 = tables db →
                create_from env bookData db1 = (Ok shaped, db') → G) as Hcreate
  end;
    [|destruct (truthy _ || truthy _);
      [destruct (book_findFirst _ _); [by intros [=]|]|]; by apply Hcreate].
  intros db1 Ht. unfold create_from.
  unfold mbind at 1, M_bind at 1, lift.
  destruct (js_ids "authorIds" _) as [aids|e]; [|by intros [=]].
  unfold mbind at 1, M_bind at 1.
  destruct (js_ids "categoryIds" _) as [cids|e]; [|by intros [=]].
  unfold mbind at 1, M_bind at 1, prisma_createInclude, logged.
  cbv zeta. cbn [tables calls]. rewrite Ht.
  destruct (book_create _ _ _ _ _) as [[row t']|e] eqn:E; [|by intros [=]].
  unfold mret, M_ret. intros [= <- <-]. by exists aids, cids, row.
Qed.

(** The identifiers a payload names are those createBook links. *)
Lemma supplies_js_ids (bookData : Obj) (name : string) (ids : list string) :
  supplies bookData name ids →
  js_ids name (bookData !! name) = Ok (VStr <$> ids).
Proof. by intros [->|[-> ->]]. Qed.

Lemma fmap_VStr_inj (a b : list string) : VStr <$> a = VStr <$> b → a = b.
Proof.
  revert b. induction a as [|x a IH]; intros [|y b]; simpl; try done.
  intros [= -> H]. f_equal. by apply IH.
Qed.

(** C2. Let the payload name the author identifiers authorIds and the
    category identifiers categoryIds, each as an array of strings or not at
    all. After a createBook that returned, the BookAuthor rows it added are
    one per author identifier, in input order, the row at position i
    carrying authorOrder i+1; the BookCategory rows it added are one per
    category identifier, the row at position i carrying isPrimary exactly
    when i is 0. An empty (or absent) list adds no rows. *)
Theorem createBook_join_rows (env : Env) (bookData : Obj) (db db' : Db)
    (shaped : ShapedBook) (authorIds categoryIds : list string) :
  supplies bookData "authorIds" authorIds →
  supplies bookData "categoryIds" categoryIds →
  createBook env bookData db = (Ok shaped, db') →
  ∃ (newAuthors : list BookAuthor) (newCategories : list BookCategory),
    BookAuthors (tables db') = BookAuthors (tables db) ++ newAuthors ∧
    BookCategories (tables db') = BookCategories (tables db) ++ newCategories ∧
    length newAuthors = length authorIds ∧
    length newCategories = length categoryIds ∧
    (∀ (i : nat) (a : string),
       authorIds !! i = Some a →
       newAuthors !! i = Some (mkBookAuthor (newId env) a (Z.of_nat i + 1))) ∧
    (∀ (i : nat) (c : string),
       categoryIds !! i = Some c →
       newCategories !! i = Some (mkBookCategory (newId env) c (bool_decide (i = 0)))).
Proof.
  intros Hauthors Hcategories H.
  apply supplies_js_ids in Hauthors. apply supplies_js_ids in Hcategories.
  apply createBook_ok in H as (aids & cids & row & Ha & Hc & Hcreate & _).
  rewrite Hauthors in Ha. rewrite Hcategories in Hc.
  injection Ha as <-. injection Hc as <-.
  apply book_create_ok in Hcreate as (arows & crows & id & Hja & Hjc & -> & Hid & Ht).
  unfold create_authors in Hja. unfold create_categories in Hjc.
  rewrite default_nested_create in Hja. rewrite default_nested_create in Hjc.
  unfold mapi in Hja, Hjc.
  apply (join_keys_mapi_from (λ i, (Z.of_nat i + 1)%Z)) in Hja as (authorIds' & Ea & ->).
  apply (join_keys_mapi_from (λ i, (i =? 0)%nat)) in Hjc as (categoryIds' & Ec & ->).
  apply fmap_VStr_inj in Ea as <-. apply fmap_VStr_inj in Ec as <-.
  assert (id = newId env) as ->.
  { unfold col_str in Hid. rewrite lookup_union_r in Hid by apply create_data_no_id.
    rewrite book_defaults_id in Hid. by injection Hid. }
  eexists _, _. rewrite Ht. cbn [BookAuthors BookCategories].
  repeat split; try done.
  - by rewrite length_map, mapi_from_length.
  - by rewrite length_map, mapi_from_length.
  - intros i a Hi. rewrite list_lookup_fmap, mapi_from_lookup, Hi. done.
  - intros i c Hi. rewrite list_lookup_fmap, mapi_from_lookup, Hi. simpl.
    do 2 f_equal. by destruct i.
Qed.

Lemma createBook_join_rows_witness :
  ∃ (newAuthors : list BookAuthor) (newCategories : list BookCategory),
    BookAuthors (tables (createBook Samples.env1 Samples.with_relations_payload Samples.db0).2)
      = BookAuthors (tables Samples.db0) ++ newAuthors ∧
    BookCategories (tables (createBook Samples.env1 Samples.with_relations_payload Samples.db0).2)
      = BookCategories (tables Samples.db0) ++ newCategories ∧
    length newAuthors = length ["A2"; "A1"] ∧
    length newCategories = length ["C3"; "C1"] ∧
    (∀ (i : nat) (a : string),
       ["A2"; "A1"] !! i = Some a →
       newAuthors !! i = Some (mkBookAuthor (newId Samples.env1) a (Z.of_nat i + 1))) ∧
    (∀ (i : nat) (c : string),
       ["C3"; "C1"] !! i = Some c →
       newCategories !! i
         = Some (mkBookCategory (newId Samples.env1) c (bool_decide (i = 0)))).
Proof.
  apply (createBook_join_rows Samples.env1 Samples.with_relations_payload Samples.db0
           (createBook Samples.env1 Samples.with_relations_payload Samples.db0).2
           (match (createBook Samples.env1 Samples.with_relations_payload Samples.db0).1 with
            | Ok b => b
            | Throw _ => mkShapedBook ∅ None None
            end)).
  - left. vm_compute. reflexivity.
  - left. vm_compute. reflexivity.
  - apply (ok_result (createBook Samples.env1 Samples.with_relations_payload Samples.db0)).
    vm_compute. reflexivity.
Defined.

(** The scenario of the specification: authors [A2, A1], categories [C3, C1]. *)
Example createBook_scenario :
  let db' := (createBook Samples.env1 Samples.with_relations_payload Samples.db0).2 in
  BookAuthors (tables db') =
    [mkBookAuthor "b1" "A2" 1; mkBookAuthor "b1" "A1" 2] ∧
  BookCategories (tables db') =
    [mkBookCategory "b1" "C3" true; mkBookCategory "b1" "C1" false] ∧
  BookAuthors (tables (createBook Samples.env1 Samples.minimal Samples.db0).2) = [] ∧
  BookCategories (tables (createBook Samples.env1 Samples.minimal Samples.db0).2) = [].
Proof. repeat split; vm_compute; reflexivity. Qed.

(** *** Pagination of getBooks *)

#[local] Instance createdAt_desc_total : Total createdAt_desc.
Proof. intros a b. unfold createdAt_desc. lia. Qed.

#[local] Instance createdAt_desc_trans : Transitive createdAt_desc.
Proof. intros a b c. unfold createdAt_desc. lia. Qed.










(** The scenario of the specification: limit 20 and 45 matching rows. *)
Example pagination_scenario :
  Math_ceil_div 45 20 = 3%Z ∧
  ((1 * 20 <? 45)%Z = true ∧ (1 <? 1)%Z = false) ∧
  ((3 * 20 <? 45)%Z = false ∧ (1 <? 3)%Z = true).
Proof. repeat split. Qed.

(** *** The validation layer *)

Lemma record_errors_nil (req : Request) : record_errors req [] = req.
Proof. destruct req. unfold record_errors. simpl. by rewrite app_nil_r. Qed.

Lemma record_errors_app (req : Request) (a b : list RawError) :
  record_errors (record_errors req a) b = record_errors req (a ++ b).
Proof. unfold record_errors. simpl. by rewrite app_assoc. Qed.

(** A chain reads the payload only: errors recorded earlier do not change
    what it finds. *)
Lemma chain_errors_record (standard : Standard → string → bool) (req : Request)
    (errors : list RawError) (c : Chain) :
  chain_errors standard (record_errors req errors) c = chain_errors standard req c.
Proof. reflexivity. Qed.

Lemma omap_filter_map {A B : Type} (p : A → bool) (f : A → B) (l : list A) :
  omap (λ x, if p x then None else Some (f x)) l
  = map f (List.filter (λ x, negb (p x)) l).
Proof.
  induction l as [|x l IH]; csimpl; [done|].
  destruct (p x); csimpl; by rewrite IH.
Qed.

Lemma filter_map_pair {A B : Type} (p : A * B → bool) (a : A) (l : list B) :
  List.filter p (map (λ k, (a, k)) l) = map (λ k, (a, k)) (List.filter (λ k, p (a, k)) l).
Proof.
  induction l as [|x l IH]; simpl; [done|].
  destruct (p (a, x)); simpl; by rewrite IH.
Qed.

Lemma filter_none {A : Type} (l : list A) : List.filter (λ _, false) l = [].
Proof. by induction l. Qed.

Lemma flat_map_map {A B C : Type} (f : B → list C) (g : A → B) (l : list A) :
  flat_map f (map g l) = flat_map (λ x, f (g x)) l.
Proof. induction l as [|x l IH]; simpl; [done|]. by rewrite IH. Qed.

Lemma flat_map_nil {A B : Type} (l : list A) : flat_map (λ _, @nil B) l = [].
Proof. by induction l. Qed.

(** The errors the chains record: for every constraint in declaration
    order, one for each value it rejects. *)
Lemma recorded_errors_spec (standard : Standard → string → bool) (req : Request)
    (ruleset : list Chain) :
  flat_map (chain_errors standard req) ruleset
  = flat_map (λ ck, map (raw_error req ck.1 ck.2) (rejected standard req ck))
      (constraints ruleset).
Proof.
  unfold constraints. induction ruleset as [|c rs IH]; simpl; [done|].
  rewrite flat_map_app, <- IH. f_equal.
  rewrite flat_map_map. unfold chain_errors, rejected. simpl.
  destruct (applies req c); simpl.
  - apply flat_map_ext. intros k. apply omap_filter_map.
  - by rewrite flat_map_nil.
Qed.

Lemma dispatch_cons_ok {R : Type} (name : string) (m : Middleware)
    (rest : list (string * Middleware)) (handler : string * (Request → M R))
    (req req' : Request) (db db' : Db) :
  m req db = (Ok req', db') →
  dispatch ((name, m) :: rest) handler req db
  = after_running [name] (dispatch rest handler req' db').
Proof. intros H. simpl. by rewrite H. Qed.

Lemma dispatch_cons_throw {R : Type} (name : string) (m : Middleware)
    (rest : list (string * Middleware)) (handler : string * (Request → M R))
    (req : Request) (err : Error) (db db' : Db) :
  m req db = (Throw err, db') →
  dispatch ((name, m) :: rest) handler req db = mkExchange [name] (Throw err) db'.
Proof. intros H. simpl. by rewrite H. Qed.

Lemma dispatch_chains {R : Type} (standard : Standard → string → bool)
    (ruleset : list Chain) (rest : list (string * Middleware))
    (handler : string * (Request → M R)) (req : Request) (db : Db) :
  dispatch (map (λ c, (field c, run_chain standard c)) ruleset ++ rest) handler req db
  = after_running (map field ruleset)
      (dispatch rest handler
         (record_errors req (flat_map (chain_errors standard req) ruleset)) db).
Proof.
  revert req. induction ruleset as [|c rs IH]; intros req.
  - simpl. rewrite record_errors_nil. by destruct (dispatch rest handler req db).
  - change (map (λ c, (field c, run_chain standard c)) (c :: rs) ++ rest)
      with ((field c, run_chain standard c)
            :: (map (λ c, (field c, run_chain standard c)) rs ++ rest)).
    rewrite (dispatch_cons_ok (field c) (run_chain standard c) _ handler req
               (record_errors req (chain_errors standard req c)) db db eq_refl).
    rewrite IH. unfold after_running. simpl. rewrite record_errors_app.
    by rewrite (flat_map_ext _ _ (chain_errors_record standard req _)).
Qed.

Lemma validate_passes (req : Request) (db : Db) :
  contexts req = [] → validate req db = (Ok req, db).
Proof. intros H. unfold validate. by rewrite H. Qed.

Lemma validate_throws (req : Request) (db : Db) (errors : list RawError) :
  contexts req ≠ [] → contexts req = errors →
  validate req db
  = (Throw (ValidationError "Validation failed" (map format_error errors)), db).
Proof. intros Hne <-. unfold validate. by destruct (contexts req). Qed.

Lemma format_raw_error (req : Request) (ck : Chain * Check) (x : option Value) :
  field ck.1 ≠ "" → format_error (raw_error req ck.1 ck.2 x) = entry_of req ck x.
Proof.
  intros H. unfold format_error, raw_error, entry_of, error_field. simpl.
  destruct (String.eqb_spec (field ck.1) ""); [done|reflexivity].
Qed.

Lemma constraint_chain (ruleset : list Chain) (ck : Chain * Check) :
  ck ∈ constraints ruleset → ck.1 ∈ ruleset.
Proof.
  intros Hin. apply list_elem_of_In in Hin. unfold constraints in Hin.
  apply in_flat_map in Hin as (c' & Hc' & Hin).
  apply in_map_iff in Hin as (k' & <- & _). by apply list_elem_of_In.
Qed.

(** The entries of the rule set are the recorded errors as [validate]
    formats them. *)
Lemma formatted_errors (standard : Standard → string → bool) (req : Request)
    (ruleset : list Chain) :
  (∀ c, c ∈ ruleset → field c ≠ "") →
  map format_error (flat_map (chain_errors standard req) ruleset)
  = expected_entries standard ruleset req.
Proof.
  intros Hfields. rewrite recorded_errors_spec. unfold expected_entries.
  assert (∀ ck, ck ∈ constraints ruleset → field ck.1 ≠ "") as Hck.
  { intros ck Hin. by apply Hfields, constraint_chain. }
  induction (constraints ruleset) as [|ck cks IH]; simpl; [done|].
  rewrite map_app, map_map, IH.
  - f_equal. apply map_ext. intros x. apply format_raw_error, Hck. left.
  - intros ck' Hin. apply Hck. by right.
Qed.

(** A value that is no array is judged once, as it is. *)
Lemma judged_scalar (vd : Validator) (v : option Value) :
  match v with Some (VArr _) => False | _ => True end → judged vd v = [v].
Proof. destruct v as [[]|]; done. Qed.

Lemma no_failing_no_entries (standard : Standard → string → bool) (req : Request)
    (cks : list (Chain * Check)) :
  List.filter (fails standard req) cks = [] →
  flat_map (λ ck, map (entry_of req ck) (rejected standard req ck)) cks = [].
Proof.
  induction cks as [|ck cks IH]; simpl; [done|].
  unfold fails at 1. destruct (rejected standard req ck); [|done].
  simpl. apply IH.
Qed.

Lemma scalar_entries (standard : Standard → string → bool) (req : Request)
    (cks : list (Chain * Check)) :
  (∀ ck, ck ∈ cks →
     match field_value req ck.1 with Some (VArr _) => False | _ => True end) →
  flat_map (λ ck, map (entry_of req ck) (rejected standard req ck)) cks
  = map (λ ck, entry_of req ck (field_value req ck.1))
      (List.filter (fails standard req) cks).
Proof.
  induction cks as [|ck cks IH]; intros Hck; simpl; [done|].
  rewrite IH by (intros ck' Hin; apply Hck; by right).
  unfold fails at 2. unfold rejected.
  rewrite judged_scalar by (apply Hck; left).
  destruct (applies req ck.1); simpl; [|done].
  destruct (holds standard (validator ck.2) (field_value req ck.1)); done.
Qed.

(** C8 (amended). When a mounted rule set rejects a request, the outcome is
    the one ValidationError "Validation failed"; its {field, message, value}
    entries are, for every constraint in the order the rule set declares
    them, one entry for each value the constraint rejects; the handler does
    not run and the client is untouched. A constraint rejects its field,
    except that a string validator judges the elements of an array one by
    one and rejects each failing element. So every failing constraint has
    an entry, and when no field of the rule set holds an array the entries
    are the failing constraints, one entry each. When nothing is rejected,
    the request passes to the handler. *)
Theorem validate_reports_every_failure {R : Type}
    (standard : Standard → string → bool) (ruleset : list Chain)
    (handler : string * (Request → M R)) (req : Request) (db : Db) :
  contexts req = [] →
  (∀ c, c ∈ ruleset → field c ≠ "") →
  plain_body req = true →
  let entries := expected_entries standard ruleset req in
  let failing := List.filter (fails standard req) (constraints ruleset) in
  let e := dispatch (mounted standard ruleset) handler req db in
  (entries ≠ [] →
     outcome e = Throw (ValidationError "Validation failed" entries)
     ∧ ran e = map field ruleset ++ ["validate"]
     ∧ after e = db) ∧
  (entries = [] →
     outcome e = (handler.2 req db).1
     ∧ ran e = map field ruleset ++ ["validate"; handler.1]
     ∧ after e = (handler.2 req db).2) ∧
  (∀ ck, ck ∈ failing → ∃ x, entry_of req ck x ∈ entries) ∧
  (entries = [] ↔ failing = []) ∧
  ((∀ c, c ∈ ruleset →
      match field_value req c with Some (VArr _) => False | _ => True end) →
   entries = map (λ ck, entry_of req ck (field_value req ck.1)) failing).
Proof.
  intros Hctx Hfields _ entries failing e. subst e. unfold mounted.
  rewrite dispatch_chains.
  pose proof (formatted_errors standard req ruleset Hfields) as Hfmt.
  fold entries in Hfmt.
  assert (∀ ck, ck ∈ failing → ∃ x, entry_of req ck x ∈ entries) as Hevery.
  { intros ck Hin. apply list_elem_of_In, List.filter_In in Hin as [Hin Hf].
    unfold fails in Hf. destruct (rejected standard req ck) as [|x xs] eqn:E; [done|].
    exists x. apply list_elem_of_In. unfold entries, expected_entries.
    apply in_flat_map. exists ck. split; [done|]. rewrite E. by left. }
  assert (failing = [] → entries = []) as Hnone
    by apply no_failing_no_entries.
  split; [|split; [|split; [exact Hevery|split]]].
  - intros Hf.
    rewrite (dispatch_cons_throw "validate" validate [] handler _
               (ValidationError "Validation failed" entries) db db).
    + unfold after_running. simpl. done.
    + rewrite <- Hfmt. apply validate_throws.
      * simpl. rewrite Hctx. simpl. intros Hnil. apply Hf.
        by rewrite <- Hfmt, Hnil.
      * simpl. by rewrite Hctx.
  - intros Hf.
    assert (flat_map (chain_errors standard req) ruleset = []) as ->.
    { rewrite Hf in Hfmt. by destruct (flat_map _ ruleset). }
    rewrite record_errors_nil.
    rewrite (dispatch_cons_ok "validate" validate [] handler req req db db)
      by (by apply validate_passes).
    unfold after_running. simpl.
    destruct handler as [name h]. simpl. by destruct (h req db) as [r db'].
  - split; [|exact Hnone].
    intros Hnil. destruct failing as [|ck rest] eqn:E; [done|].
    destruct (Hevery ck) as [x Hx]; [left|]. rewrite Hnil in Hx.
    by apply elem_of_nil in Hx.
  - intros Hscalar. apply scalar_entries.
    intros ck Hin. by apply Hscalar, constraint_chain.
Qed.

Lemma all_fields_named (ruleset : list Chain) :
  forallb (λ c, negb (String.eqb (field c) "")) ruleset = true →
  ∀ c, c ∈ ruleset → field c ≠ "".
Proof.
  intros H c Hin. rewrite forallb_forall in H.
  apply list_elem_of_In, H in Hin.
  by destruct (String.eqb_spec (field c) "").
Qed.

Lemma nonempty_of_length {A : Type} (l : list A) :
  (0 <? length l)%nat = true → l ≠ [].
Proof. by destruct l. Qed.

Lemma validate_reports_every_failure_witness :
  let req := Samples.as_admin Samples.only_bad_isbn13 in
  let e := dispatch (mounted Samples.lenient createBookValidation)
             (handler Samples.env1 POST_root) req Samples.db0 in
  outcome e = Throw (ValidationError "Validation failed"
                       (expected_entries Samples.lenient createBookValidation req))
  ∧ ran e = map field createBookValidation ++ ["validate"]
  ∧ after e = Samples.db0.
Proof.
  intros req e.
  apply (validate_reports_every_failure Samples.lenient createBookValidation
           (handler Samples.env1 POST_root) req Samples.db0).
  - reflexivity.
  - apply all_fields_named. vm_compute. reflexivity.
  - vm_compute. reflexivity.
  - apply nonempty_of_length. vm_compute. reflexivity.
Defined.

(** C8, as stated, fails on a field that holds an array. An isbn that is an
    array of two malformed numbers breaks one constraint and is listed
    twice, once for each element; a title that is an empty array is listed
    as no string but not as missing, the requirement having no element to
    reject. *)
Lemma validate_array_counterexample :
  let entries_of payload :=
    match outcome (dispatch (mounted Samples.lenient createBookValidation)
                     (handler Samples.env1 POST_root) (Samples.as_admin payload)
                     Samples.db0) with
    | Throw (ValidationError _ entries) =>
        map (λ e, (fe_field e, fe_message e, fe_value e)) entries
    | _ => []
    end in
  map (λ ck, (field ck.1, withMessage ck.2))
    (List.filter (fails Samples.lenient (Samples.as_admin Samples.two_bad_isbns))
       (constraints createBookValidation))
  = [("isbn", Some "Invalid ISBN format")]
  ∧ entries_of Samples.two_bad_isbns
    = [(Some "isbn", "Invalid ISBN format", Some (VStr "12"));
       (Some "isbn", "Invalid ISBN format", Some (VStr "34"))]
  ∧ entries_of Samples.no_titles
    = [(Some "title", "title must be a string", Some (VArr []))].
Proof. vm_compute. repeat split. Qed.

(** A payload with nothing but a malformed isbn13: every failing constraint
    is listed, in the order of the creation rule set. *)
Example validation_scenario :
  map (λ e, (fe_field e, fe_message e, fe_value e))
    (expected_entries Samples.lenient createBookValidation
       (Samples.as_admin Samples.only_bad_isbn13))
  = [(Some "title", "title is required", None);
     (Some "title", "title must be a string", None);
     (Some "description", "Description is required", None);
     (Some "description", "Description must be a string", None);
     (Some "format", "format is required", None);
     (Some "format",
      "format must be one of: HARDCOVER, PAPERBACK, EBOOK, AUDIOBOOK", None);
     (Some "price", "Price is required", None);
     (Some "coverImageUrl", "coverImageUrl is required", None);
     (Some "isbn13", "Invalid ISBN-13 format", Some (VStr "123"))].
Proof. vm_compute. reflexivity. Qed.

(** *** The book router mounts no rule set *)

(** C4 at a failing input. An administrator posts a payload whose isbn13 is
    "123". The router runs authenticateToken, requireAdmin and the controller:
    the store is queried and the Book is inserted with that isbn13, answered
    with status 201. The creation rule set, had it been mounted before the
    controller, rejects the same request with a ValidationError naming isbn13
    and reaches neither the controller nor the store. *)
Theorem bookRoutes_create_is_not_validated :
  let req := Samples.as_admin (Samples.with_isbn13 "123") in
  let routed := bookRoutes Samples.verify Samples.env1 POST_root req Samples.db0 in
  let validated :=
    dispatch (mounted Samples.lenient createBookValidation)
      (handler Samples.env1 POST_root) req Samples.db0 in
  (ran routed = ["authenticateToken"; "requireAdmin"; "bookController.create"]
   ∧ match outcome routed with
     | Ok r => status r = 201%Z
     | Throw _ => False
     end
   ∧ map is_findFirst (calls (after routed)) = [true; false]
   ∧ map is_create (calls (after routed)) = [false; true]
   ∧ Samples.stored (after routed) "b1" "isbn13" = Some (Some (VStr "123")))
  ∧ (match outcome validated with
     | Throw (ValidationError m errors) =>
         m = "Validation failed"
         ∧ errors = [mkFieldError (Some "isbn13") "Invalid ISBN-13 format"
                       (Some (VStr "123"))]
     | _ => False
     end
     ∧ existsb (String.eqb "bookController.create") (ran validated) = false
     ∧ calls (after validated) = []
     ∧ Book (tables (after validated)) = []).
Proof. vm_compute. repeat split. Qed.

(** *** Client-supplied ratings *)

(** createBook reads its payload only at the properties it destructures:
    averageRating and ratingsCount are not among them. *)
Lemma createBook_ignores_ratings (env : Env) (bookData : Obj) (a r : Value) (db : Db) :
  createBook env (<["averageRating" := a]> (<["ratingsCount" := r]> bookData)) db
  = createBook env bookData db.
Proof.
  unfold createBook, create_data, prop_default.
  by rewrite !lookup_insert_ne by done.
Qed.

(** C5 at a failing input. updateBook hands every property of updateData but
    authorIds, categoryIds and publicationDate to the store, so ratings
    supplied by the client overwrite the stored ones: two update payloads that
    differ only in those fields leave different Books. *)
Theorem updateBook_overwrites_ratings :
  let before := Samples.db_dune in
  let with_ratings := (updateBook Samples.env2 "b1" Samples.ratings before).2 in
  let without := (updateBook Samples.env2 "b1" ∅ before).2 in
  Samples.stored before "b1" "averageRating" = Some (Some (VNum 0))
  ∧ Samples.stored before "b1" "ratingsCount" = Some (Some (VNum 0))
  ∧ Samples.stored without "b1" "averageRating" = Some (Some (VNum 0))
  ∧ Samples.stored without "b1" "ratingsCount" = Some (Some (VNum 0))
  ∧ Samples.stored with_ratings "b1" "averageRating" = Some (Some (VNum 5))
  ∧ Samples.stored with_ratings "b1" "ratingsCount" = Some (Some (VNum 1000)).
Proof. vm_compute. repeat split. Qed.

(** *** updateBook *)

Lemma update_data_lookup (updateData : Obj) (k : string) :
  k ∉ destructured → update_data updateData !! k = updateData !! k.
Proof.
  unfold destructured. intros H.
  apply not_elem_of_cons in H as [H1 H].
  apply not_elem_of_cons in H as [H2 H].
  apply not_elem_of_cons in H as [H3 _].
  unfold update_data.
  destruct (updateData !! "publicationDate") as [d|];
    [destruct (truthy (Some d)); [rewrite lookup_insert_ne by done|]|];
    by rewrite !lookup_delete_ne by done.
Qed.



Lemma book_findUnique_Some (id : string) (t : Tables) (row : Obj) :
  book_findUnique id t = Some row → row ∈ Book t ∧ col_str row "id" = Some id.
Proof.
  unfold book_findUnique. intros H. apply find_some in H as [Hin Hid].
  split; [by apply list_elem_of_In|].
  unfold has_id in Hid. by apply bool_decide_eq_true in Hid.
Qed.







(** What a successful updateBook did. *)
Lemma updateBook_ok (env : Env) (id : string) (updateData : Obj) (db db' : Db)
    (shaped : ShapedBook) :
  updateBook env id updateData db = (Ok shaped, db') →
  ∃ row,
    book_update env id (update_data updateData) (tables db) = Ok (row, tables db') ∧
    shaped = formatBookResponse (with_relations (tables db') row).
Proof.
  unfold updateBook. unfold mbind at 1, M_bind at 1, prisma_findUnique, logged.
  destruct (book_findUnique id (tables db)); [|by intros [=]].
  unfold mbind at 1, M_bind at 1, prisma_updateInclude, logged.
  cbv zeta. cbn [tables calls].
  destruct (book_update _ _ _ _) as [[row t']|e]; [|by intros [=]].
  unfold mret, M_ret. intros [= <- <-]. by exists row.
Qed.




(** The scenario of the specification: an update with only stockQuantity. *)
Example updateBook_scenario :
  let result := updateBook Samples.env2 "b1" Samples.restock Samples.db_dune in
  Samples.stored result.2 "b1" "stockQuantity" = Some (Some (VNum 5))
  ∧ Samples.stored result.2 "b1" "title" = Some (Some (VStr "Dune"))
  ∧ Samples.stored result.2 "b1" "price" = Some (Some (VDec 999 2))
  ∧ BookAuthors (tables result.2) = BookAuthors (tables Samples.db_dune)
  ∧ BookCategories (tables result.2) = BookCategories (tables Samples.db_dune)
  ∧ match result.1 with
    | Ok shaped =>
        sb_fields shaped !! "stockQuantity" = Some (VNum 5)
        ∧ (map ar_order <$> sb_authors shaped) = Some [1%Z; 2%Z]
        ∧ (map cr_isPrimary <$> sb_categories shaped) = Some [true; false]
    | Throw _ => False
    end.
Proof. vm_compute. repeat split. Qed.

(** *** Access control of the book router *)

Lemma split_no_space (s : string) : no_space s = true → split " " s = [s].
Proof.
  induction s as [|c s IH]; simpl; [done|].
  destruct (Ascii.eqb c " "); simpl; [done|]. intros H. by rewrite (IH H).
Qed.

Lemma split_not_nil (sep : ascii) (s : string) : split sep s ≠ [].
Proof.
  destruct s as [|c s]; simpl; [done|].
  destruct (Ascii.eqb c sep); [done|]. by destruct (split sep s).
Qed.

Lemma split_singleton (s w : string) : split " " s = [w] → s = w ∧ no_space s = true.
Proof.
  revert w. induction s as [|c s IH]; intros w; simpl.
  - by intros [= <-].
  - destruct (Ascii.eqb c " ") eqn:E; simpl.
    + intros [= _ H]. by apply split_not_nil in H.
    + destruct (split " " s) as [|w' ws] eqn:Es; [by apply split_not_nil in Es|].
      intros [= <- ->]. by destruct (IH w' eq_refl) as [-> ->].
Qed.

Lemma split_pair (s a b : string) :
  split " " s = [a; b] → s = a +:+ " " +:+ b ∧ no_space b = true.
Proof.
  revert a. induction s as [|c s IH]; intros a; simpl; [done|].
  destruct (Ascii.eqb_spec c " ") as [->|Hc].
  - intros [= <- H]. by apply split_singleton in H as [-> H].
  - destruct (split " " s) as [|w ws] eqn:Es; [by apply split_not_nil in Es|].
    intros [= <- ->]. by destruct (IH w eq_refl) as [-> H].
Qed.

Lemma split_cons_other (c : ascii) (s : string) :
  Ascii.eqb c " " = false →
  split " " (String c s)
  = match split " " s with
    | w :: ws => String c w :: ws
    | [] => [String c EmptyString]
    end.
Proof. intros H. cbn [split]. by rewrite H. Qed.

Lemma split_bearer (token : string) :
  no_space token = true → split " " ("Bearer " +:+ token) = ["Bearer"; token].
Proof.
  intros H.
  change ("Bearer " +:+ token)
    with (String "B" (String "e" (String "a" (String "r" (String "e"
            (String "r" (String " " token))))))).
  rewrite !split_cons_other by reflexivity.
  change (split " " (String " " token)) with (EmptyString :: split " " token).
  by rewrite (split_no_space _ H).
Qed.

Lemma user_of_role (claims : Obj) : user_of claims !! "role" = claims !! "role".
Proof.
  unfold user_of. destruct (claims !! "role") as [v|] eqn:E.
  - by apply lookup_union_Some_l.
  - rewrite lookup_union_r by done. unfold object_of. cbn [foldr fst snd].
    unfold put. destruct (claims !! "email"), (or_else _ _);
      by rewrite ?lookup_insert_ne, lookup_empty.
Qed.

(** authenticateToken passes exactly the verified requests, attaching the
    user built from the claims; it answers every other request with an
    UnauthorizedError. It never touches the client. *)
Lemma authenticateToken_spec (jwt_verify : string → Verification)
    (req : Request) (db : Db) :
  (∃ claims, verified jwt_verify req claims
             ∧ authenticateToken jwt_verify req db
               = (Ok (with_user req (user_of claims)), db))
  ∨ ((∀ claims, ¬ verified jwt_verify req claims)
     ∧ ∃ m, authenticateToken jwt_verify req db = (Throw (UnauthorizedError m), db)).
Proof.
  unfold authenticateToken, verified.
  destruct (authorization req) as [h|] eqn:Eh;
    [|right; split; [by intros claims (t & [=] & _)|by eexists]].
  destruct (String.eqb_spec h "") as [->|Hne];
    [right; split; [by intros claims (t & [=] & _)|by eexists]|].
  assert (∀ t, Some h = Some ("Bearer " +:+ t) → no_space t = true →
               split " " h = ["Bearer"; t]) as Hshape.
  { intros t [= ->] Ht. by apply split_bearer. }
  destruct (split " " h) as [|scheme [|token [|x rest]]] eqn:Es.
  - by apply split_not_nil in Es.
  - right. split; [|by eexists].
    intros claims (t & Heq & Ht & _). by specialize (Hshape t Heq Ht).
  - destruct (String.eqb_spec scheme "Bearer") as [->|Hs]; simpl.
    + apply split_pair in Es as [-> Hns].
      destruct (jwt_verify token) as [claims| | |] eqn:Ev.
      * left. exists claims. split; [|done]. by exists token.
      * right. split; [|by eexists].
        intros claims (t & Heq & Ht & Hv).
        injection Heq as Heq. vm_compute in Heq. subst t. congruence.
      * right. split; [|by eexists].
        intros claims (t & Heq & Ht & Hv).
        injection Heq as Heq. vm_compute in Heq. subst t. congruence.
      * right. split; [|by eexists].
        intros claims (t & Heq & Ht & Hv).
        injection Heq as Heq. vm_compute in Heq. subst t. congruence.
    + right. split; [|by eexists].
      intros claims (t & Heq & Ht & _).
      specialize (Hshape t Heq Ht). by injection Hshape as -> _.
  - right. split; [|by eexists].
    intros claims (t & Heq & Ht & _). by specialize (Hshape t Heq Ht).
Qed.

(** requireAdmin passes a request whose user has the role "admin" and
    answers any other authenticated request with a ForbiddenError. *)
Lemma requireAdmin_spec (req : Request) (u : Obj) (db : Db) :
  user req = Some u →
  (u !! "role" = Some (VStr "admin") ∧ requireAdmin req db = (Ok req, db))
  ∨ (u !! "role" ≠ Some (VStr "admin")
     ∧ ∃ m, requireAdmin req db = (Throw (ForbiddenError m), db)).
Proof.
  intros Hu. unfold requireAdmin, requireRole. rewrite Hu.
  destruct (u !! "role") as [v|] eqn:E; [|right; split; [done|by eexists]].
  destruct v; try (right; split; [done|]; simpl; rewrite ?orb_true_r; by eexists).
  destruct (decide (s = "admin")) as [->|Hne].
  - left. done.
  - right. split; [congruence|]. unfold includes.
    rewrite (bool_decide_eq_false_2 (s ∈ ["admin"]));
      [|by intros ->%list_elem_of_singleton].
    simpl. rewrite orb_true_r. by eexists.
Qed.

Lemma handler_name_fresh (env : Env) (r : Route) :
  (handler env r).1 ∉ ["authenticateToken"; "requireAdmin"].
Proof. destruct r; apply (bool_decide_unpack _); by vm_compute. Qed.

Lemma verified_unique (jwt_verify : string → Verification) (req : Request)
    (c1 c2 : Obj) :
  verified jwt_verify req c1 → verified jwt_verify req c2 → c1 = c2.
Proof.
  intros (t & Ht & _ & Hd) (t' & Ht' & _ & Hd').
  rewrite Ht in Ht'. injection Ht' as Ht'. vm_compute in Ht'. subst t'.
  congruence.
Qed.

(** C9. On every book route: a request that is not verified (no header, a
    header that is not "Bearer <token>", or a token the verifier rejects as
    expired, malformed or otherwise) gets an UnauthorizedError from
    authenticateToken and nothing else runs; a verified request whose role
    claim is not "admin" gets a ForbiddenError from requireAdmin and the
    controller does not run; the controller runs only for a verified request
    whose role claim is "admin", and does run for it. Neither check touches
    the client. *)
Theorem bookRoutes_access_control (jwt_verify : string → Verification) (env : Env)
    (r : Route) (req : Request) (db : Db) :
  let e := bookRoutes jwt_verify env r req db in
  ((∀ claims, ¬ verified jwt_verify req claims) →
     (∃ m, outcome e = Throw (UnauthorizedError m))
     ∧ ran e = ["authenticateToken"] ∧ after e = db)
  ∧ (∀ claims, verified jwt_verify req claims →
       claims !! "role" ≠ Some (VStr "admin") →
       (∃ m, outcome e = Throw (ForbiddenError m))
       ∧ ran e = ["authenticateToken"; "requireAdmin"] ∧ after e = db)
  ∧ ((handler env r).1 ∈ ran e →
       ∃ claims, verified jwt_verify req claims
                 ∧ claims !! "role" = Some (VStr "admin"))
  ∧ (∀ claims, verified jwt_verify req claims →
       claims !! "role" = Some (VStr "admin") →
       ran e = ["authenticateToken"; "requireAdmin"; (handler env r).1]).
Proof.
  intros e. subst e. unfold bookRoutes, router_use.
  pose proof (handler_name_fresh env r) as Hfresh.
  destruct (authenticateToken_spec jwt_verify req db)
    as [(claims & Hv & Hauth)|(Hnv & m & Hauth)].
  - rewrite (dispatch_cons_ok _ _ _ _ _ _ _ _ Hauth).
    assert (user (with_user req (user_of claims)) = Some (user_of claims)) as Hu by done.
    destruct (requireAdmin_spec _ _ db Hu) as [[Hrole Hreq]|(Hrole & m & Hreq)];
      rewrite user_of_role in Hrole.
    + rewrite (dispatch_cons_ok _ _ _ _ _ _ _ _ Hreq).
      split; [intros Hn; by destruct (Hn claims)|].
      split.
      { intros claims' Hv' Hr'.
        by rewrite (verified_unique _ _ _ _ Hv' Hv) in Hr'. }
      split; [by exists claims|].
      intros _ _ _. unfold after_running. simpl.
      by destruct (handler env r) as [name h]; simpl; destruct (h _ db).
    + rewrite (dispatch_cons_throw _ _ _ _ _ _ _ _ Hreq).
      unfold after_running. simpl.
      split; [intros Hn; by destruct (Hn claims)|].
      split; [intros; split; [by eexists|done]|].
      split; [intros Hin; by destruct Hfresh|].
      intros claims' Hv' Hr'.
      by rewrite (verified_unique _ _ _ _ Hv' Hv) in Hr'.
  - rewrite (dispatch_cons_throw _ _ _ _ _ _ _ _ Hauth). simpl.
    split; [intros; split; [by eexists|done]|].
    split; [intros claims Hv; by destruct (Hnv claims)|].
    split; [|intros claims Hv; by destruct (Hnv claims)].
    intros Hin. destruct Hfresh.
    apply list_elem_of_singleton in Hin. rewrite Hin. apply list_elem_of_here.
Qed.

Lemma decoded_claims (v : Verification) :
  match v with Decoded _ => true | _ => false end = true →
  v = Decoded (match v with Decoded c => c | _ => ∅ end).
Proof. by destruct v. Qed.

Lemma bookRoutes_access_control_witness :
  ((∃ m, outcome (bookRoutes Samples.verify Samples.env1 DELETE_id
                    (Samples.request None ∅) Samples.db_dune)
         = Throw (UnauthorizedError m))
   ∧ ran (bookRoutes Samples.verify Samples.env1 DELETE_id
            (Samples.request None ∅) Samples.db_dune) = ["authenticateToken"]
   ∧ after (bookRoutes Samples.verify Samples.env1 DELETE_id
              (Samples.request None ∅) Samples.db_dune) = Samples.db_dune)
  ∧ ((∃ m, outcome (bookRoutes Samples.verify Samples.env1 DELETE_id
                      (Samples.request (Some "Bearer user-token") ∅) Samples.db_dune)
           = Throw (ForbiddenError m))
     ∧ ran (bookRoutes Samples.verify Samples.env1 DELETE_id
              (Samples.request (Some "Bearer user-token") ∅) Samples.db_dune)
       = ["authenticateToken"; "requireAdmin"]
     ∧ after (bookRoutes Samples.verify Samples.env1 DELETE_id
                (Samples.request (Some "Bearer user-token") ∅) Samples.db_dune)
       = Samples.db_dune)
  ∧ ran (bookRoutes Samples.verify Samples.env1 DELETE_id
           (Samples.as_admin ∅) Samples.db_dune)
    = ["authenticateToken"; "requireAdmin"; (handler Samples.env1 DELETE_id).1].
Proof.
  split; [|split].
  - apply (bookRoutes_access_control Samples.verify Samples.env1 DELETE_id
             (Samples.request None ∅) Samples.db_dune).
    intros claims (t & Ht & _). discriminate Ht.
  - apply (proj1 (proj2 (bookRoutes_access_control Samples.verify Samples.env1
                           DELETE_id (Samples.request (Some "Bearer user-token") ∅)
                           Samples.db_dune))
             (match Samples.verify "user-token" with Decoded c => c | _ => ∅ end)).
    + exists "user-token". split; [reflexivity|]. split; [reflexivity|].
      apply decoded_claims. vm_compute. reflexivity.
    + vm_compute. discriminate.
  - apply (proj2 (proj2 (proj2 (bookRoutes_access_control Samples.verify Samples.env1
                                  DELETE_id (Samples.as_admin ∅) Samples.db_dune)))
             (match Samples.verify "admin-token" with Decoded c => c | _ => ∅ end)).
    + exists "admin-token". split; [reflexivity|]. split; [reflexivity|].
      apply decoded_claims. vm_compute. reflexivity.
    + vm_compute. reflexivity.
Defined.

(** Expired, malformed and missing credentials on the sample verifier: each
    is answered by authenticateToken alone. *)
Example unauthorized_scenarios :
  let try (auth : option string) :=
    bookRoutes Samples.verify Samples.env1 GET_root (Samples.request auth ∅)
      Samples.db_dune in
  (outcome (try (Some "Bearer old-token")) = Throw (UnauthorizedError "Token has expired")
   ∧ ran (try (Some "Bearer old-token")) = ["authenticateToken"])
  ∧ (outcome (try (Some "Bearer garbage")) = Throw (UnauthorizedError "Invalid token")
     ∧ ran (try (Some "Bearer garbage")) = ["authenticateToken"])
  ∧ (outcome (try (Some "admin-token"))
     = Throw (UnauthorizedError
                "Invalid authorization header format. Use: Bearer <token>")
     ∧ ran (try (Some "admin-token")) = ["authenticateToken"])
  ∧ (outcome (try None) = Throw (UnauthorizedError "No authorization token provided")
     ∧ ran (try None) = ["authenticateToken"])
  ∧ (outcome (try (Some "Bearer user-token"))
     = Throw (ForbiddenError "Access denied. Required role: admin")
     ∧ ran (try (Some "Bearer user-token")) = ["authenticateToken"; "requireAdmin"]).
Proof. vm_compute. repeat split. Qed.

(** *** Query parameters of the list route *)

Lemma digits_Some (a : Z) (s : string) : ∃ n, digits (Some a) s = Some n.
Proof.
  revert a. induction s as [|c s IH]; intros a; simpl; [by eexists|].
  destruct (is_digit c); [apply IH|by eexists].
Qed.

Lemma digits_None (s : string) :
  digits None s = None
  ↔ match s with String c _ => is_digit c = false | EmptyString => True end.
Proof.
  destruct s as [|c s]; simpl; [done|].
  destruct (is_digit c); [|done].
  destruct (digits_Some (0 * 10 + digit_value c) s) as [n ->]. done.
Qed.

(** parseInt yields NaN exactly on an absent parameter and on a string that
    does not start with an integer. *)
Lemma parseInt_NaN (v : option string) :
  parseInt v = None
  ↔ match v with Some s => starts_with_integer s = false | None => True end.
Proof.
  destruct v as [s|]; [|done]. unfold parseInt, starts_with_integer.
  destruct (skip_spaces s) as [|c rest]; [done|].
  destruct (Ascii.eqb c "-"); simpl.
  { rewrite fmap_None, digits_None. by destruct rest. }
  destruct (Ascii.eqb c "+"); simpl.
  { rewrite digits_None. by destruct rest. }
  by rewrite (digits_None (String c rest)).
Qed.

Lemma flag_Some (x : option string) (b : bool) :
  flag x = Some b ↔ x = Some (flag_text b).
Proof.
  unfold flag, flag_text. destruct x as [s|]; [|by split].
  destruct (String.eqb_spec s "true") as [->|Ht].
  - destruct b; split; congruence.
  - destruct (String.eqb_spec s "false") as [->|Hf].
    + destruct b; split; congruence.
    + destruct b; split; congruence.
Qed.

(** A filter that is not set does not look at the column. *)
Lemma selected_ignores_isActive (o : Options) (row : Obj) (v : Value) :
  isActive o = None →
  selected o (<["isActive" := v]> row) = selected o row.
Proof.
  intros H. unfold selected, col_equals. rewrite H.
  by rewrite !lookup_insert_ne by done.
Qed.

Lemma selected_ignores_isFeatured (o : Options) (row : Obj) (v : Value) :
  isFeatured o = None →
  selected o (<["isFeatured" := v]> row) = selected o row.
Proof.
  intros H. unfold selected, col_equals. rewrite H.
  by rewrite !lookup_insert_ne by done.
Qed.

(** The rows a page holds are rows of the where clause. *)
Lemma book_findMany_matches (w : Where) (skip take : Z) (t : Tables)
    (rows : list Obj) (r : Obj) :
  book_findMany w skip take t = Ok rows → r ∈ rows → where_matches w r = true.
Proof.
  unfold book_findMany. destruct (where_fault w); [done|].
  destruct (negb (int64 skip) || (skip <? 0)%Z); [done|].
  destruct (negb (int64 take)); [done|].
  intros [= <-] Hin.
  assert (r ∈ merge_sort createdAt_desc (List.filter (where_matches w) (Book t)))
    as Hsorted.
  { destruct (0 <=? take)%Z.
    - by apply subseteq_take, subseteq_drop in Hin.
    - apply list_elem_of_In, in_rev, list_elem_of_In in Hin.
      apply subseteq_take, subseteq_drop in Hin.
      by apply list_elem_of_In, in_rev, list_elem_of_In in Hin. }
  rewrite merge_sort_Permutation in Hsorted.
  apply list_elem_of_In, List.filter_In in Hsorted. tauto.
Qed.

(** What a listing that returned holds. *)
Lemma getBooks_ok (options : Options) (db db' : Db) (result : BookList) :
  getBooks options db = (Ok result, db') →
  ∃ rows,
    book_findMany (build_where options)
      ((default 1%Z (page options) - 1) * default 20%Z (limit options))
      (default 20%Z (limit options)) (tables db) = Ok rows ∧
    books result = map (λ r, formatBookResponse (with_relations (tables db) r)) rows.
Proof.
  unfold getBooks, mbind, M_bind, Promise_all, prisma_findManyInclude, prisma_count.
  cbn [tables logged].
  destruct (book_findMany _ _ _ _) as [rows|e]; [|by intros [=]].
  destruct (book_count _ _) as [total|e]; [|by intros [=]].
  unfold mret, M_ret. intros [= <- _]. exists rows. split; [done|]. cbn.
  by rewrite <- list_fmap_compose.
Qed.

(** A column filter that is set holds of every book of the listing. *)
Lemma listed_column (options : Options) (db db' : Db) (result : BookList)
    (column : string) (b : bool) (book : ShapedBook) :
  column ∈ bookColumns →
  (∀ r, where_matches (build_where options) r = true →
        col_equals column (VBool b) r = true) →
  getBooks options db = (Ok result, db') →
  book ∈ books result →
  sb_fields book !! column = Some (VBool b).
Proof.
  intros Hcolumn Hw H Hin. apply getBooks_ok in H as (rows & Hrows & Hbooks).
  rewrite Hbooks in Hin. apply list_elem_of_fmap in Hin as (r & -> & Hr).
  rewrite formatBookResponse_field by done. cbn.
  pose proof (book_findMany_matches _ _ _ _ _ _ Hrows Hr) as Hm.
  apply Hw in Hm. unfold col_equals in Hm.
  destruct (r !! column) as [[]|]; try done.
  cbn in Hm. apply Bool.eqb_prop in Hm. by subst.
Qed.

Lemma list_ok (req : Request) (db db' : Db) (response : Response) :
  BookController.list req db = (Ok response, db') →
  ∃ result,
    getBooks (BookController.list_options req) db = (Ok result, db') ∧
    listed_books response = books result.
Proof.
  unfold BookController.list, mbind, M_bind.
  destruct (getBooks _ db) as [[result|e] db1]; [|by intros [=]].
  unfold mret, M_ret. intros [= <- <-]. by exists result.
Qed.

(** C10 (amended). The list controller sets the isActive (isFeatured) filter
    to a boolean exactly when the query parameter is the string "true" or
    "false". A filter that is set holds of every book the listing returns.
    With any other value the filter is left out: the filter predicate does
    not look at that column, and the call does what it does without the
    parameter, so that the value itself produces no error. page and limit
    are 1 and 20 when the parameter is absent, does not start with an
    integer (parseInt gives NaN) or parses to 0; otherwise they are the
    integer that parseInt reads at the start of the string (up to 2^53, from
    where a double rounds). *)
Theorem list_query_parameters (req : Request) :
  let o := BookController.list_options req in
  (∀ b, isActive o = Some b ↔ query req !! "isActive" = Some (flag_text b))
  ∧ (∀ b, isFeatured o = Some b ↔ query req !! "isFeatured" = Some (flag_text b))
  ∧ (∀ b db response db' book,
       query req !! "isActive" = Some (flag_text b) →
       BookController.list req db = (Ok response, db') →
       book ∈ listed_books response →
       sb_fields book !! "isActive" = Some (VBool b))
  ∧ (∀ b db response db' book,
       query req !! "isFeatured" = Some (flag_text b) →
       BookController.list req db = (Ok response, db') →
       book ∈ listed_books response →
       sb_fields book !! "isFeatured" = Some (VBool b))
  ∧ (isActive o = None →
       (∀ row v, selected o (<["isActive" := v]> row) = selected o row)
       ∧ ∀ db, BookController.list req db
               = BookController.list (without_query "isActive" req) db)
  ∧ (isFeatured o = None →
       (∀ row v, selected o (<["isFeatured" := v]> row) = selected o row)
       ∧ ∀ db, BookController.list req db
               = BookController.list (without_query "isFeatured" req) db)
  ∧ (match query req !! "page" with
     | Some s => starts_with_integer s = false
     | None => True
     end → page o = Some 1%Z)
  ∧ (match query req !! "limit" with
     | Some s => starts_with_integer s = false
     | None => True
     end → limit o = Some 20%Z)
  ∧ (∀ n, parseInt (query req !! "page") = Some n → (Z.abs n ≤ 2 ^ 53)%Z →
          page o = Some (if (n =? 0)%Z then 1%Z else n))
  ∧ (∀ n, parseInt (query req !! "limit") = Some n → (Z.abs n ≤ 2 ^ 53)%Z →
          limit o = Some (if (n =? 0)%Z then 20%Z else n)).
Proof.
  intros o.
  split; [intros b; apply flag_Some|].
  split; [intros b; apply flag_Some|].
  split.
  { intros b db response db' book Hq H Hin.
    apply list_ok in H as (result & H & Hbooks). rewrite Hbooks in Hin.
    apply (listed_column _ _ _ _ "isActive" b book) in H; try done.
    - by_names.
    - intros r. unfold where_matches, build_where. cbn [w_isActive isActive
        BookController.list_options]. apply flag_Some in Hq. rewrite Hq. cbn.
      rewrite !andb_true_iff. tauto. }
  split.
  { intros b db response db' book Hq H Hin.
    apply list_ok in H as (result & H & Hbooks). rewrite Hbooks in Hin.
    apply (listed_column _ _ _ _ "isFeatured" b book) in H; try done.
    - by_names.
    - intros r. unfold where_matches, build_where. cbn [w_isFeatured isFeatured
        BookController.list_options]. apply flag_Some in Hq. rewrite Hq. cbn.
      rewrite !andb_true_iff. tauto. }
  split.
  { intros H. split; [intros row v; by apply selected_ignores_isActive|].
    intros db. unfold BookController.list. f_equal.
    subst o. unfold BookController.list_options in *. cbn [isActive] in H.
    unfold without_query. cbn [query].
    rewrite lookup_delete_eq, !lookup_delete_ne by done. by rewrite H. }
  split.
  { intros H. split; [intros row v; by apply selected_ignores_isFeatured|].
    intros db. unfold BookController.list. f_equal.
    subst o. unfold BookController.list_options in *. cbn [isFeatured] in H.
    unfold without_query. cbn [query].
    rewrite lookup_delete_eq, !lookup_delete_ne by done. by rewrite H. }
  subst o. unfold BookController.list_options. cbn [page limit].
  split; [intros H; apply parseInt_NaN in H; by rewrite H|].
  split; [intros H; apply parseInt_NaN in H; by rewrite H|].
  split; intros n -> _; reflexivity.
Qed.

Lemma list_query_parameters_witness :
  page (BookController.list_options
          (Samples.with_query [("page", "abc"); ("isActive", "yes")])) = Some 1%Z
  ∧ limit (BookController.list_options
             (Samples.with_query [("page", "abc"); ("isActive", "yes")])) = Some 20%Z
  ∧ page (BookController.list_options (Samples.with_query [("page", "3")])) = Some 3%Z
  ∧ (∀ db,
       BookController.list (Samples.with_query [("page", "abc"); ("isActive", "yes")]) db
       = BookController.list
           (without_query "isActive"
              (Samples.with_query [("page", "abc"); ("isActive", "yes")])) db)
  ∧ (∀ book,
       book ∈ listed_books
                (match (BookController.list (Samples.with_query [("isActive", "false")])
                          Samples.db_dune).1 with
                 | Ok response => response
                 | Throw _ => mkResponse 0 DataNull ""
                 end) →
       sb_fields book !! "isActive" = Some (VBool false)).
Proof.
  pose proof (list_query_parameters
                (Samples.with_query [("page", "abc"); ("isActive", "yes")]))
    as (_ & _ & _ & _ & Hactive & _ & Hpage & Hlimit & _ & _).
  pose proof (list_query_parameters (Samples.with_query [("page", "3")]))
    as (_ & _ & _ & _ & _ & _ & _ & _ & Hparsed & _).
  pose proof (list_query_parameters (Samples.with_query [("isActive", "false")]))
    as (_ & _ & Hset & _).
  split; [apply Hpage; vm_compute; reflexivity|].
  split; [apply Hlimit; vm_compute; exact I|].
  split; [apply (Hparsed 3%Z); [vm_compute; reflexivity|apply Z.leb_le; vm_compute; reflexivity]|].
  split; [apply Hactive; vm_compute; reflexivity|].
  intros book.
  apply (Hset false Samples.db_dune _
           (BookController.list (Samples.with_query [("isActive", "false")])
              Samples.db_dune).2).
  - vm_compute. reflexivity.
  - apply (ok_result (BookController.list (Samples.with_query [("isActive", "false")])
                        Samples.db_dune)).
    vm_compute. reflexivity.
Defined.

(** C10, as stated, fails on values that are not numbers but start with
    one: they are not replaced by the defaults. *)
Lemma list_query_prefix_counterexample :
  let req := Samples.with_query [("page", "12abc"); ("limit", "7 per page")] in
  numeric "12abc" = false
  ∧ numeric "7 per page" = false
  ∧ page (BookController.list_options req) = Some 12%Z
  ∧ limit (BookController.list_options req) = Some 7%Z.
Proof. vm_compute. repeat split. Qed.

(* ===================================================================== *)
(** ** Further properties of the book service *)
(* ===================================================================== *)

(** *** Rows and identifiers *)

Lemma find_app_None {A : Type} (p : A → bool) (l1 l2 : list A) :
  List.find p l1 = None → List.find p (l1 ++ l2) = List.find p l2.
Proof.
  induction l1 as [|x l1 IH]; simpl; [done|].
  destruct (p x); [done|]. apply IH.
Qed.

Lemma col_str_lookup (r : Obj) (k s : string) :
  col_str r k = Some s ↔ r !! k = Some (VStr s).
Proof.
  unfold col_str. destruct (r !! k) as [v|]; [|by split].
  destruct v; split; intros [=]; by subst.
Qed.

Lemma has_id_col_equals (id : string) (r : Obj) :
  has_id id r = col_equals "id" (VStr id) r.
Proof.
  unfold has_id, col_equals, col_str.
  destruct (r !! "id") as [v|]; [|done].
  destruct v; try done. simpl.
  destruct (String.eqb_spec s id) as [->|Hne].
  - by apply bool_decide_eq_true_2.
  - apply bool_decide_eq_false_2. congruence.
Qed.

Lemma duplicate_column_None (row : Obj) (others : list Obj) (col : string) :
  duplicate_column row others = None → col ∈ uniqueColumns →
  collides col row others = false.
Proof.
  unfold duplicate_column, first_bad. intros H Hin.
  apply (find_none _ _ H). by apply list_elem_of_In.
Qed.

Lemma duplicate_column_Some (row : Obj) (others : list Obj) (col : string) :
  duplicate_column row others = Some col → collides col row others = true.
Proof. unfold duplicate_column, first_bad. intros H. by apply find_some in H as [_ H]. Qed.

(** No other row carries the identifier of a row that passed the unique
    check. *)
Lemma unique_id_not_found (row : Obj) (others : list Obj) (id : string) :
  duplicate_column row others = None → col_str row "id" = Some id →
  List.find (has_id id) others = None.
Proof.
  intros Hdup Hid.
  assert (collides "id" row others = false) as Hc.
  { apply (duplicate_column_None _ _ _ Hdup). apply (bool_decide_unpack _). by vm_compute. }
  unfold collides in Hc. apply col_str_lookup in Hid. rewrite Hid in Hc.
  clear Hdup Hid.
  induction others as [|r others IH]; simpl in *; [done|].
  apply orb_false_iff in Hc as [Hr Hc]. rewrite has_id_col_equals, Hr. by apply IH.
Qed.

(** What a successful [book_create] checked and did. *)
Lemma book_create_checked (env : Env) (data : Obj)
    (authors : option (list (Value * Z))) (categories : option (list (Value * bool)))
    (t t' : Tables) (row : Obj) :
  book_create env data authors categories t = Ok (row, t') →
  ∃ arows crows id,
    join_keys (default [] authors) = Some arows ∧
    join_keys (default [] categories) = Some crows ∧
    row = data ∪ book_defaults env ∧
    col_str row "id" = Some id ∧
    unknown_column data = None ∧
    null_column row = None ∧
    duplicate_column row (Book t) = None ∧
    known arows.*1 (Author t) = true ∧
    known crows.*1 (Category t) = true ∧
    NoDup arows.*1 ∧ NoDup crows.*1 ∧
    t' = {| Book := Book t ++ [row];
            Author := Author t;
            Category := Category t;
            BookAuthors := BookAuthors t ++ map (λ a, mkBookAuthor id a.1 a.2) arows;
            BookCategories :=
              BookCategories t ++ map (λ c, mkBookCategory id c.1 c.2) crows |}.
Proof.
  unfold book_create.
  destruct (unknown_column data) eqn:Eu; [done|].
  destruct (join_keys (default [] authors)) as [arows|]; [|done].
  destruct (join_keys (default [] categories)) as [crows|]; [|done].
  destruct (null_column _) eqn:En; [done|].
  destruct (col_str _ "id") as [id|] eqn:Eid; [|done].
  destruct (duplicate_column _ _) eqn:Ed; [done|].
  destruct (known arows.*1 (Author t)) eqn:Ka; [|done].
  destruct (known crows.*1 (Category t)) eqn:Kc; [|done].
  simpl.
  destruct (bool_decide (NoDup arows.*1)) eqn:Na; [|done].
  destruct (bool_decide (NoDup crows.*1)) eqn:Nc; [|done].
  simpl. intros [= <- <-].
  apply bool_decide_eq_true in Na. apply bool_decide_eq_true in Nc.
  by exists arows, crows, id.
Qed.

Lemma created_row_id (env : Env) (bookData : Obj) :
  col_str (create_data bookData ∪ book_defaults env) "id" = Some (newId env).
Proof.
  apply col_str_lookup. rewrite lookup_union_r by apply create_data_no_id.
  apply book_defaults_id.
Qed.

(** X1. A createBook that returned can be read back: getBookById on the
    generated identifier returns the very same shaped book and leaves the
    tables alone. *)
Theorem createBook_then_getBookById (env : Env) (bookData : Obj) (db db' : Db)
    (shaped : ShapedBook) :
  createBook env bookData db = (Ok shaped, db') →
  ∃ db'', getBookById (newId env) db' = (Ok shaped, db'') ∧ tables db'' = tables db'.
Proof.
  intros H. apply createBook_ok in H as (aids & cids & row & _ & _ & Hcreate & ->).
  apply book_create_checked in Hcreate
    as (arows & crows & id & _ & _ & -> & Hid & _ & _ & Hdup & _ & _ & _ & _ & Ht).
  rewrite created_row_id in Hid. injection Hid as <-.
  assert (book_findUnique (newId env) (tables db')
          = Some (create_data bookData ∪ book_defaults env)) as Hfind.
  { unfold book_findUnique. rewrite Ht. cbn [Book].
    rewrite find_app_None
      by (eapply unique_id_not_found; [exact Hdup|apply created_row_id]).
    cbn [List.find]. unfold has_id. rewrite created_row_id.
    by rewrite bool_decide_eq_true_2. }
  eexists. unfold getBookById, mbind, M_bind, prisma_findUniqueInclude, logged.
  rewrite Hfind. cbn [fmap option_fmap option_map]. unfold mret, M_ret.
  split; reflexivity.
Qed.

Lemma createBook_then_getBookById_witness :
  ∃ db'',
    getBookById (newId Samples.env1)
      (createBook Samples.env1 Samples.with_relations_payload Samples.db0).2
    = (Ok (match (createBook Samples.env1 Samples.with_relations_payload Samples.db0).1 with
           | Ok b => b
           | Throw _ => mkShapedBook ∅ None None
           end), db'')
    ∧ tables db''
      = tables (createBook Samples.env1 Samples.with_relations_payload Samples.db0).2.
Proof.
  apply (createBook_then_getBookById Samples.env1 Samples.with_relations_payload
           Samples.db0).
  apply (ok_result (createBook Samples.env1 Samples.with_relations_payload Samples.db0)).
  vm_compute. reflexivity.
Defined.

(** *** What createBook stores *)

Lemma create_data_lookup (bookData : Obj) (k : string) (v : option Value) :
  (k, v) ∈
    [("isbn", bookData !! "isbn");
     ("isbn13", bookData !! "isbn13");
     ("title", bookData !! "title");
     ("subtitle", bookData !! "subtitle");
     ("description", bookData !! "description");
     ("publisher", bookData !! "publisher");
     ("publicationDate",
        Some (match bookData !! "publicationDate" with
              | Some d => if truthy (bookData !! "publicationDate") then VDate d else VNull
              | None => VNull
              end));
     ("edition", bookData !! "edition");
     ("language", Some (prop_default bookData "language" (VStr "en")));
     ("pageCount", bookData !! "pageCount");
     ("format", bookData !! "format");
     ("price", bookData !! "price");
     ("discountPrice", bookData !! "discountPrice");
     ("stockQuantity", Some (prop_default bookData "stockQuantity" (VNum 0)));
     ("coverImageUrl", bookData !! "coverImageUrl");
     ("previewUrl", bookData !! "previewUrl");
     ("additionalInfo", Some (prop_default bookData "additionalInfo" (VObj [])));
     ("isFeatured", Some (prop_default bookData "isFeatured" (VBool false)));
     ("isActive", Some (prop_default bookData "isActive" (VBool true)))] →
  create_data bookData !! k = v.
Proof.
  intros Hin. unfold create_data. apply object_of_lookup_in; [|exact Hin].
  cbn [fmap list_fmap fst]. by_names.
Qed.

Lemma create_data_copied (bookData : Obj) (k : string) :
  k ∈ copied_by_create → create_data bookData !! k = bookData !! k.
Proof.
  unfold copied_by_create. intros Hin.
  repeat (apply elem_of_cons in Hin as [->|Hin];
          [apply create_data_lookup; in_list|]).
  by apply elem_of_nil in Hin.
Qed.




Lemma book_defaults_lookup (env : Env) (k : string) (v : Value) :
  (k, v) ∈
    [("id", VStr (newId env)); ("isbn", VNull); ("isbn13", VNull);
     ("subtitle", VNull); ("publisher", VNull); ("publicationDate", VNull);
     ("edition", VNull); ("language", VStr "en"); ("pageCount", VNull);
     ("discountPrice", VNull); ("stockQuantity", VNum 0);
     ("previewUrl", VNull); ("averageRating", VNum 0);
     ("ratingsCount", VNum 0); ("additionalInfo", VObj []);
     ("isFeatured", VBool false); ("isActive", VBool true);
     ("createdAt", VDate (VNum (now env)));
     ("updatedAt", VDate (VNum (now env)))] →
  book_defaults env !! k = Some v.
Proof.
  intros Hin. unfold book_defaults. apply elem_of_list_to_map_1; [|exact Hin].
  cbn [fmap list_fmap fst]. by_names.
Qed.






(** X3. createBook looks at its payload only through the properties it
    destructures: two payloads that agree on them give the same result and
    the same client, whatever else they carry. *)
Theorem createBook_reads_only (env : Env) (b1 b2 : Obj) (db : Db) :
  (∀ k, k ∈ read_by_create → b1 !! k = b2 !! k) →
  createBook env b1 db = createBook env b2 db.
Proof.
  intros H. unfold createBook, create_data, prop_default.
  repeat match goal with
         | |- context [b1 !! ?k] =>
             rewrite (H k) by (unfold read_by_create; in_list)
         end.
  reflexivity.
Qed.

Lemma createBook_reads_only_witness :
  createBook Samples.env1 (<["id" := VStr "chosen"]> Samples.minimal) Samples.db0
  = createBook Samples.env1 Samples.minimal Samples.db0.
Proof.
  apply createBook_reads_only. intros k Hk.
  apply lookup_insert_ne. intros <-. revert Hk. by_names.
Defined.

(** *** Failed writes *)

Lemma create_from_threw (env : Env) (bookData : Obj) (db : Db) :
  threw (create_from env bookData db).1 = true →
  tables (create_from env bookData db).2 = tables db.
Proof.
  destruct (create_from env bookData db) as [r db'] eqn:E. revert E.
  unfold create_from. unfold mbind at 1, M_bind at 1, lift.
  destruct (js_ids "authorIds" _) as [aids|e]; [|by intros [= <- <-]].
  unfold mbind at 1, M_bind at 1.
  destruct (js_ids "categoryIds" _) as [cids|e]; [|by intros [= <- <-]].
  unfold mbind at 1, M_bind at 1, prisma_createInclude, logged.
  cbv zeta. cbn [tables calls].
  destruct (book_create _ _ _ _ _) as [[row t']|e]; simpl; by intros [= <- <-].
Qed.

(** X4. A createBook, updateBook or deleteBook that throws, for whatever
    reason, leaves every table as it was: no Book row without its join rows,
    no join row without its Book. *)
Theorem failed_write_changes_nothing (env : Env) (id : string)
    (bookData updateData : Obj) (db : Db) :
  (threw (createBook env bookData db).1 = true →
     tables (createBook env bookData db).2 = tables db)
  ∧ (threw (updateBook env id updateData db).1 = true →
       tables (updateBook env id updateData db).2 = tables db)
  ∧ (threw (deleteBook id db).1 = true → tables (deleteBook id db).2 = tables db).
Proof.
  split; [|split].
  - rewrite createBook_unfold.
    destruct (truthy _ || truthy _).
    + destruct (book_findFirst _ _); [done|].
      intros H. exact (create_from_threw env bookData _ H).
    + apply create_from_threw.
  - destruct (updateBook env id updateData db) as [r db'] eqn:E. revert E.
    unfold updateBook. unfold mbind at 1, M_bind at 1, prisma_findUnique, logged.
    destruct (book_findUnique id (tables db)); [|by intros [= <- <-]].
    unfold mbind at 1, M_bind at 1, prisma_updateInclude, logged.
    cbv zeta. cbn [tables calls].
    destruct (book_update _ _ _ _) as [[row t']|e]; simpl; by intros [= <- <-].
  - destruct (deleteBook id db) as [r db'] eqn:E. revert E.
    unfold deleteBook. unfold mbind at 1, M_bind at 1, prisma_findUnique, logged.
    destruct (book_findUnique id (tables db)); [|by intros [= <- <-]].
    unfold prisma_delete, logged. cbv zeta. cbn [tables calls].
    destruct (book_delete _ _) as [t'|e]; simpl; by intros [= <- <-].
Qed.

Lemma failed_write_changes_nothing_witness :
  tables (createBook Samples.env2 (Samples.with_isbn "0306406152") Samples.db_isbn).2
  = tables Samples.db_isbn
  ∧ tables (updateBook Samples.env2 "b1" Samples.null_title Samples.db_dune).2
    = tables Samples.db_dune
  ∧ tables (deleteBook "nobody" Samples.db_dune).2 = tables Samples.db_dune.
Proof.
  pose proof (failed_write_changes_nothing Samples.env2 "b1"
                (Samples.with_isbn "0306406152") Samples.null_title Samples.db_isbn)
    as (Hc & _ & _).
  pose proof (failed_write_changes_nothing Samples.env2 "b1"
                Samples.minimal Samples.null_title Samples.db_dune)
    as (_ & Hu & _).
  pose proof (failed_write_changes_nothing Samples.env2 "nobody"
                Samples.minimal Samples.null_title Samples.db_dune)
    as (_ & _ & Hd).
  split; [|split].
  - apply Hc. vm_compute. reflexivity.
  - apply Hu. vm_compute. reflexivity.
  - apply Hd. vm_compute. reflexivity.
Defined.

(** *** The duplicate check and the unique indexes *)

Lemma book_create_unique (env : Env) (data : Obj)
    (authors : option (list (Value * Z))) (categories : option (list (Value * bool)))
    (t : Tables) (col : string) :
  book_create env data authors categories t = Throw (StoreError (UniqueConstraint col)) →
  col ∈ ["isbn"; "isbn13"] →
  collides col (data ∪ book_defaults env) (Book t) = true.
Proof.
  unfold book_create. intros H Hcol.
  destruct (unknown_column data); [done|].
  destruct (join_keys (default [] authors)) as [arows|]; [|done].
  destruct (join_keys (default [] categories)) as [crows|]; [|done].
  destruct (null_column _); [done|].
  destruct (col_str _ "id"); [|done].
  destruct (duplicate_column _ _) eqn:Ed.
  { injection H as ->. by apply duplicate_column_Some. }
  destruct (known arows.*1 (Author t)); [|done].
  destruct (known crows.*1 (Category t)); [|done].
  destruct (bool_decide (NoDup arows.*1)); simpl in H.
  2:{ injection H as <-. revert Hcol. by_names. }
  destruct (bool_decide (NoDup crows.*1)); simpl in H; [done|].
  injection H as <-. revert Hcol. by_names.
Qed.

Lemma create_from_unique (env : Env) (bookData : Obj) (db : Db) (col : string) :
  (create_from env bookData db).1 = Throw (StoreError (UniqueConstraint col)) →
  col ∈ ["isbn"; "isbn13"] →
  collides col (create_data bookData ∪ book_defaults env) (Book (tables db)) = true.
Proof.
  unfold create_from. unfold mbind at 1, M_bind at 1, lift.
  destruct (js_ids "authorIds" _) as [aids|e] eqn:Ea.
  2:{ simpl. intros [= ->]. revert Ea. unfold js_ids. repeat case_match; done. }
  unfold mbind at 1, M_bind at 1.
  destruct (js_ids "categoryIds" _) as [cids|e] eqn:Ec.
  2:{ simpl. intros [= ->]. revert Ec. unfold js_ids. repeat case_match; done. }
  unfold mbind at 1, M_bind at 1, prisma_createInclude, logged.
  cbv zeta. cbn [tables calls].
  destruct (book_create _ _ _ _ _) as [[row t']|e] eqn:Eb; simpl; [done|].
  intros [= ->]. by apply (book_create_unique _ _ _ _ _ _ Eb).
Qed.

Lemma created_isbn_column (env : Env) (bookData : Obj) (col : string) :
  col ∈ ["isbn"; "isbn13"] →
  (create_data bookData ∪ book_defaults env) !! col
  = Some (default VNull (bookData !! col)).
Proof.
  intros Hcol.
  assert (col ∈ copied_by_create) as Hc.
  { apply elem_of_cons in Hcol as [->|Hcol]; [unfold copied_by_create; in_list|].
    apply elem_of_cons in Hcol as [->|Hcol]; [unfold copied_by_create; in_list|].
    by apply elem_of_nil in Hcol. }
  assert (book_defaults env !! col = Some VNull) as Hd.
  { apply elem_of_cons in Hcol as [->|Hcol]; [apply book_defaults_lookup; in_list|].
    apply elem_of_cons in Hcol as [->|Hcol]; [apply book_defaults_lookup; in_list|].
    by apply elem_of_nil in Hcol. }
  rewrite lookup_union, (create_data_copied _ _ Hc), Hd.
  by destruct (bookData !! col).
Qed.

Lemma precheck_no_collision (bookData : Obj) (t : Tables) (col : string) (v : Value) :
  col ∈ ["isbn"; "isbn13"] → bookData !! col = Some v → truthy (Some v) = true →
  book_findFirst (isbn_conditions bookData) t = None →
  existsb (col_equals col v) (Book t) = false.
Proof.
  intros Hcol Hv Ht Hnone. unfold book_findFirst in Hnone.
  assert ((col, v) ∈ isbn_conditions bookData) as Hin.
  { unfold isbn_conditions, cond_if_truthy.
    apply elem_of_cons in Hcol as [->|Hcol].
    - rewrite Hv, Ht. apply elem_of_app. left. apply list_elem_of_here.
    - apply elem_of_cons in Hcol as [->|Hcol]; [|by apply elem_of_nil in Hcol].
      rewrite Hv, Ht. apply elem_of_app. right. apply list_elem_of_here. }
  apply not_true_is_false. intros Hex.
  apply existsb_exists in Hex as (r & Hr & Heq).
  pose proof (find_none _ _ Hnone r Hr) as Hf. simpl in Hf.
  apply not_true_iff_false in Hf. apply Hf.
  apply existsb_exists. exists (col, v). split; [by apply list_elem_of_In|done].
Qed.

Lemma createBook_among_unfold (others : Tables → Tables) (env : Env)
    (bookData : Obj) (db : Db) :
  createBook_among others env bookData db =
    if truthy (bookData !! "isbn") || truthy (bookData !! "isbn13") then
      match book_findFirst (isbn_conditions bookData) (tables db) with
      | Some _ =>
          (Throw (ConflictError "A book with this ISBN already exists"),
           mkDb (others (tables db))
             (calls db ++ [CallFindFirst (isbn_conditions bookData)]))
      | None =>
          create_from env bookData
            (mkDb (others (tables db))
               (calls db ++ [CallFindFirst (isbn_conditions bookData)]))
      end
    else create_from env bookData db.
Proof.
  unfold createBook_among, create_from, isbn_conditions.
  unfold mbind at 1, M_bind at 1.
  destruct (truthy (bookData !! "isbn") || truthy (bookData !! "isbn13")).
  - unfold mbind at 1, M_bind at 1, prisma_findFirst, logged.
    unfold mbind at 1, M_bind at 1, meanwhile. cbn [tables calls].
    destruct (book_findFirst _ (tables db)); reflexivity.
  - reflexivity.
Qed.

(** With no one else at the store, the call is createBook. *)
Lemma createBook_alone (env : Env) (bookData : Obj) (db : Db) :
  createBook_among (λ t, t) env bookData db = createBook env bookData db.
Proof. by rewrite createBook_among_unfold, createBook_unfold. Qed.

(** X5. createBook looks a duplicate up and then inserts, with no
    transaction around the two. Take a payload whose isbn and isbn13 are each
    null, undefined or truthy, and let no other client store a book with
    one of these numbers between the lookup and the insert. Then the
    lookup covers both unique indexes: a duplicate is reported as the
    ConflictError, and createBook does not fail on the unique index of isbn
    or of isbn13. *)
Theorem createBook_precheck_covers_index (others : Tables → Tables) (env : Env)
    (bookData : Obj) (db : Db) (col : string) :
  null_or_truthy (bookData !! "isbn") = true →
  null_or_truthy (bookData !! "isbn13") = true →
  (book_findFirst (isbn_conditions bookData) (tables db) = None →
   book_findFirst (isbn_conditions bookData) (others (tables db)) = None) →
  col ∈ ["isbn"; "isbn13"] →
  (createBook_among others env bookData db).1 ≠ Throw (StoreError (UniqueConstraint col)).
Proof.
  intros Hi Hi13 Hquiet Hcol Hthrow.
  assert (null_or_truthy (bookData !! col) = true) as Hn.
  { apply elem_of_cons in Hcol as [->|Hcol]; [done|].
    apply elem_of_cons in Hcol as [->|Hcol]; [done|]. by apply elem_of_nil in Hcol. }
  assert (∃ t,
            collides col (create_data bookData ∪ book_defaults env) (Book t) = true
            ∧ (truthy (bookData !! "isbn") || truthy (bookData !! "isbn13") = true →
               book_findFirst (isbn_conditions bookData) t = None))
    as (t & Hc & Hfind).
  { rewrite createBook_among_unfold in Hthrow.
    destruct (truthy (bookData !! "isbn") || truthy (bookData !! "isbn13")).
    - destruct (book_findFirst _ (tables db)) eqn:Efirst; [done|].
      exists (others (tables db)). split; [|by auto].
      by apply (create_from_unique _ _ _ _ Hthrow).
    - exists (tables db). split; [|done]. by apply (create_from_unique _ _ _ _ Hthrow). }
  unfold collides in Hc. rewrite (created_isbn_column _ _ _ Hcol) in Hc.
  destruct (bookData !! col) as [v|] eqn:Ev; [|done]. simpl in Hc.
  unfold null_or_truthy in Hn. apply orb_true_iff in Hn as [Hnull|Htruthy].
  { destruct v; done. }
  assert (existsb (col_equals col v) (Book t) = false) as Hno.
  { apply (precheck_no_collision bookData _ _ _ Hcol Ev Htruthy).
    apply Hfind.
    apply elem_of_cons in Hcol as [->|Hcol].
    - rewrite Ev, Htruthy. done.
    - apply elem_of_cons in Hcol as [->|Hcol]; [|by apply elem_of_nil in Hcol].
      rewrite Ev, Htruthy. apply orb_true_r. }
  destruct v; congruence.
Qed.

Lemma createBook_precheck_covers_index_witness :
  (createBook_among (inserts Samples.env1 Samples.minimal) Samples.env2
     (Samples.with_isbn "0306406152") Samples.db0).1
  ≠ Throw (StoreError (UniqueConstraint "isbn")).
Proof.
  apply createBook_precheck_covers_index.
  - vm_compute. reflexivity.
  - vm_compute. reflexivity.
  - intros _. vm_compute. reflexivity.
  - in_list.
Defined.

(** The race that the hypothesis of X5 excludes: another client stores a
    book with the same isbn after the lookup found none, and the insert
    fails on the unique index. *)
Example createBook_race :
  (createBook_among (inserts Samples.env1 (Samples.with_isbn "0306406152"))
     Samples.env2 (Samples.with_isbn "0306406152") Samples.db0).1
  = Throw (StoreError (UniqueConstraint "isbn")).
Proof. vm_compute. reflexivity. Qed.

(** *** Reading back an update *)

(** What a successful [book_update] checked and did. *)
Lemma book_update_checked (env : Env) (id : string) (data : Obj) (t t' : Tables)
    (row : Obj) :
  book_update env id data t = Ok (row, t') →
  ∃ old,
    book_findUnique id t = Some old ∧
    ((data = ∅ ∧ row = old ∧ t' = t) ∨
     (data ≠ ∅ ∧
      row = data ∪ <["updatedAt" := VDate (VNum (now env))]> old ∧
      ∃ id',
        col_str row "id" = Some id' ∧
        unknown_column data = None ∧
        null_column row = None ∧
        duplicate_column row (List.filter (λ r, negb (has_id id r)) (Book t)) = None ∧
        t' = {| Book := map (λ r, if has_id id r then row else r) (Book t);
                Author := Author t;
                Category := Category t;
                BookAuthors := map (rekey_author id id') (BookAuthors t);
                BookCategories := map (rekey_category id id') (BookCategories t) |})).
Proof.
  unfold book_update.
  destruct (book_findUnique id t) as [old|]; [|done].
  destruct (bool_decide_reflect (dom data = ∅)) as [Hd|Hd].
  { intros [= <- <-]. exists old. split; [done|]. left.
    by apply dom_empty_iff_L in Hd. }
  destruct (unknown_column data) eqn:Eu; [done|].
  destruct (null_column _) eqn:En; [done|].
  destruct (col_str _ "id") as [id'|] eqn:Eid; [|done].
  destruct (duplicate_column _ _) eqn:Ed; [done|].
  intros [= <- <-]. exists old. split; [done|]. right.
  split; [by rewrite <- dom_empty_iff_L|]. split; [done|]. by exists id'.
Qed.

Lemma find_replaced (id id' : string) (row old : Obj) (l : list Obj) :
  List.find (has_id id) l = Some old →
  List.find (has_id id') (List.filter (λ r, negb (has_id id r)) l) = None →
  has_id id' row = true →
  List.find (has_id id') (map (λ r, if has_id id r then row else r) l) = Some row.
Proof.
  intros Hold Hothers Hrow.
  induction l as [|r l IH]; simpl in *; [done|].
  destruct (has_id id r) eqn:E; simpl in *.
  - by rewrite Hrow.
  - destruct (has_id id' r); [done|]. by apply IH.
Qed.

(** X6. An updateBook that returned can be read back: the shaped book
    carries the identifier the row now has (the old one unless the update
    names id), and getBookById on that identifier returns the very same
    shaped book and leaves the tables alone. *)
Theorem updateBook_then_getBookById (env : Env) (id : string) (updateData : Obj)
    (db db' : Db) (shaped : ShapedBook) :
  updateBook env id updateData db = (Ok shaped, db') →
  ∃ id' db'',
    sb_fields shaped !! "id" = Some (VStr id') ∧
    (updateData !! "id" = None → id' = id) ∧
    getBookById id' db' = (Ok shaped, db'') ∧
    tables db'' = tables db'.
Proof.
  intros H. apply updateBook_ok in H as (row & Hupd & ->).
  apply book_update_checked in Hupd as (old & Hold & Hcases).
  destruct Hcases as [(_ & -> & Ht)|(_ & Hrow & id' & Hid & _ & _ & Hdup & Ht)].
  { (* nothing to write *)
    pose proof (book_findUnique_Some _ _ _ Hold) as [_ Hoid].
    exists id. eexists. split; [|split; [done|split]].
    - rewrite formatBookResponse_field by (apply (bool_decide_unpack _); by vm_compute).
      cbn [with_relations br_row]. by apply col_str_lookup.
    - assert (book_findUnique id (tables db') = Some old) as Hfind
        by (by rewrite Ht).
      unfold getBookById, mbind, M_bind, prisma_findUniqueInclude, logged.
      rewrite Hfind. cbn [fmap option_fmap option_map]. unfold mret, M_ret.
      reflexivity.
    - reflexivity. }
  exists id'. eexists. split; [|split; [|split]].
  - rewrite formatBookResponse_field by (apply (bool_decide_unpack _); by vm_compute).
    cbn [with_relations br_row]. by apply col_str_lookup.
  - intros Hnone. apply book_findUnique_Some in Hold as [_ Hoid].
    apply col_str_lookup in Hid, Hoid. rewrite Hrow in Hid.
    rewrite lookup_union_r in Hid.
    + rewrite lookup_insert_ne in Hid by done. congruence.
    + rewrite update_data_lookup; [done|]. apply (bool_decide_unpack _). by vm_compute.
  - assert (book_findUnique id' (tables db') = Some row) as Hfind.
    { unfold book_findUnique. rewrite Ht. cbn [Book].
      apply (find_replaced _ _ _ old); [exact Hold| |].
      - by eapply unique_id_not_found.
      - unfold has_id. by apply bool_decide_eq_true_2. }
    unfold getBookById, mbind, M_bind, prisma_findUniqueInclude, logged.
    rewrite Hfind. cbn [fmap option_fmap option_map]. unfold mret, M_ret.
    reflexivity.
  - reflexivity.
Qed.

Lemma updateBook_then_getBookById_witness :
  ∃ id' db'',
    sb_fields (match (updateBook Samples.env2 "b1" Samples.new_id Samples.db_dune).1 with
               | Ok b => b
               | Throw _ => mkShapedBook ∅ None None
               end) !! "id" = Some (VStr id') ∧
    (Samples.new_id !! "id" = None → id' = "b1") ∧
    getBookById id' (updateBook Samples.env2 "b1" Samples.new_id Samples.db_dune).2
    = (Ok (match (updateBook Samples.env2 "b1" Samples.new_id Samples.db_dune).1 with
           | Ok b => b
           | Throw _ => mkShapedBook ∅ None None
           end), db'') ∧
    tables db'' = tables (updateBook Samples.env2 "b1" Samples.new_id Samples.db_dune).2.
Proof.
  apply (updateBook_then_getBookById Samples.env2 "b1" Samples.new_id Samples.db_dune).
  apply (ok_result (updateBook Samples.env2 "b1" Samples.new_id Samples.db_dune)).
  vm_compute. reflexivity.
Defined.

(** *** What deleteBook removes *)

Lemma deleteBook_ok (id : string) (db db' : Db) :
  deleteBook id db = (Ok tt, db') → book_delete id (tables db) = Ok (tables db').
Proof.
  unfold deleteBook. run.
  destruct (book_findUnique id (tables db)) eqn:E; simpl; [|by intros [=]].
  destruct (book_delete id (tables db)) as [t'|e] eqn:D; simpl; [|by intros [=]].
  by intros [= <-].
Qed.

Lemma has_id_inj (r : Obj) (a b : string) :
  has_id a r = true → has_id b r = true → a = b.
Proof.
  unfold has_id. intros Ha Hb.
  apply bool_decide_eq_true in Ha, Hb. congruence.
Qed.

Lemma find_filter_other (id other : string) (l : list Obj) :
  other ≠ id →
  List.find (has_id other) (List.filter (λ r, negb (has_id id r)) l)
  = List.find (has_id other) l.
Proof.
  intros Hne. induction l as [|r l IH]; simpl; [done|].
  destruct (has_id id r) eqn:E; simpl.
  - destruct (has_id other r) eqn:E'; [|done].
    destruct Hne. by apply (has_id_inj r).
  - by rewrite IH.
Qed.

Lemma filter_links_other {A : Type} (key : A → string) (id other : string)
    (l : list A) :
  other ≠ id →
  List.filter (λ x, String.eqb (key x) other)
    (List.filter (λ x, negb (String.eqb (key x) id)) l)
  = List.filter (λ x, String.eqb (key x) other) l.
Proof.
  intros Hne. induction l as [|x l IH]; simpl; [done|].
  destruct (String.eqb_spec (key x) id) as [Hid|Hid]; simpl.
  - destruct (String.eqb_spec (key x) other) as [Ho|Ho]; [congruence|done].
  - by rewrite IH.
Qed.

(** X7. A deleteBook that returned removed the links of that book and no
    others (the cascade of the two foreign keys), left the authors and the
    categories alone, and changed nothing about any other book: getBookById
    on another identifier gives the result it gave before. *)
Theorem deleteBook_removes_only_that_book (id other : string) (db db' : Db) :
  deleteBook id db = (Ok tt, db') →
  (∀ ba, ba ∈ BookAuthors (tables db')
         ↔ ba ∈ BookAuthors (tables db) ∧ ba_bookId ba ≠ id) ∧
  (∀ bc, bc ∈ BookCategories (tables db')
         ↔ bc ∈ BookCategories (tables db) ∧ bc_bookId bc ≠ id) ∧
  Author (tables db') = Author (tables db) ∧
  Category (tables db') = Category (tables db) ∧
  (other ≠ id → (getBookById other db').1 = (getBookById other db).1).
Proof.
  intros H. apply deleteBook_ok in H. unfold book_delete in H.
  destruct (book_findUnique id (tables db)); [|done].
  injection H as H. rewrite <- H. cbn [BookAuthors BookCategories Author Category].
  split; [|split; [|split; [done|split; [done|]]]].
  - intros ba. rewrite !list_elem_of_In, filter_In, negb_true_iff.
    by destruct (String.eqb_spec (ba_bookId ba) id); split; intros [? ?].
  - intros bc. rewrite !list_elem_of_In, filter_In, negb_true_iff.
    by destruct (String.eqb_spec (bc_bookId bc) id); split; intros [? ?].
  - intros Hne.
    unfold getBookById, mbind, M_bind, prisma_findUniqueInclude, logged.
    rewrite <- H. unfold book_findUnique. cbn [Book].
    rewrite (find_filter_other _ _ _ Hne).
    destruct (List.find (has_id other) (Book (tables db))) as [row|] eqn:Ef; [|done].
    cbn [fmap option_fmap option_map]. unfold mret, M_ret. cbn [fst].
    do 2 f_equal. unfold with_relations, authors_of, categories_of.
    cbn [BookAuthors BookCategories Author Category].
    assert (row_id row = other) as ->.
    { apply find_some in Ef as [_ Ef]. unfold has_id in Ef.
      apply bool_decide_eq_true in Ef. unfold row_id. by rewrite Ef. }
    by rewrite (filter_links_other ba_bookId _ _ _ Hne),
               (filter_links_other bc_bookId _ _ _ Hne).
Qed.

Lemma deleteBook_removes_only_that_book_witness :
  (∀ ba, ba ∈ BookAuthors (tables (deleteBook "b1" two_books).2)
         ↔ ba ∈ BookAuthors (tables two_books) ∧ ba_bookId ba ≠ "b1") ∧
  (∀ bc, bc ∈ BookCategories (tables (deleteBook "b1" two_books).2)
         ↔ bc ∈ BookCategories (tables two_books) ∧ bc_bookId bc ≠ "b1") ∧
  Author (tables (deleteBook "b1" two_books).2) = Author (tables two_books) ∧
  Category (tables (deleteBook "b1" two_books).2) = Category (tables two_books) ∧
  ("b2" ≠ "b1" →
   (getBookById "b2" (deleteBook "b1" two_books).2).1
   = (getBookById "b2" two_books).1).
Proof.
  apply (deleteBook_removes_only_that_book "b1" "b2" two_books).
  assert (∀ r : Result unit * Db,
            match r.1 with Ok _ => true | Throw _ => false end = true →
            r = (Ok tt, r.2)) as Hok.
  { intros [[[]|e] d]; simpl; [done|discriminate]. }
  apply (Hok (deleteBook "b1" two_books)). vm_compute. reflexivity.
Defined.

(** *** Pages of a listing *)







(** ** Further properties of the authentication middleware *)

Lemma optionalAuth_cases (jwt_verify : string → Verification)
    (req : Request) (db : Db) :
  match authenticateToken jwt_verify req db with
  | (Ok req', db') => optionalAuth jwt_verify req db = (Ok req', db) ∧ db' = db
  | (Throw e, db') =>
      optionalAuth jwt_verify req db = (Ok req, db) ∧ statusCode e = 401%Z ∧ db' = db
  end.
Proof.
  unfold authenticateToken, optionalAuth, throw, mret, M_ret.
  destruct (authorization req) as [h|]; [|done].
  destruct (String.eqb h ""); [done|].
  destruct (split " " h) as [|scheme [|token [|? ?]]]; try done.
  destruct (negb (String.eqb scheme "Bearer")); [done|].
  by destruct (jwt_verify token).
Qed.

(** X9. optionalAuth never rejects and never touches the store: where
    authenticateToken accepts, it hands on the same request with the same
    user attached; where authenticateToken rejects (always with status 401),
    it hands the request on exactly as it came. *)
Theorem optionalAuth_never_rejects (jwt_verify : string → Verification)
    (req : Request) (db : Db) :
  match authenticateToken jwt_verify req db with
  | (Ok req', _) => optionalAuth jwt_verify req db = (Ok req', db)
  | (Throw e, _) => optionalAuth jwt_verify req db = (Ok req, db) ∧ statusCode e = 401%Z
  end.
Proof.
  pose proof (optionalAuth_cases jwt_verify req db) as H.
  destruct (authenticateToken jwt_verify req db) as [[req'|e] db'].
  - by destruct H.
  - destruct H as (H & He & _). by split.
Qed.

(** X10. On a request that carries no user yet, optionalAuth followed by
    requireRole decides as authenticateToken followed by requireRole does:
    the same requests pass, with the same user attached, and a rejected
    request gets the same status code (401 without a verified token, 403
    for a role that is not allowed). *)
Theorem optionalAuth_then_requireRole (jwt_verify : string → Verification)
    (allowedRoles : AllowedRoles) (req : Request) (db : Db) :
  user req = None →
  match then_ (authenticateToken jwt_verify) (requireRole allowedRoles) req db with
  | (Ok req', db') =>
      then_ (optionalAuth jwt_verify) (requireRole allowedRoles) req db = (Ok req', db')
  | (Throw e, db') =>
      ∃ e', then_ (optionalAuth jwt_verify) (requireRole allowedRoles) req db
            = (Throw e', db')
            ∧ statusCode e' = statusCode e
  end.
Proof.
  intros Huser. unfold then_, mbind, M_bind.
  pose proof (optionalAuth_cases jwt_verify req db) as H.
  destruct (authenticateToken jwt_verify req db) as [[req'|e] db'] eqn:Ea.
  - destruct H as [H ->]. rewrite H.
    destruct (requireRole allowedRoles req' db) as [[r|e] d]; [done|].
    by exists e.
  - destruct H as (H & He & ->). rewrite H.
    unfold requireRole. rewrite Huser. unfold throw.
    eexists. split; [reflexivity|]. by rewrite He.
Qed.

Lemma optionalAuth_then_requireRole_witness :
  match then_ (authenticateToken Samples.verify) (requireRole (Roles ["admin"; "manager"]))
          (Samples.request (Some "Bearer user-token") ∅) Samples.db0 with
  | (Ok req', db') =>
      then_ (optionalAuth Samples.verify) (requireRole (Roles ["admin"; "manager"]))
        (Samples.request (Some "Bearer user-token") ∅) Samples.db0 = (Ok req', db')
  | (Throw e, db') =>
      ∃ e', then_ (optionalAuth Samples.verify) (requireRole (Roles ["admin"; "manager"]))
              (Samples.request (Some "Bearer user-token") ∅) Samples.db0
            = (Throw e', db')
            ∧ statusCode e' = statusCode e
  end.
Proof.
  apply (optionalAuth_then_requireRole Samples.verify (Roles ["admin"; "manager"])
           (Samples.request (Some "Bearer user-token") ∅) Samples.db0).
  reflexivity.
Defined.

(** ** Properties of the error middleware *)

(** X11. For every error of the five classes of errors.js that the services
    and the middleware throw, in every environment: errorHandler answers with
    the status and the code of the class (400 VALIDATION_ERROR, 404 NOT_FOUND,
    409 CONFLICT, 401 UNAUTHORIZED, 403 FORBIDDEN), with the error's own
    message (never the masked one; the default text for an empty message),
    with the field errors exactly for a ValidationError, and logs a
    warning. *)
Theorem errorHandler_app_errors (stack_of : Error → string)
    (fault_message : StoreFault → string) (fault_code : StoreFault → option string)
    (node_env rid : option string) (e : Error) :
  is_app_error e = true →
  let answer := errorHandler node_env rid (thrown stack_of fault_message fault_code e) in
  er_status answer.2 = statusCode e
  ∧ eb_code (er_error answer.2) = code_of e
  ∧ eb_message (er_error answer.2)
    = string_or_default (message_of_error e) "Internal Server Error"
  ∧ eb_errors (er_error answer.2)
    = match e with ValidationError _ errors => Some errors | _ => None end
  ∧ answer.1 = Warn ("[" +:+ code_of e +:+ "] "
                     +:+ string_or_default (message_of_error e) "Internal Server Error").
Proof. by destruct e. Qed.

Lemma errorHandler_app_errors_witness :
  er_status (errorHandler (Some "production") None
               (thrown (λ _, "at createBook") (λ _, "") (λ _, None)
                  (mkNotFound "Book" "b7"))).2 = statusCode (mkNotFound "Book" "b7")
  ∧ eb_message
      (er_error (errorHandler (Some "production") None
                   (thrown (λ _, "at createBook") (λ _, "") (λ _, None)
                      (mkNotFound "Book" "b7"))).2)
    = "Book with identifier 'b7' not found".
Proof.
  pose proof (errorHandler_app_errors (λ _, "at createBook") (λ _, "") (λ _, None)
                (Some "production") None (mkNotFound "Book" "b7") eq_refl)
    as (Hs & _ & Hm & _).
  split; [exact Hs|exact Hm].
Defined.

(** X12. What errorHandler keeps back. The stack is part of the answer in
    the development environment only. In production, an error that is not
    of the classes of errors.js (a store fault, a TypeError) is answered
    with status 500 and the fixed code and message: two such errors get the
    same answer, so nothing of the fault reaches the client. In any other
    environment the answer carries the fault's own message. *)
Theorem errorHandler_masks_in_production (stack_of : Error → string)
    (fault_message : StoreFault → string) (fault_code : StoreFault → option string)
    (node_env rid : option string) (e e' : Error) :
  let obj := thrown stack_of fault_message fault_code in
  (node_env ≠ Some "development" →
     eb_stack (er_error (errorHandler node_env rid (obj e)).2) = None)
  ∧ (is_app_error e = false → is_app_error e' = false →
       (errorHandler (Some "production") rid (obj e)).2
       = (errorHandler (Some "production") rid (obj e')).2
       ∧ er_status (errorHandler (Some "production") rid (obj e)).2 = 500%Z
       ∧ eb_message (er_error (errorHandler (Some "production") rid (obj e)).2)
         = "An unexpected error occurred")
  ∧ (is_app_error e = false → node_env ≠ Some "production" →
       th_message (obj e) ≠ "" →
       eb_message (er_error (errorHandler node_env rid (obj e)).2) = th_message (obj e)).
Proof.
  intros obj. split; [|split].
  - intros Hdev. unfold errorHandler. cbn [snd er_error eb_stack].
    by rewrite bool_decide_eq_false_2.
  - intros He He'. destruct e; try discriminate He; destruct e'; try discriminate He'; done.
  - intros He Hprod Hm. unfold errorHandler. cbn [snd er_error eb_message].
    rewrite (bool_decide_eq_false_2 _ Hprod), andb_false_r.
    unfold string_or_default. destruct (String.eqb_spec (th_message (obj e)) ""); done.
Qed.

Lemma errorHandler_masks_in_production_witness :
  eb_stack
    (er_error
       (errorHandler None None
          (thrown (λ _, "at createBook") (λ _, "Unique constraint failed")
             (λ _, Some "P2002") (StoreError (UniqueConstraint "isbn")))).2) = None
  ∧ eb_message
      (er_error
         (errorHandler None None
            (thrown (λ _, "at createBook") (λ _, "Unique constraint failed")
               (λ _, Some "P2002") (StoreError (UniqueConstraint "isbn")))).2)
    = th_message
        (thrown (λ _, "at createBook") (λ _, "Unique constraint failed")
           (λ _, Some "P2002") (StoreError (UniqueConstraint "isbn"))).
Proof.
  pose proof (errorHandler_masks_in_production (λ _, "at createBook")
                (λ _, "Unique constraint failed") (λ _, Some "P2002") None None
                (StoreError (UniqueConstraint "isbn")) (TypeError "x"))
    as (Hs & _ & Hm).
  split; [by apply Hs|by apply Hm].
Defined.

(** X13. The inline error middleware of the catalog application reads
    [err.status], which no class of errors.js sets: every error the services
    and the middleware throw, a NotFoundError or a ValidationError included,
    is answered with status 500, and with its own message. *)
Theorem inline_error_middleware_always_500 (stack_of : Error → string)
    (fault_message : StoreFault → string) (fault_code : StoreFault → option string)
    (e : Error) :
  let answer := inline_error_middleware (thrown stack_of fault_message fault_code e) in
  ir_status answer = 500%Z
  ∧ ir_error_status answer = 500%Z
  ∧ ir_message answer
    = string_or_default
        (Some (th_message (thrown stack_of fault_message fault_code e)))
        "Internal Server Error".
Proof. by destruct e. Qed.

(** ** Properties of the login service *)

Lemma login_returned (jwt_sign : Obj → option string) (payload : Obj)
    (session : Session) :
  login jwt_sign payload = Returned session →
  from_option loosely_admin false (payload !! "email") = true
  ∧ jwt_sign payload = Some (se_token session)
  ∧ se_email session = payload !! "email".
Proof.
  unfold login.
  destruct (from_option loosely_admin false (payload !! "email")); simpl; [|done].
  destruct (jwt_sign payload) as [t|]; [|done].
  by intros [= <-].
Qed.

(** X14. The role behind a login is the one its payload states. Take a
    login that returned, and a verifier that decodes the issued token to
    claims with the payload's role. On every book route, a request bearing
    that token reaches the controller when the login payload said role
    "admin", and is refused with a ForbiddenError, the store untouched, when
    it said anything else or nothing; the token is the signature of the whole
    payload, and the login looked at nothing but the email. *)
Theorem login_role_is_self_asserted (jwt_sign : Obj → option string)
    (jwt_verify : string → Verification) (env : Env) (r : Route)
    (payload claims : Obj) (session : Session) (req : Request) (db : Db) :
  login jwt_sign payload = Returned session →
  no_space (se_token session) = true →
  jwt_verify (se_token session) = Decoded claims →
  claims !! "role" = payload !! "role" →
  authorization req = Some ("Bearer " +:+ se_token session) →
  jwt_sign payload = Some (se_token session)
  ∧ (∀ other, other !! "email" = payload !! "email" →
       login jwt_sign other ≠ Raised (UnauthorizedError "Invalid credentials"))
  ∧ (payload !! "role" = Some (VStr "admin") →
       ran (bookRoutes jwt_verify env r req db)
       = ["authenticateToken"; "requireAdmin"; (handler env r).1])
  ∧ (payload !! "role" ≠ Some (VStr "admin") →
       (∃ m, outcome (bookRoutes jwt_verify env r req db) = Throw (ForbiddenError m))
       ∧ ran (bookRoutes jwt_verify env r req db) = ["authenticateToken"; "requireAdmin"]
       ∧ after (bookRoutes jwt_verify env r req db) = db).
Proof.
  intros Hlogin Hns Hverify Hrole Hauth.
  apply login_returned in Hlogin as (Hemail & Hsign & _).
  split; [exact Hsign|]. split.
  { intros other Hother. unfold login. rewrite Hother, Hemail. simpl.
    by destruct (jwt_sign other). }
  assert (verified jwt_verify req claims) as Hv by (by exists (se_token session)).
  unfold bookRoutes, router_use.
  destruct (authenticateToken_spec jwt_verify req db)
    as [(claims' & Hv' & Ha)|(Hnv & _)]; [|by destruct (Hnv claims)].
  rewrite (verified_unique _ _ _ _ Hv' Hv) in Ha. clear claims' Hv'.
  rewrite (dispatch_cons_ok _ _ _ _ _ _ _ _ Ha).
  assert (user (with_user req (user_of claims)) = Some (user_of claims)) as Hu by done.
  destruct (requireAdmin_spec _ _ db Hu) as [[Hr Hreq]|(Hr & m & Hreq)];
    rewrite user_of_role, Hrole in Hr.
  - rewrite (dispatch_cons_ok _ _ _ _ _ _ _ _ Hreq).
    split; [|done]. intros _. unfold after_running. simpl.
    by destruct (handler env r) as [name h]; simpl; destruct (h _ db).
  - rewrite (dispatch_cons_throw _ _ _ _ _ _ _ _ Hreq).
    split; [done|]. intros _. unfold after_running. simpl.
    split; [by eexists|done].
Qed.

Lemma login_role_is_self_asserted_witness :
  sample_sign credentials_with_role = Some "admin-token"
  ∧ ran (bookRoutes Samples.verify Samples.env1 DELETE_id
           (Samples.as_admin ∅) Samples.db_dune)
    = ["authenticateToken"; "requireAdmin"; (handler Samples.env1 DELETE_id).1].
Proof.
  pose proof (login_role_is_self_asserted sample_sign Samples.verify Samples.env1
                DELETE_id credentials_with_role
                (match Samples.verify "admin-token" with Decoded c => c | _ => ∅ end)
                (mkSession "admin-token" (Some (VStr "admin@bookzilla.com")))
                (Samples.as_admin ∅) Samples.db_dune) as H.
  destruct H as (Hs & _ & Hadmin & _).
  - vm_compute. reflexivity.
  - vm_compute. reflexivity.
  - apply decoded_claims. vm_compute. reflexivity.
  - vm_compute. reflexivity.
  - reflexivity.
  - split; [exact Hs|]. apply Hadmin. vm_compute. reflexivity.
Defined.

(** ** Further properties of the book rule sets *)

(** What a mounted rule set comes to: with entries, the ValidationError
    that carries them; without, the handler. *)
Lemma mounted_outcome {R : Type} (standard : Standard → string → bool)
    (ruleset : list Chain) (handler : string * (Request → M R))
    (req : Request) (db : Db) :
  contexts req = [] →
  let e := dispatch (mounted standard ruleset) handler req db in
  (entries standard ruleset req ≠ [] →
     outcome e
     = Throw (ValidationError "Validation failed" (entries standard ruleset req))
     ∧ ran e = map field ruleset ++ ["validate"]
     ∧ after e = db)
  ∧ (entries standard ruleset req = [] →
       outcome e = (handler.2 req db).1
       ∧ ran e = map field ruleset ++ ["validate"; handler.1]
       ∧ after e = (handler.2 req db).2).
Proof.
  intros Hctx e. subst e. unfold mounted, entries. rewrite dispatch_chains.
  split; intros Hf.
  - rewrite (dispatch_cons_throw "validate" validate [] handler _
               (ValidationError "Validation failed"
                  (map format_error (flat_map (chain_errors standard req) ruleset)))
               db db).
    + unfold after_running. simpl. done.
    + apply validate_throws.
      * simpl. rewrite Hctx. simpl. intros Hnil. apply Hf. by rewrite Hnil.
      * simpl. by rewrite Hctx.
  - apply map_eq_nil in Hf. rewrite Hf. rewrite record_errors_nil.
    rewrite (dispatch_cons_ok "validate" validate [] handler req req db db)
      by (by apply validate_passes).
    unfold after_running. simpl.
    destruct handler as [name h]. simpl. by destruct (h req db) as [r db'].
Qed.

Lemma rejected_recorded (standard : Standard → string → bool)
    (ruleset : list Chain) (req : Request) (c : Chain) (k : Check) (x : option Value) :
  c ∈ ruleset → k ∈ checks c → x ∈ rejected standard req (c, k) →
  format_error (raw_error req c k x) ∈ entries standard ruleset req.
Proof.
  intros Hc Hk Hx. unfold entries. rewrite recorded_errors_spec.
  apply list_elem_of_In, in_map. apply in_flat_map. exists (c, k). split.
  - unfold constraints. apply in_flat_map. exists c.
    split; [by apply list_elem_of_In|]. apply in_map. by apply list_elem_of_In.
  - apply in_map. by apply list_elem_of_In.
Qed.

Lemma recorded_entry (standard : Standard → string → bool)
    (ruleset : list Chain) (req : Request) (entry : FieldError) :
  entry ∈ entries standard ruleset req →
  ∃ c k x, c ∈ ruleset ∧ k ∈ checks c ∧ x ∈ rejected standard req (c, k)
           ∧ entry = format_error (raw_error req c k x).
Proof.
  unfold entries. rewrite recorded_errors_spec.
  intros Hin. apply list_elem_of_In, in_map_iff in Hin as (raw & <- & Hin).
  apply in_flat_map in Hin as ([c k] & Hin & Hraw).
  apply in_map_iff in Hraw as (x & <- & Hx).
  unfold constraints in Hin. apply in_flat_map in Hin as (c' & Hc' & Hin).
  apply in_map_iff in Hin as (k' & [= <- <-] & Hk').
  exists c', k', x. by rewrite !list_elem_of_In.
Qed.

(** A constraint rejects a value only when its chain applies, and the
    value is one its validator refuses. *)
Lemma rejected_inv (standard : Standard → string → bool) (req : Request)
    (c : Chain) (k : Check) (x : option Value) :
  x ∈ rejected standard req (c, k) →
  applies req c = true
  ∧ x ∈ judged (validator k) (field_value req c)
  ∧ holds standard (validator k) x = false.
Proof.
  unfold rejected. cbn [fst snd]. destruct (applies req c); [|by intros ?%elem_of_nil].
  intros Hx. apply list_elem_of_In, filter_In in Hx as [Hx Hh].
  apply negb_true_iff in Hh. by rewrite list_elem_of_In.
Qed.

(** X15. The creation rule set makes title, description, format, price and
    coverImageUrl required: a request on which one of them is undefined,
    null or the empty string is answered by validate with the
    ValidationError, which holds an entry for that field with its
    "is required" message; the handler does not run and the store is
    untouched. *)
Theorem createBookValidation_required_fields {R : Type}
    (standard : Standard → string → bool) (handler : string * (Request → M R))
    (req : Request) (db : Db) (f m : string) :
  contexts req = [] →
  (f, m) ∈ required_by_create →
  missing (body req !! f) = true →
  let e := dispatch (mounted standard createBookValidation) handler req db in
  ∃ errors entry,
    outcome e = Throw (ValidationError "Validation failed" errors)
    ∧ entry ∈ errors
    ∧ fe_field entry = Some f
    ∧ fe_message entry = m
    ∧ fe_value entry = body req !! f
    ∧ ran e = map field createBookValidation ++ ["validate"]
    ∧ after e = db.
Proof.
  intros Hctx Hf Hmissing e.
  assert (∃ c, c ∈ createBookValidation ∧ location c = InBody ∧ field c = f
               ∧ optional c = false
               ∧ mkCheck notEmpty (Some m) ∈ checks c) as (c & Hc & Hloc & Hfield & Hopt & Hk).
  { unfold required_by_create in Hf.
    apply elem_of_cons in Hf as [[= -> ->]|Hf].
    { exists (rules.requiredString "title" 500).
      split; [unfold createBookValidation; in_list|].
      repeat split; apply list_elem_of_here. }
    apply elem_of_cons in Hf as [[= -> ->]|Hf].
    { exists (mkChain InBody "description" false
                [mkCheck notEmpty (Some "Description is required");
                 mkCheck isString (Some "Description must be a string")]).
      split; [unfold createBookValidation; in_list|].
      repeat split; apply list_elem_of_here. }
    apply elem_of_cons in Hf as [[= -> ->]|Hf].
    { exists (rules.enum "format" BOOK_FORMATS true).
      split; [unfold createBookValidation; in_list|].
      repeat split; apply list_elem_of_here. }
    apply elem_of_cons in Hf as [[= -> ->]|Hf].
    { exists (rules.price "price").
      split; [unfold createBookValidation; in_list|].
      repeat split; apply list_elem_of_here. }
    apply elem_of_cons in Hf as [[= -> ->]|Hf].
    { exists (rules.url "coverImageUrl" true).
      split; [unfold createBookValidation; in_list|].
      repeat split; apply list_elem_of_here. }
    by apply elem_of_nil in Hf. }
  assert (body req !! f ∈ rejected standard req (c, mkCheck notEmpty (Some m))) as Hrej.
  { unfold rejected, applies, field_value. simpl. rewrite Hopt, Hloc, Hfield.
    unfold missing in Hmissing.
    destruct (body req !! f) as [[| | | |text| | |]|]; try done; simpl.
    - apply list_elem_of_here.
    - rewrite Hmissing. apply list_elem_of_here.
    - apply list_elem_of_here. }
  pose proof (rejected_recorded standard _ req c _ _ Hc Hk Hrej) as Hin.
  destruct (mounted_outcome standard createBookValidation handler req db Hctx)
    as [Hthrow _].
  destruct Hthrow as (Ho & Hr & Ha).
  { intros Hnil. rewrite Hnil in Hin. by apply elem_of_nil in Hin. }
  exists (entries standard createBookValidation req),
    (format_error (raw_error req c (mkCheck notEmpty (Some m)) (body req !! f))).
  split; [exact Ho|]. split; [exact Hin|].
  split.
  { unfold format_error, error_field, raw_error. simpl. rewrite Hfield.
    destruct (String.eqb_spec f "") as [->|]; [|done].
    exfalso. revert Hf. by_names. }
  split; [done|]. split; [done|]. by split.
Qed.

Lemma createBookValidation_required_fields_witness :
  let e := dispatch (mounted Samples.lenient createBookValidation)
             (handler Samples.env1 POST_root)
             (Samples.as_admin Samples.only_bad_isbn13) Samples.db0 in
  ∃ errors entry,
    outcome e = Throw (ValidationError "Validation failed" errors)
    ∧ entry ∈ errors
    ∧ fe_field entry = Some "price"
    ∧ fe_message entry = "Price is required"
    ∧ fe_value entry = body (Samples.as_admin Samples.only_bad_isbn13) !! "price"
    ∧ ran e = map field createBookValidation ++ ["validate"]
    ∧ after e = Samples.db0.
Proof.
  apply (createBookValidation_required_fields Samples.lenient
           (handler Samples.env1 POST_root)
           (Samples.as_admin Samples.only_bad_isbn13) Samples.db0
           "price" "Price is required").
  - reflexivity.
  - unfold required_by_create. in_list.
  - vm_compute. reflexivity.
Defined.

(** X16. The update rule set checks only what is sent: every entry of its
    ValidationError names the id parameter or a property that is present in
    the body, so a property left out is never an error; and a request with a
    valid id that sends none of the properties the rules name passes to the
    handler. *)
Theorem updateBookValidation_checks_what_is_sent {R : Type}
    (standard : Standard → string → bool) (handler : string * (Request → M R))
    (req : Request) (db : Db) :
  contexts req = [] →
  let e := dispatch (mounted standard updateBookValidation) handler req db in
  let errors := entries standard updateBookValidation req in
  (errors ≠ [] → outcome e = Throw (ValidationError "Validation failed" errors))
  ∧ (∀ entry, entry ∈ errors →
       fe_field entry = Some "id"
       ∨ ∃ f, fe_field entry = Some f ∧ is_Some (body req !! f))
  ∧ (standard (isUUID 4) (toString (VStr <$> params req !! "id")) = true →
     sends_none_of updateBookValidation req = true →
     errors = [] ∧ outcome e = (handler.2 req db).1).
Proof.
  intros Hctx e errors.
  destruct (mounted_outcome standard updateBookValidation handler req db Hctx)
    as [Hthrow Hpass].
  split; [intros Hne; by destruct (Hthrow Hne)|].
  assert (∀ c k x, c ∈ updateBookValidation → k ∈ checks c →
                 x ∈ rejected standard req (c, k) →
                 field c ≠ ""
                 ∧ ((c = rules.uuid "id" "param"
                     ∧ standard (isUUID 4) (toString (VStr <$> params req !! "id")) = false)
                    ∨ (location c = InBody ∧ is_Some (body req !! field c)))) as Hcase.
  { intros c k x Hc Hk Hrej. apply rejected_inv in Hrej as (Happlies & Hx & Hh).
    unfold updateBookValidation in Hc.
    apply elem_of_cons in Hc as [->|Hc].
    { split; [done|]. left. split; [done|].
      apply elem_of_cons in Hk as [->|Hk]; [|by apply elem_of_nil in Hk].
      cbn in Hx. unfold field_value in Hx. cbn in Hx.
      destruct (params req !! "id"); cbn in Hx;
        apply list_elem_of_singleton in Hx; by subst x. }
    assert (field c ≠ "" ∧ location c = InBody ∧ optional c = true) as (Hn & Hl & Ho).
    { repeat (apply elem_of_cons in Hc as [->|Hc]; [done|]).
      by apply elem_of_nil in Hc. }
    split; [done|]. right. split; [done|].
    unfold applies, field_value in Happlies.
    rewrite Ho, Hl in Happlies.
    by apply bool_decide_eq_true in Happlies. }
  split.
  - intros entry Hin.
    apply recorded_entry in Hin as (c & k & x & Hc & Hk & Hfails & ->).
    destruct (Hcase c k x Hc Hk Hfails) as [Hn [[-> _]|[Hl Hsome]]].
    + by left.
    + right. exists (field c). split; [|done].
      unfold format_error, error_field, raw_error. simpl.
      by destruct (String.eqb_spec (field c) "").
  - intros Hid Hnone.
    assert (errors = []) as Hnil.
    { destruct errors as [|entry rest] eqn:E; [done|]. exfalso.
      assert (entry ∈ entries standard updateBookValidation req) as Hin.
      { fold errors. rewrite E. apply list_elem_of_here. }
      apply recorded_entry in Hin as (c & k & x & Hc & Hk & Hfails & _).
      destruct (Hcase c k x Hc Hk Hfails) as [_ [[_ Hbad]|[Hl Hsome]]].
      - congruence.
      - unfold sends_none_of in Hnone. rewrite forallb_forall in Hnone.
        apply list_elem_of_In, Hnone in Hc. rewrite Hl in Hc.
        apply bool_decide_eq_true in Hc. rewrite Hc in Hsome. by destruct Hsome. }
    split; [done|]. by destruct (Hpass Hnil).
Qed.

Lemma updateBookValidation_checks_what_is_sent_witness :
  let req := Samples.as_admin Samples.only_bad_isbn13 in
  let e := dispatch (mounted Samples.lenient updateBookValidation)
             (handler Samples.env1 PUT_id) req Samples.db0 in
  let errors := entries Samples.lenient updateBookValidation req in
  (errors ≠ [] → outcome e = Throw (ValidationError "Validation failed" errors))
  ∧ (∀ entry, entry ∈ errors →
       fe_field entry = Some "id"
       ∨ ∃ f, fe_field entry = Some f ∧ is_Some (body req !! f))
  ∧ (Samples.lenient (isUUID 4) (toString (VStr <$> params req !! "id")) = true →
     sends_none_of updateBookValidation req = true →
     errors = [] ∧ outcome e = ((handler Samples.env1 PUT_id).2 req Samples.db0).1).
Proof.
  intros req e errors.
  apply (updateBookValidation_checks_what_is_sent Samples.lenient
           (handler Samples.env1 PUT_id) req Samples.db0).
  reflexivity.
Defined.

(** ** The authors of a created book *)

#[local] Instance authorOrder_asc_total : Total authorOrder_asc.
Proof. intros a b. unfold authorOrder_asc. lia. Qed.

#[local] Instance authorOrder_asc_trans : Transitive authorOrder_asc.
Proof. intros a b c. unfold authorOrder_asc. lia. Qed.

(** A list in strictly ascending order is the only ascending arrangement of
    its elements. *)
Lemma ascending_unique {A : Type} (key : A → Z) (l l' : list A) :
  StronglySorted (λ a b, (key a < key b)%Z) l →
  StronglySorted (λ a b, (key a ≤ key b)%Z) l' →
  l' ≡ₚ l → l' = l.
Proof.
  revert l'. induction l as [|x l IH]; intros l' Hl Hl' Hp.
  - by apply Permutation_nil_r in Hp.
  - destruct l' as [|y l']; [by apply Permutation_nil_cons in Hp|].
    apply StronglySorted_inv in Hl as [Hl Hx].
    apply StronglySorted_inv in Hl' as [Hl' Hy].
    assert (y = x) as ->.
    { assert (x ∈ y :: l') as Hxin by (rewrite Hp; apply list_elem_of_here).
      assert (y ∈ x :: l) as Hyin by (rewrite <- Hp; apply list_elem_of_here).
      apply elem_of_cons in Hxin as [->|Hxin]; [done|].
      apply elem_of_cons in Hyin as [->|Hyin]; [done|].
      rewrite Forall_forall in Hx, Hy.
      specialize (Hx _ Hyin). specialize (Hy _ Hxin). lia. }
    f_equal. apply IH; [done|done|]. by apply Permutation_cons_inv in Hp.
Qed.

Lemma merge_sort_ascending (l : list (BookAuthor * Obj)) :
  StronglySorted (λ a b, (authorOrder a.1 < authorOrder b.1)%Z) l →
  merge_sort authorOrder_asc l = l.
Proof.
  intros Hl.
  apply (ascending_unique (λ a : BookAuthor * Obj, authorOrder a.1) l _ Hl).
  - apply (Sorted_StronglySorted authorOrder_asc).
    apply Sorted_merge_sort. apply _.
  - apply merge_sort_Permutation.
Qed.

Lemma known_cons (s : string) (rest : list string) (table : list Obj) :
  known (s :: rest) table = true →
  (∃ row, List.find (has_id s) table = Some row ∧ row !! "id" = Some (VStr s))
  ∧ known rest table = true.
Proof.
  unfold known. simpl. intros [Hs Hrest]%andb_true_iff. split; [|done].
  destruct (List.find (has_id s) table) as [row|] eqn:E.
  - exists row. split; [done|]. apply find_some in E as [_ E].
    unfold has_id in E. apply bool_decide_eq_true in E. by apply col_str_lookup.
  - apply existsb_exists in Hs as (row & Hin & Hrow).
    by rewrite (find_none _ _ E row Hin) in Hrow.
Qed.

Lemma joined_new_links (t : Tables) (id : string) (ids : list string) (n : nat) :
  known (mapi_from (λ s i, (s, (Z.of_nat i + 1)%Z)) n ids).*1 (Author t) = true →
  omap (join_author t)
    (map (λ a : string * Z, mkBookAuthor id a.1 a.2)
       (mapi_from (λ s i, (s, (Z.of_nat i + 1)%Z)) n ids))
  = mapi_from (λ s i, (mkBookAuthor id s (Z.of_nat i + 1), author_named t s)) n ids
  ∧ map (λ ba : BookAuthor * Obj,
           mkAuthorRef (ba.2 !! "id") (ba.2 !! "name") (authorOrder ba.1))
      (mapi_from (λ s i, (mkBookAuthor id s (Z.of_nat i + 1), author_named t s)) n ids)
    = mapi_from (λ a i, mkAuthorRef (Some (VStr a)) (author_named t a !! "name")
                          (Z.of_nat i + 1)%Z) n ids.
Proof.
  revert n. induction ids as [|s ids IH]; intros n Hk; [done|].
  cbn [mapi_from fmap list_fmap fst] in Hk.
  apply known_cons in Hk as [(row & Hfind & Hrow) Hk].
  destruct (IH (S n) Hk) as [IH1 IH2].
  cbn [mapi_from map]. split.
  - csimpl. unfold join_author at 1. cbn [ba_authorId]. rewrite Hfind. csimpl.
    rewrite IH1. unfold author_named at 2. by rewrite Hfind.
  - cbn [fst snd authorOrder]. rewrite IH2. f_equal.
    unfold author_named. rewrite Hfind. simpl. by rewrite Hrow.
Qed.

Lemma new_links_ascending (t : Tables) (id : string) (ids : list string) (n : nat) :
  StronglySorted (λ a b : BookAuthor * Obj, (authorOrder a.1 < authorOrder b.1)%Z)
    (mapi_from (λ s i, (mkBookAuthor id s (Z.of_nat i + 1), author_named t s)) n ids).
Proof.
  revert n. induction ids as [|s ids IH]; intros n; [constructor|].
  cbn [mapi_from]. constructor; [apply IH|].
  apply Forall_lookup. intros i x Hx.
  rewrite mapi_from_lookup in Hx. destruct (ids !! i); [|done].
  injection Hx as <-. simpl. lia.
Qed.

Lemma filter_new_links (id : string) (old : list BookAuthor) (rows : list (string * Z)) :
  forallb (λ ba, negb (String.eqb (ba_bookId ba) id)) old = true →
  List.filter (λ ba, String.eqb (ba_bookId ba) id)
    (old ++ map (λ a : string * Z, mkBookAuthor id a.1 a.2) rows)
  = map (λ a : string * Z, mkBookAuthor id a.1 a.2) rows.
Proof.
  intros Hold. rewrite List.filter_app.
  replace (List.filter _ old) with (@nil BookAuthor).
  - simpl. induction rows as [|a rows IH]; [done|].
    simpl. rewrite String.eqb_refl. by rewrite IH.
  - symmetry. induction old as [|ba old IH]; [done|].
    simpl in *. apply andb_true_iff in Hold as [Hba Hold].
    apply negb_true_iff in Hba. rewrite Hba. by apply IH.
Qed.

(** X17. Let the payload name the author identifiers authorIds, as an
    array of strings or not at all. When no link row of the store names the
    generated identifier, a createBook that returned lists the authors of
    the new book exactly in the order of authorIds: the entry at position i
    is the stored author with the i-th identifier, with its name, and
    order i+1. *)
Theorem createBook_lists_authors_in_order (env : Env) (bookData : Obj) (db db' : Db)
    (shaped : ShapedBook) (authorIds : list string) :
  supplies bookData "authorIds" authorIds →
  createBook env bookData db = (Ok shaped, db') →
  unlinked (tables db) (newId env) = true →
  sb_authors shaped = Some (listed_authors (tables db) authorIds).
Proof.
  intros Hsupplied H Hfresh. apply supplies_js_ids in Hsupplied.
  apply createBook_ok in H as (aids & cids & row & Ha & _ & Hcreate & ->).
  rewrite Hsupplied in Ha. injection Ha as <-.
  apply book_create_checked in Hcreate
    as (arows & crows & id & Hja & _ & -> & Hid & _ & _ & _ & Hka & _ & _ & _ & Ht).
  rewrite created_row_id in Hid. injection Hid as <-.
  unfold create_authors in Hja. rewrite default_nested_create in Hja.
  unfold mapi in Hja.
  apply (join_keys_mapi_from (λ i, (Z.of_nat i + 1)%Z)) in Hja as (ids & Eids & ->).
  apply fmap_VStr_inj in Eids as <-.
  unfold formatBookResponse, with_relations.
  cbn [sb_authors br_authors fmap option_fmap option_map]. f_equal.
  unfold row_id. rewrite created_row_id.
  unfold authors_of. rewrite Ht. cbn [BookAuthors Author].
  rewrite (filter_new_links _ _ _ Hfresh).
  destruct (joined_new_links (tables db) (newId env) authorIds 0 Hka) as [Hjoin Hshape].
  assert (∀ l : list BookAuthor,
             omap (join_author
                       {| Book := Book (tables db) ++ [create_data bookData ∪ book_defaults env];
                          Author := Author (tables db);
                          Category := Category (tables db);
                          BookAuthors :=
                            BookAuthors (tables db) ++
                            map (λ a : string * Z, mkBookAuthor (newId env) a.1 a.2)
                              (mapi_from (λ s i, (s, (Z.of_nat i + 1)%Z)) 0 authorIds);
                          BookCategories :=
                            BookCategories (tables db) ++
                            map (λ c : string * bool, mkBookCategory (newId env) c.1 c.2)
                              crows |}) l
               = omap (join_author (tables db)) l) as Hsame by (intros l; reflexivity).
  rewrite Hsame, Hjoin, merge_sort_ascending by apply new_links_ascending.
  exact Hshape.
Qed.

Lemma createBook_lists_authors_in_order_witness :
  sb_authors
    (match (createBook Samples.env1 Samples.with_relations_payload Samples.db0).1 with
     | Ok b => b
     | Throw _ => mkShapedBook ∅ None None
     end)
  = Some (listed_authors (tables Samples.db0) ["A2"; "A1"]).
Proof.
  apply (createBook_lists_authors_in_order Samples.env1 Samples.with_relations_payload
           Samples.db0
           (createBook Samples.env1 Samples.with_relations_payload Samples.db0).2).
  - left. vm_compute. reflexivity.
  - apply (ok_result (createBook Samples.env1 Samples.with_relations_payload Samples.db0)).
    vm_compute. reflexivity.
  - vm_compute. reflexivity.
Defined.

(** ** What the book service throws *)








(** X19. updateBook has no duplicate check of its own. When the update
    names an isbn that another stored book carries, it does not return and
    does not throw the ConflictError of createBook: the clash surfaces as a
    store fault, which the error handler answers with status 500, and no
    table changes. *)
Theorem updateBook_isbn_clash_is_a_store_fault (env : Env) (id isbn : string)
    (updateData : Obj) (db : Db) (old other : Obj) :
  book_findUnique id (tables db) = Some old →
  other ∈ Book (tables db) →
  has_id id other = false →
  other !! "isbn" = Some (VStr isbn) →
  updateData !! "isbn" = Some (VStr isbn) →
  ∃ fault,
    (updateBook env id updateData db).1 = Throw (StoreError fault)
    ∧ statusCode (StoreError fault) = 500%Z
    ∧ tables (updateBook env id updateData db).2 = tables db.
Proof.
  intros Hold Hother Hnot Hisbn Hdata.
  assert (∃ fault, book_update env id (update_data updateData) (tables db)
                   = Throw (StoreError fault)) as [fault Hfault].
  { unfold book_update. rewrite Hold.
    destruct (bool_decide_reflect (dom (update_data updateData) = ∅)) as [Hd|_].
    { exfalso. apply dom_empty_iff_L in Hd.
      assert (update_data updateData !! "isbn" = Some (VStr isbn)) as Hisbn'.
      { rewrite update_data_lookup; [done|]. apply (bool_decide_unpack _). by vm_compute. }
      by rewrite Hd in Hisbn'. }
    destruct (unknown_column _); [by eexists|].
    destruct (null_column _); [by eexists|].
    destruct (col_str _ "id"); [|by eexists].
    destruct (duplicate_column _ _) eqn:Ed; [by eexists|]. exfalso.
    assert (collides "isbn"
              (update_data updateData ∪ <["updatedAt" := VDate (VNum (now env))]> old)
              (List.filter (λ r, negb (has_id id r)) (Book (tables db))) = false) as Hc.
    { apply (duplicate_column_None _ _ _ Ed). unfold uniqueColumns. in_list. }
    unfold collides in Hc.
    rewrite (lookup_union_Some_l _ _ _ (VStr isbn)) in Hc.
    2:{ rewrite update_data_lookup; [done|]. apply (bool_decide_unpack _). by vm_compute. }
    apply not_true_iff_false in Hc. apply Hc.
    apply existsb_exists. exists other. split.
    - apply filter_In. split; [by apply list_elem_of_In|]. by rewrite Hnot.
    - unfold col_equals. rewrite Hisbn. simpl. apply String.eqb_refl. }
  exists fault.
  unfold updateBook. unfold mbind at 1 3, M_bind at 1 3, prisma_findUnique, logged.
  rewrite Hold.
  unfold mbind, M_bind, prisma_updateInclude, logged.
  cbv zeta. cbn [tables calls]. rewrite Hfault. done.
Qed.

Lemma found_default {A : Type} (o : option A) (d : A) :
  match o with Some _ => true | None => false end = true → o = Some (default d o).
Proof. by destruct o. Qed.

Lemma updateBook_isbn_clash_is_a_store_fault_witness :
  ∃ fault,
    (updateBook Samples.env2 "b2" (Samples.with_isbn "0306406152") one_with_isbn).1
    = Throw (StoreError fault)
    ∧ statusCode (StoreError fault) = 500%Z
    ∧ tables (updateBook Samples.env2 "b2" (Samples.with_isbn "0306406152")
                one_with_isbn).2
      = tables one_with_isbn.
Proof.
  apply (updateBook_isbn_clash_is_a_store_fault Samples.env2 "b2" "0306406152"
           (Samples.with_isbn "0306406152") one_with_isbn
           (default ∅ (book_findUnique "b2" (tables one_with_isbn)))
           (default ∅ (head (Book (tables one_with_isbn))))).
  - apply found_default. vm_compute. reflexivity.
  - apply head_default_elem. vm_compute. reflexivity.
  - vm_compute. reflexivity.
  - vm_compute. reflexivity.
  - vm_compute. reflexivity.
Defined.

(** ** The request identifier *)

(** X20. The requestId middleware takes the incoming header value when it
    is not empty and the generated identifier otherwise; with it mounted
    (and a generator that yields a non-empty text), every answer of
    errorHandler carries that identifier, in every environment and for
    every error. *)
Theorem errorHandler_echoes_request_id (node_env header : option string)
    (uuidv4 : string) (err : Thrown) :
  uuidv4 ≠ "" →
  eb_requestId (er_error (errorHandler node_env (Some (requestId header uuidv4)) err).2)
  = Some (requestId header uuidv4)
  ∧ (∀ h, header = Some h → h ≠ "" → requestId header uuidv4 = h)
  ∧ (header = None ∨ header = Some "" → requestId header uuidv4 = uuidv4).
Proof.
  intros Hu. unfold requestId, string_or_default. split; [|split].
  - unfold errorHandler. cbn [snd er_error eb_requestId].
    destruct header as [h|].
    + destruct (String.eqb_spec h "") as [->|Hh].
      * by destruct (String.eqb_spec uuidv4 "").
      * by destruct (String.eqb_spec h "").
    + by destruct (String.eqb_spec uuidv4 "").
  - intros h -> Hh. by destruct (String.eqb_spec h "").
  - by intros [->| ->].
Qed.

Lemma errorHandler_echoes_request_id_witness :
  eb_requestId
    (er_error (errorHandler (Some "production") (Some (requestId (Some "r-17") "u-1"))
                 (AppError "Token has expired" 401 "UNAUTHORIZED" "at verify")).2)
  = Some (requestId (Some "r-17") "u-1").
Proof.
  apply (errorHandler_echoes_request_id (Some "production") (Some "r-17") "u-1"
           (AppError "Token has expired" 401 "UNAUTHORIZED" "at verify")).
  by_names.
Defined.

(** ** When createBook returns *)









(** ** Properties the update hands to the store *)




(** ** When updateBook returns *)



